(** * The audit verifier of the satellite (package [audit], verifier.go)

    A shallow embedding of [Verifier.Verify], [Verifier.DownloadShares],
    [Verifier.GetShare], [checkIfSegmentAltered], [auditShares],
    [getOfflineNodes], [getSuccessNodes], [createPendingAudits],
    [rebuildStripe], [GetRandomStripe] and [Verifier.VerifyPieceHashes],
    and the properties of the audit specification proved about them.

    Conventions.
    - Go's [int], [int32] and [int64] are [Z]; a slice index is a [nat]
      that is converted with [Z.of_nat] where the code uses it as an [int].
    - A Go map is a [gmap]; a [range] over a map visits its entries in an
      order the language leaves open, which is a [Shuffle] here.
    - Every call that leaves the package (metainfo, orders, the network,
      the erasure code, the clock, the random source) is a field of an
      environment record: the outcome of that call.
    - A function that can panic returns an [option]; [None] is the panic. *)

From stdpp Require Import gmap list fin_maps strings.
From Stdlib Require Import ZArith Strings.Byte.

Local Open Scope Z_scope.

(** ** Basic data *)

(** [storj.NodeID] and [storj.PieceID] are 32-byte arrays that the code
    only compares; they are read as numbers. *)
Definition NodeID := N.
Definition PieceID := N.
Definition bytes := list byte.
Definition Path := string.
(** [time.Time] as a number of nanoseconds; the zero value [time.Time{}]
    is [0]. *)
Definition Time := Z.

#[global] Instance byte_eq_decision : EqDecision byte := byte_eq_dec.

(** [bytes.Equal]. *)
Definition bytes_Equal (a b : bytes) : bool := bool_decide (a = b).

(** The order in which the entries of a map are visited by [range], or in
    which the results of concurrent tasks arrive on a channel. *)
Record Shuffle := mkShuffle {
  shuffle : ∀ A : Type, list A → list A;
  shuffle_perm : ∀ (A : Type) (l : list A), shuffle A l ≡ₚ l
}.

Definition go_range {A : Type} (o : Shuffle) (m : gmap Z A) : list (Z * A) :=
  shuffle o _ (map_to_list m).

(** Two orders to run the model with: the order of the list, and the
    opposite one. *)
Definition id_shuffle : Shuffle :=
  mkShuffle (λ _ l, l) (λ _ l, Permutation_refl l).
Definition rev_shuffle : Shuffle :=
  mkShuffle (λ _ l, reverse l) (λ _ l, reverse_Permutation l).

(** ** Errors *)

Module rpcstatus.
(** [rpcstatus.StatusCode]. *)
Inductive StatusCode :=
| Unknown | OK | Canceled | InvalidArgument | DeadlineExceeded | NotFound
| AlreadyExists | PermissionDenied | ResourceExhausted | FailedPrecondition
| Aborted | OutOfRange | Unimplemented | Internal | Unavailable | DataLoss
| Unauthenticated.

#[global] Instance StatusCode_eq_dec : EqDecision StatusCode.
Proof. solve_decision. Defined.
End rpcstatus.

Module errs.
(** The error classes ([errs.Class]) the audit code creates or tests. *)
Inductive Class :=
| Error                 (* audit.Error *)
| ErrNotEnoughShares
| ErrSegmentDeleted
| ErrSegmentModified
| ErrObjectNotFound     (* storj.ErrObjectNotFound *)
| ErrValueChanged       (* storage.ErrValueChanged *)
| ErrKeyNotFound        (* storage.ErrKeyNotFound *)
| RPCError               (* rpc.Error *)
| Foreign (tag : N).    (* any other class *)

#[global] Instance Class_eq_dec : EqDecision Class.
Proof. solve_decision. Defined.

(** The text of an error, as the format string and its arguments. *)
Inductive Msg :=
| MsgOpaque (tag : N)
| MsgGotRequired (got required : Z)        (* "got %d, required %d" *)
| MsgQuoted (key : Path)                   (* "%q" *)
| MsgPiecesToRemove (toRemove count : Z)   (* "Pieces to remove (%d) do not match unsuccessful nodes (%d)" *)
| MsgFailedToModify (attempts : Z).        (* "Failed to modify segment pointer in %d attempts." *)

#[global] Instance Msg_eq_dec : EqDecision Msg.
Proof. solve_decision. Defined.

(** A non-nil Go [error], by what the audit code observes of it: the
    classes found along its chain ([Class.Has]), whether
    [errs.Is(err, context.DeadlineExceeded)] holds, and
    [rpcstatus.Code(err)].  A nil error is [None : option error]. *)
Record error := mkError {
  err_classes : list Class;
  err_msg : Msg;
  err_ctx_deadline : bool;
  err_code : rpcstatus.StatusCode
}.

#[global] Instance error_eq_dec : EqDecision error.
Proof. solve_decision. Defined.

(** [class.New(format, args...)]. *)
Definition New (c : Class) (m : Msg) : error :=
  mkError [c] m false rpcstatus.Unknown.

(** [class.Wrap(err)] for a non-nil [err]: the class is added in front
    of the chain, what lies below stays observable. *)
Definition Wrap (c : Class) (e : error) : error :=
  mkError (c :: err_classes e) (err_msg e) (err_ctx_deadline e) (err_code e).

(** [class.Has(err)] for a non-nil [err]. *)
Definition Has (c : Class) (e : error) : bool :=
  bool_decide (c ∈ err_classes e).

(** [errs.Is(err, context.DeadlineExceeded)]. *)
Definition IsDeadlineExceeded (e : error) : bool := err_ctx_deadline e.

(** [errs2.IsRPC(err, code)]. *)
Definition IsRPC (e : error) (code : rpcstatus.StatusCode) : bool :=
  bool_decide (err_code e = code).

(** [errs.Combine(a, b)]: nil when both are nil, the only non-nil one
    when there is one, and a group holding both otherwise. *)
Definition Combine (a b : option error) : option error :=
  match a, b with
  | None, None => None
  | Some e, None => Some e
  | None, Some e => Some e
  | Some e1, Some e2 =>
      Some (mkError (err_classes e1 ++ err_classes e2) (err_msg e1)
              (err_ctx_deadline e1 || err_ctx_deadline e2) (err_code e1))
  end.
End errs.

Abbreviation error := errs.error.

(** ** Protocol buffer messages ([pb]) *)

Module pb.
Inductive Pointer_DataType := Pointer_INLINE | Pointer_REMOTE.

#[global] Instance Pointer_DataType_eq_dec : EqDecision Pointer_DataType.
Proof. solve_decision. Defined.

Record RedundancyScheme := mkRedundancyScheme {
  MinReq : Z;
  Total : Z;
  RepairThreshold : Z;
  SuccessThreshold : Z;
  ErasureShareSize : Z
}.

Record RemotePiece := mkRemotePiece {
  PieceNum : Z;
  NodeId : NodeID
}.

#[global] Instance RemotePiece_eq_dec : EqDecision RemotePiece.
Proof. solve_decision. Defined.

Record RemoteSegment := mkRemoteSegment {
  Redundancy : option RedundancyScheme;
  RootPieceId : PieceID;
  RemotePieces : list RemotePiece
}.

Record Pointer := mkPointer {
  Type_ : Pointer_DataType;
  Remote : option RemoteSegment;
  SegmentSize : Z;
  CreationDate : Time;
  ExpirationDate : Time;
  PieceHashesVerified : bool
}.

(** The generated getters, which accept a nil receiver. *)
Definition GetRedundancy (r : option RemoteSegment) : option RedundancyScheme :=
  match r with Some r => Redundancy r | None => None end.
Definition GetRemotePieces (r : option RemoteSegment) : list RemotePiece :=
  match r with Some r => RemotePieces r | None => [] end.
Definition GetMinReq (r : option RedundancyScheme) : Z :=
  match r with Some r => MinReq r | None => 0 end.
Definition GetTotal (r : option RedundancyScheme) : Z :=
  match r with Some r => Total r | None => 0 end.
Definition GetErasureShareSize (r : option RedundancyScheme) : Z :=
  match r with Some r => ErasureShareSize r | None => 0 end.

(** [pb.AddressedOrderLimit]; the order limit inside it is always set by
    the orders service, so its [StorageNodeId] is kept directly. *)
Record AddressedOrderLimit := mkAddressedOrderLimit {
  StorageNodeId : NodeID;
  StorageNodeAddress : string
}.
End pb.

(** ** Shares, pending audits and reports *)

(** [Share] represents required information about an audited share. *)
Record Share := mkShare {
Share_Error : option error;
Share_PieceNum : Z;
Share_NodeID : NodeID;
Share_Data : bytes
}.

(** The zero value [Share{}]. *)
Definition Share_zero : Share := mkShare None 0 0%N [].

(** Modelled from the spec: the declaration of [PendingAudit] is not in
    the sources at hand; the fields are those [createPendingAudits] sets
    and section 3 of the specification lists. *)
Record PendingAudit := mkPendingAudit {
PA_NodeID : NodeID;
PA_PieceID : PieceID;
PA_StripeIndex : Z;
PA_ShareSize : Z;
PA_ExpectedShareHash : bytes;
PA_Path : Path
}.

(** Modelled from the spec: the declaration of [Report] is not in the
    sources at hand; the fields are those [Verify] sets and section 3 of
    the specification lists.  A nil slice is the empty list. *)
Record Report := mkReport {
Successes : list NodeID;
Fails : list NodeID;
Offlines : list NodeID;
PendingAudits : list PendingAudit;
Unknown : list NodeID
}.

(** The zero value [Report{}]. *)
Definition Report_zero : Report := mkReport [] [] [] [] [].

(** ** Downloading shares *)

(** [int64] arithmetic wraps around. *)
Definition wrap64 (z : Z) : Z := (z + 2 ^ 63) mod 2 ^ 64 - 2 ^ 63.

(** The piece store client, as the outcome of each of its calls for the
    download of piece number [pieceNum] with order limit [limit]. *)
Record Network := mkNetwork {
  (* piecestore.DialNodeURL: nil, or the dial error *)
  piecestore_DialNodeURL : Z → pb.AddressedOrderLimit → option error;
  (* ps.Download(ctx, limit, key, offset, size): nil, or the error *)
  ps_Download : Z → pb.AddressedOrderLimit → N → Z → Z → option error;
  (* io.ReadFull(downloader, buf): the bytes stored in buf, or the error *)
  io_ReadFull : Z → pb.AddressedOrderLimit → Z → bytes + error;
  (* downloader.Close() *)
  downloader_Close : Z → pb.AddressedOrderLimit → option error
}.

(** [GetShare] uses the piece store client to download a share from a
    node.  The deadline set from [minBytesPerSecond] and
    [minDownloadTimeout] only bounds how long the calls may take; a call
    that runs out of time shows here as the error it returns.  [make]
    panics on a negative length. *)
Definition GetShare (net : Network) (limit : pb.AddressedOrderLimit)
    (piecePrivateKey : N) (stripeIndex shareSize pieceNum : Z)
    : option (Share * option error) :=
  match piecestore_DialNodeURL net pieceNum limit with
  | Some err => Some (Share_zero, Some (errs.Wrap errs.Error err))
  | None =>
      let offset := wrap64 (shareSize * stripeIndex) in
      match ps_Download net pieceNum limit piecePrivateKey offset shareSize with
      | Some err => Some (Share_zero, Some err)
      | None =>
          (* from here on: defer err = errs.Combine(err, downloader.Close()) *)
          if shareSize <? 0 then None
          else
            match io_ReadFull net pieceNum limit shareSize with
            | inr err =>
                Some (Share_zero,
                      errs.Combine (Some err) (downloader_Close net pieceNum limit))
            | inl buf =>
                Some (mkShare None pieceNum (pb.StorageNodeId limit) buf,
                      errs.Combine None (downloader_Close net pieceNum limit))
            end
      end
  end.

(** What the task started for [limits[i]] sends on the channel: nil for a
    nil limit, and otherwise the share of [GetShare], replaced by a share
    that carries the error when [GetShare] returned one. *)
Definition DownloadShares_send (net : Network) (piecePrivateKey : N)
    (stripeIndex shareSize : Z) (i : nat) (limit : option pb.AddressedOrderLimit)
    : option (option Share) :=
  match limit with
  | None => Some None
  | Some limit =>
      match GetShare net limit piecePrivateKey stripeIndex shareSize (Z.of_nat i) with
      | None => None
      | Some (share, Some err) =>
          Some (Some (mkShare (Some err) (Z.of_nat i) (pb.StorageNodeId limit) []))
      | Some (share, None) => Some (Some share)
      end
  end.

(** The first loop of [DownloadShares], over [limits] from index [i] on. *)
Fixpoint DownloadShares_sends (net : Network) (piecePrivateKey : N)
    (stripeIndex shareSize : Z) (i : nat)
    (limits : list (option pb.AddressedOrderLimit)) : option (list (option Share)) :=
  match limits with
  | [] => Some []
  | limit :: limits =>
      match DownloadShares_send net piecePrivateKey stripeIndex shareSize i limit with
      | None => None
      | Some msg =>
          match DownloadShares_sends net piecePrivateKey stripeIndex shareSize (S i) limits with
          | None => None
          | Some msgs => Some (msg :: msgs)
          end
      end
  end.

(** The second loop of [DownloadShares]: one receive per limit. *)
Definition DownloadShares_receive (shares : gmap Z Share) (msg : option Share)
    : gmap Z Share :=
  match msg with
  | Some share => <[Share_PieceNum share := share]> shares
  | None => shares
  end.

(** [DownloadShares] downloads shares from the nodes where remote pieces
    are located.  [arrival] is the order in which the channel delivers. *)
Definition DownloadShares (net : Network) (arrival : Shuffle)
    (limits : list (option pb.AddressedOrderLimit)) (piecePrivateKey : N)
    (stripeIndex shareSize : Z) : option (gmap Z Share * option error) :=
  match DownloadShares_sends net piecePrivateKey stripeIndex shareSize 0 limits with
  | None => None
  | Some msgs =>
      Some (foldl DownloadShares_receive ∅ (shuffle arrival _ msgs), None)
  end.

(** ** The erasure code ([infectious]) and the other collaborators *)

Module infectious.
(** [infectious.Share]. *)
Record Share := mkShare {
  Number : Z;
  Data : bytes
}.

(** The erasure code library, for a code built by [NewFEC(k, n)]; the two
    first arguments of each operation are that [k] and [n]. *)
Record Library := mkLibrary {
  (* the error of NewFEC(k, n); nil when the code was built *)
  NewFEC : Z → Z → option error;
  (* fec.Correct(shares): the slice after the call, or the error *)
  Correct : Z → Z → list Share → list Share + error;
  (* fec.Rebuild(shares, output): the shares given to output, in call
     order, and the error returned *)
  Rebuild : Z → Z → list Share → list Share * option error;
  (* fec.EncodeSingle(input, output, num), with the length of output:
     the content of output after the call, or the error *)
  EncodeSingle : Z → Z → bytes → Z → Z → bytes + error
}.
End infectious.

(** The calls [Verify] and [VerifyPieceHashes] make that change the
    metainfo store. *)
Inductive Call :=
| CallDelete (key : Path) (pointerBytes : bytes)
| CallUpdate (key : Path) (pointer : pb.Pointer) (toRemove : list pb.RemotePiece).

(** The world around one call of [Verify]. *)
Record Env := mkEnv {
  (* metainfo.GetWithBytes, by the number of the call: 0 is the one that
     opens Verify, 1 the one of checkIfSegmentAltered *)
  metainfo_GetWithBytes : nat → Path → (bytes * pb.Pointer) + error;
  metainfo_Delete : Path → bytes → option error;
  time_Now : Time;
  (* eestream.NewRedundancyStrategyFromProto followed by StripeSize():
     the stripe size of the strategy, or the error *)
  eestream_StripeSize : option pb.RedundancyScheme → Z + error;
  (* rand.New(cryptoSource).Int63n *)
  rand_Int63n : Z → Z;
  (* metabase.ParseSegmentKey followed by Bucket() *)
  metabase_ParseSegmentKey : Path → N + error;
  orders_CreateAuditOrderLimits :
    N → pb.Pointer → gmap NodeID bool →
    (list (option pb.AddressedOrderLimit) * N) + error;
  net : Network;
  fec : infectious.Library;
  pkcrypto_SHA256Hash : bytes → bytes;
  (* the order of each range over a map, and of the channel *)
  order_arrival : Shuffle;
  order_classify : Shuffle;
  order_copies : Shuffle;
  order_success : Shuffle;
  order_pending : Shuffle
}.

(** The fields of [Verifier] that change what [Verify] and
    [VerifyPieceHashes] return.  The mock is called once per attempt; its
    argument is the number of the attempt. *)
Record Verifier := mkVerifier {
  OnTestingVerifyMockFunc : option (nat → Report * option error);
  UsedToVerifyPieceHashes : bool
}.

(** ** The helpers of [Verify] *)

(** [checkIfSegmentAltered] checks if path's pointer has been altered
    since path was selected.  [refetch] is the outcome of its
    [GetWithBytes]; what the testing hook does before it is part of that
    outcome. *)
Definition checkIfSegmentAltered (refetch : (bytes * pb.Pointer) + error)
    (segmentKey : Path) (oldPointer : option pb.Pointer) (oldPointerBytes : bytes)
    : option error :=
  match refetch with
  | inr err =>
      if errs.Has errs.ErrObjectNotFound err
      then Some (errs.New errs.ErrSegmentDeleted (errs.MsgQuoted segmentKey))
      else Some err
  | inl (newPointerBytes, newPointer) =>
      if match oldPointer with
         | Some oldPointer =>
             bool_decide (pb.CreationDate oldPointer ≠ pb.CreationDate newPointer)
         | None => false
         end
      then Some (errs.New errs.ErrSegmentDeleted (errs.MsgQuoted segmentKey))
      else if negb (bytes_Equal oldPointerBytes newPointerBytes)
      then Some (errs.New errs.ErrSegmentModified (errs.MsgQuoted segmentKey))
      else None
  end.

(** [makeCopies] takes in a map of audit Shares and deep copies their data
    to a slice of infectious Shares. *)
Definition makeCopies (order : Shuffle) (originals : gmap Z Share)
    : list infectious.Share :=
  (λ '(_, original),
     infectious.mkShare (Share_PieceNum original) (Share_Data original))
    <$> go_range order originals.

(** [originals[n]]: the zero value for a missing key. *)
Definition share_at (originals : gmap Z Share) (n : Z) : Share :=
  default Share_zero (originals !! n).

(** [auditShares] takes the downloaded shares and uses infectious's
    Correct function to check that they haven't been altered.  It returns
    the piece numbers of altered shares, and the corrected shares. *)
Definition auditShares (lib : infectious.Library) (order : Shuffle)
    (required total : Z) (originals : gmap Z Share)
    : (list Z * list infectious.Share) + error :=
  match infectious.NewFEC lib required total with
  | Some err => inr err
  | None =>
      match infectious.Correct lib required total (makeCopies order originals) with
      | inr err => inr err
      | inl copies =>
          inl (infectious.Number <$>
                 filter (λ share,
                    bytes_Equal (Share_Data (share_at originals (infectious.Number share)))
                                (infectious.Data share) = false) copies,
               copies)
      end
  end.

(** [skip[id]]: false for a missing key. *)
Definition skipped (skip : gmap NodeID bool) (id : NodeID) : bool :=
  default false (skip !! id).

(** The nodes of the non-nil limits ([nodesWithLimit], a map whose values
    are all true). *)
Definition nodesWithLimit (limits : list (option pb.AddressedOrderLimit))
    : gset NodeID :=
  list_to_set (pb.StorageNodeId <$> omap id limits).

(** [getOfflineNodes] returns these storage nodes from pointer which have
    no order limit nor are skipped. *)
Definition getOfflineNodes (pointer : pb.Pointer)
    (limits : list (option pb.AddressedOrderLimit)) (skip : gmap NodeID bool)
    : list NodeID :=
  pb.NodeId <$>
    filter (λ piece, (pb.NodeId piece ∉ nodesWithLimit limits)
                     ∧ (skipped skip (pb.NodeId piece) = false))
           (pb.GetRemotePieces (pb.Remote pointer)).

(** [getSuccessNodes] uses the failed nodes, offline nodes and contained
    nodes arrays to determine which nodes passed the audit.  The set
    [fails] does not depend on the order of the range over
    [containedNodes]. *)
Definition getSuccessNodes (order : Shuffle) (shares : gmap Z Share)
    (failedNodes offlineNodes unknownNodes : list NodeID)
    (containedNodes : gmap Z NodeID) : list NodeID :=
  let fails : gset NodeID :=
    list_to_set failedNodes ∪ list_to_set offlineNodes
    ∪ list_to_set unknownNodes
    ∪ list_to_set ((map_to_list containedNodes).*2) in
  Share_NodeID <$>
    filter (λ share, Share_NodeID share ∉ fails) ((go_range order shares).*2).

(** [copy(stripe[off:], data)]: a panic when [off] is outside of
    [stripe]; otherwise as many bytes of [data] as fit are written from
    [off] on. *)
Definition copy_at (stripe : bytes) (off : Z) (data : bytes) : option bytes :=
  if (off <? 0) || (Z.of_nat (length stripe) <? off) then None
  else
    let o := Z.to_nat off in
    let room := (length stripe - o)%nat in
    Some (take o stripe ++ take room data ++ drop (o + length (take room data)) stripe).

(** The callback [rebuildStripe] gives to [Rebuild], run on the shares
    that [Rebuild] hands to it. *)
Fixpoint rebuildStripe_output (shareSize : Z) (stripe : bytes)
    (emitted : list infectious.Share) : option bytes :=
  match emitted with
  | [] => Some stripe
  | share :: emitted =>
      match copy_at stripe (infectious.Number share * shareSize) (infectious.Data share) with
      | None => None
      | Some stripe => rebuildStripe_output shareSize stripe emitted
      end
  end.

(** [rebuildStripe]; [required] is [fec.Required()]. *)
Definition rebuildStripe (lib : infectious.Library) (required total : Z)
    (corrected : list infectious.Share) (shareSize : Z) : option (bytes + error) :=
  if required * shareSize <? 0 then None
  else
    let stripe := replicate (Z.to_nat (required * shareSize)) x00 in
    let '(emitted, err) := infectious.Rebuild lib required total corrected in
    match rebuildStripe_output shareSize stripe emitted with
    | None => None
    | Some stripe =>
        match err with
        | Some err => Some (inr err)
        | None => Some (inl stripe)
        end
    end.

(** The loop of [createPendingAudits] over the contained nodes. *)
Fixpoint createPendingAudits_loop (lib : infectious.Library)
    (sha256 : bytes → bytes) (required total shareSize : Z) (stripeData : bytes)
    (pointer : pb.Pointer) (randomIndex : Z) (path : Path)
    (entries : list (Z * NodeID)) (pending : list PendingAudit)
    : option (list PendingAudit * option error) :=
  match entries with
  | [] => Some (pending, None)
  | (pieceNum, nodeID) :: entries =>
      if shareSize <? 0 then None
      else
        match infectious.EncodeSingle lib required total stripeData shareSize pieceNum with
        | inr err => Some ([], Some (errs.Wrap errs.Error err))
        | inl share =>
            match pb.Remote pointer with
            | None => None
            | Some remote =>
                createPendingAudits_loop lib sha256 required total shareSize
                  stripeData pointer randomIndex path entries
                  (pending ++ [mkPendingAudit nodeID (pb.RootPieceId remote)
                                 randomIndex shareSize (sha256 share) path])
            end
        end
  end.

(** [createPendingAudits]. *)
Definition createPendingAudits (lib : infectious.Library) (sha256 : bytes → bytes)
    (order : Shuffle) (containedNodes : gmap Z NodeID)
    (correctedShares : list infectious.Share) (pointer : pb.Pointer)
    (randomIndex : Z) (path : Path) : option (list PendingAudit * option error) :=
  if bool_decide (size containedNodes = 0%nat) then Some ([], None)
  else
    let redundancy := pb.GetRedundancy (pb.Remote pointer) in
    let required := pb.GetMinReq redundancy in
    let total := pb.GetTotal redundancy in
    let shareSize := pb.GetErasureShareSize redundancy in
    match infectious.NewFEC lib required total with
    | Some err => Some ([], Some (errs.Wrap errs.Error err))
    | None =>
        match rebuildStripe lib required total correctedShares shareSize with
        | None => None
        | Some (inr err) => Some ([], Some (errs.Wrap errs.Error err))
        | Some (inl stripeData) =>
            createPendingAudits_loop lib sha256 required total shareSize
              stripeData pointer randomIndex path
              (go_range order containedNodes) []
        end
    end.

(** [GetRandomStripe] takes a pointer and returns a random stripe index
    within that pointer.  The division panics on a zero stripe size and
    [Int63n] on an argument that is not positive. *)
Definition GetRandomStripe (env : Env) (pointer : pb.Pointer)
    : option (Z * option error) :=
  match eestream_StripeSize env (pb.GetRedundancy (pb.Remote pointer)) with
  | inr err => Some (0, Some err)
  | inl stripeSize =>
      if pb.SegmentSize pointer <? stripeSize then Some (0, None)
      else if stripeSize =? 0 then None
      else
        let numStripes := pb.SegmentSize pointer ÷ stripeSize in
        if numStripes <=? 0 then None
        else Some (rand_Int63n env numStripes, None)
  end.

(** ** [Verify] *)

(** The lists and maps the classification loop of [Verify] fills. *)
Record Buckets := mkBuckets {
  offlineNodes : list NodeID;
  failedNodes : list NodeID;
  unknownNodes : list NodeID;
  containedNodes : gmap Z NodeID;
  sharesToAudit : gmap Z Share
}.

(** The body of the loop [for pieceNum, share := range shares]. *)
Definition classifyShare (b : Buckets) (pieceNum : Z) (share : Share) : Buckets :=
  match Share_Error share with
  | None =>
      (* no error -- share downloaded successfully *)
      mkBuckets (offlineNodes b) (failedNodes b) (unknownNodes b)
        (containedNodes b) (<[pieceNum := share]> (sharesToAudit b))
  | Some err =>
      if errs.Has errs.RPCError err then
        if errs.IsDeadlineExceeded err then
          (* dial timeout *)
          mkBuckets (offlineNodes b ++ [Share_NodeID share]) (failedNodes b)
            (unknownNodes b) (containedNodes b) (sharesToAudit b)
        else if errs.IsRPC err rpcstatus.Unknown then
          (* dial failed -- offline node *)
          mkBuckets (offlineNodes b ++ [Share_NodeID share]) (failedNodes b)
            (unknownNodes b) (containedNodes b) (sharesToAudit b)
        else
          (* unknown transport error *)
          mkBuckets (offlineNodes b) (failedNodes b)
            (unknownNodes b ++ [Share_NodeID share]) (containedNodes b)
            (sharesToAudit b)
      else if errs.IsRPC err rpcstatus.NotFound then
        (* missing share *)
        mkBuckets (offlineNodes b) (failedNodes b ++ [Share_NodeID share])
          (unknownNodes b) (containedNodes b) (sharesToAudit b)
      else if errs.IsRPC err rpcstatus.DeadlineExceeded then
        (* dial successful, but download timed out *)
        mkBuckets (offlineNodes b) (failedNodes b) (unknownNodes b)
          (<[pieceNum := Share_NodeID share]> (containedNodes b)) (sharesToAudit b)
      else
        (* unknown error *)
        mkBuckets (offlineNodes b) (failedNodes b)
          (unknownNodes b ++ [Share_NodeID share]) (containedNodes b)
          (sharesToAudit b)
  end.

(** The whole loop, from the lists and maps as they are before it. *)
Definition classifyShares (order : Shuffle) (shares : gmap Z Share) (b : Buckets)
    : Buckets :=
  foldl (λ b '(pieceNum, share), classifyShare b pieceNum share) b
        (go_range order shares).

(** The part of [Verify] that runs under its deferred function, from the
    pointer that was read. *)
Definition Verify_audit (env : Env) (path : Path) (skip : gmap NodeID bool)
    (pointerBytes : bytes) (pointer : pb.Pointer) : option (Report * option error) :=
  match GetRandomStripe env pointer with
  | None => None
  | Some (_, Some err) => Some (Report_zero, Some err)
  | Some (randomIndex, None) =>
  let shareSize := pb.GetErasureShareSize (pb.GetRedundancy (pb.Remote pointer)) in
  match metabase_ParseSegmentKey env path with
  | inr err => Some (Report_zero, Some err)
  | inl bucket =>
  match orders_CreateAuditOrderLimits env bucket pointer skip with
  | inr err => Some (Report_zero, Some err)
  | inl (orderLimits, privateKey) =>
  (* NOTE offlineNodes will include disqualified nodes because they aren't
     in the skip list *)
  let offlineNodes0 := getOfflineNodes pointer orderLimits skip in
  match DownloadShares (net env) (order_arrival env) orderLimits privateKey
          randomIndex shareSize with
  | None => None
  | Some (_, Some err) => Some (mkReport [] [] offlineNodes0 [] [], Some err)
  | Some (shares, None) =>
  match checkIfSegmentAltered (metainfo_GetWithBytes env 1%nat path) path
          (Some pointer) pointerBytes with
  | Some err =>
      if errs.Has errs.ErrSegmentDeleted err then Some (Report_zero, None)
      else if errs.Has errs.ErrSegmentModified err then Some (Report_zero, None)
      else Some (mkReport [] [] offlineNodes0 [] [], Some err)
  | None =>
  let b := classifyShares (order_classify env) shares
             (mkBuckets offlineNodes0 [] [] ∅ ∅) in
  match pb.Remote pointer with
  | None => None
  | Some remote =>
  let required := pb.GetMinReq (pb.Redundancy remote) in
  let total := pb.GetTotal (pb.Redundancy remote) in
  if Z.of_nat (size (sharesToAudit b)) <? required then
    Some (mkReport [] (failedNodes b) (offlineNodes b) [] (unknownNodes b),
          Some (errs.New errs.ErrNotEnoughShares
                  (errs.MsgGotRequired (Z.of_nat (size (sharesToAudit b))) required)))
  else
  match auditShares (fec env) (order_copies env) required total (sharesToAudit b) with
  | inr err =>
      Some (mkReport [] (failedNodes b) (offlineNodes b) [] (unknownNodes b), Some err)
  | inl (pieceNums, correctedShares) =>
  let failedNodes1 :=
    failedNodes b ++ ((λ pieceNum, Share_NodeID (share_at shares pieceNum)) <$> pieceNums) in
  let successNodes :=
    getSuccessNodes (order_success env) shares failedNodes1 (offlineNodes b)
      (unknownNodes b) (containedNodes b) in
  match createPendingAudits (fec env) (pkcrypto_SHA256Hash env) (order_pending env)
          (containedNodes b) correctedShares pointer randomIndex path with
  | None => None
  | Some (_, Some err) =>
      Some (mkReport successNodes failedNodes1 (offlineNodes b) [] (unknownNodes b),
            Some err)
  | Some (pendingAudits, None) =>
      Some (mkReport successNodes failedNodes1 (offlineNodes b) pendingAudits
              (unknownNodes b), None)
  end end end end end end end end.

(** The deferred function of [Verify]: if piece hashes have not been
    verified for this segment, do not mark nodes as failing audit. *)
Definition Verify_deferred (verifier : Verifier) (pointer : pb.Pointer)
    (report : Report) : Report :=
  if UsedToVerifyPieceHashes verifier then report
  else if negb (pb.PieceHashesVerified pointer) then
    mkReport (Successes report) [] (Offlines report) [] (Unknown report)
  else report.

(** [Verify] downloads shares then verifies the data correctness at a
    random stripe.  The result is the report, the error, and the calls
    made to change the metainfo store. *)
Definition Verify (verifier : Verifier) (env : Env) (path : Path)
    (skip : gmap NodeID bool) : option (Report * option error * list Call) :=
  match metainfo_GetWithBytes env 0%nat path with
  | inr err =>
      if errs.Has errs.ErrObjectNotFound err then Some (Report_zero, None, [])
      else Some (Report_zero, Some err, [])
  | inl (pointerBytes, pointer) =>
      if bool_decide (pb.ExpirationDate pointer ≠ 0)
         && (pb.ExpirationDate pointer <? time_Now env)
      then
        match metainfo_Delete env path pointerBytes with
        | Some errDelete =>
            Some (Report_zero, Some (errs.Wrap errs.Error errDelete),
                  [CallDelete path pointerBytes])
        | None => Some (Report_zero, None, [CallDelete path pointerBytes])
        end
      else
        match Verify_audit env path skip pointerBytes pointer with
        | None => None
        | Some (report, err) =>
            Some (Verify_deferred verifier pointer report, err, [])
        end
  end.

(** ** [VerifyPieceHashes] *)

(** The world around one call of [VerifyPieceHashes], by the number of
    the attempt (0 for the first pass through the loop body). *)
Record PieceHashesEnv := mkPieceHashesEnv {
  vph_GetWithBytes : nat → Path → (bytes * pb.Pointer) + error;
  vph_Verify_env : nat → Env;
  (* metainfo.UpdatePiecesCheckDuplicatesVerifyHashes(ctx, key, pointer,
     nil, toRemove, false, true): the error it returns *)
  vph_Update : nat → Path → pb.Pointer → list pb.RemotePiece → option error
}.

(** How one pass through the loop body ends. *)
Inductive LoopStep :=
| Return (changed : bool) (err : option error)
| Continue.

(** [report.Successes.Contains(id)]. *)
Definition NodeIDList_Contains (l : list NodeID) (id : NodeID) : bool :=
  bool_decide (id ∈ l).

(** The report [VerifyPieceHashes] works on in pass [n]: the one of the
    mock when there is one, and the one of [Verify] otherwise. *)
Definition VerifyPieceHashes_report (verifier : Verifier) (penv : PieceHashesEnv)
    (path : Path) (n : nat) : option (Report * option error * list Call) :=
  match OnTestingVerifyMockFunc verifier with
  | Some mock => let '(report, err) := mock n in Some (report, err, [])
  | None => Verify verifier (vph_Verify_env penv n) path ∅
  end.

(** The body of the loop of [VerifyPieceHashes] after [attempts++], with
    the calls it makes to change the metainfo store. *)
Definition VerifyPieceHashes_attempt (verifier : Verifier) (penv : PieceHashesEnv)
    (path : Path) (dryRun : bool) (n : nat) : option (LoopStep * list Call) :=
  match vph_GetWithBytes penv n path with
  | inr err =>
      if errs.Has errs.ErrObjectNotFound err then Some (Return false None, [])
      else Some (Return false (Some (errs.Wrap errs.Error err)), [])
  | inl (_, pointer) =>
  if pb.PieceHashesVerified pointer then Some (Return false None, [])
  else if bool_decide (pb.Type_ pointer ≠ pb.Pointer_REMOTE) then
    Some (Return false None, [])
  else
  match VerifyPieceHashes_report verifier penv path n with
  | None => None
  | Some (_, Some err, calls) => Some (Return false (Some err), calls)
  | Some (report, None, calls) =>
  let successes := Z.of_nat (length (Successes report)) in
  if successes =? 0 then
    (* skip it - this could happen if there was deleted or expired *)
    Some (Return false None, calls)
  else
  match pb.Remote pointer with
  | None => None
  | Some remote =>
  match pb.Redundancy remote with
  | None => None
  | Some redundancy =>
  if successes <? pb.MinReq redundancy then Some (Return false None, calls)
  else if successes <? pb.RepairThreshold redundancy then
    Some (Return false None, calls)
  else
  let toRemoveCount :=
    Z.of_nat (length (Fails report)) + Z.of_nat (length (Offlines report))
    + Z.of_nat (length (PendingAudits report)) + Z.of_nat (length (Unknown report)) in
  let toRemove :=
    filter (λ piece, NodeIDList_Contains (Successes report) (pb.NodeId piece) = false)
           (pb.RemotePieces remote) in
  (* sanity check *)
  if bool_decide (Z.of_nat (length toRemove) ≠ toRemoveCount) then
    Some (Return false
            (Some (errs.New errs.Error
                     (errs.MsgPiecesToRemove (Z.of_nat (length toRemove)) toRemoveCount))),
          calls)
  else if dryRun then Some (Return true None, calls)
  else
  let calls := calls ++ [CallUpdate path pointer toRemove] in
  match vph_Update penv n path pointer toRemove with
  | Some err =>
      if errs.Has errs.ErrValueChanged err then Some (Continue, calls)
      else if errs.Has errs.ErrKeyNotFound err then Some (Return false None, calls)
      else Some (Return false (Some (errs.Wrap errs.Error err)), calls)
  | None => Some (Return true None, calls)
  end end end end end.

(** The loop
    [for attempts := 0; attempts < maxAttempts; attempts++ { attempts++; ... }]
    from the test of its condition, with the value [attempts] has there
    and the number [n] of passes made so far.  The outer [None] is for a
    [fuel] that does not cover the passes, the inner one is the panic. *)
Fixpoint VerifyPieceHashes_loop (fuel : nat) (verifier : Verifier)
    (penv : PieceHashesEnv) (path : Path) (dryRun : bool)
    (maxAttempts attempts : Z) (n : nat)
    : option (option (bool * option error * list Call)) :=
  match fuel with
  | O => None
  | S fuel =>
      if attempts <? maxAttempts then
        let attempts := attempts + 1 in
        match VerifyPieceHashes_attempt verifier penv path dryRun n with
        | None => Some None
        | Some (Return changed err, calls) => Some (Some (changed, err, calls))
        | Some (Continue, calls) =>
            match VerifyPieceHashes_loop fuel verifier penv path dryRun
                    maxAttempts (attempts + 1) (S n) with
            | None => None
            | Some None => Some None
            | Some (Some (changed, err, calls')) =>
                Some (Some (changed, err, calls ++ calls'))
            end
        end
      else
        Some (Some (false,
                    Some (errs.New errs.Error (errs.MsgFailedToModify maxAttempts)),
                    []))
  end.

(** [VerifyPieceHashes] verifies the piece hashes for segments with
    piece_hashes_verified = false. *)
Definition VerifyPieceHashes (verifier : Verifier) (penv : PieceHashesEnv)
    (path : Path) (dryRun : bool) : option (option (bool * option error * list Call)) :=
  let maxAttempts := 3 in
  VerifyPieceHashes_loop (S (Z.to_nat maxAttempts)) verifier penv path dryRun
    maxAttempts 0 0%nat.

(** ** The stages of [Verify] *)

(** The pointer is read and has not expired: [Verify] goes on to the
    audit, under its deferred function. *)
Definition Live (env : Env) (path : Path) (pointerBytes : bytes)
    (pointer : pb.Pointer) : Prop :=
  metainfo_GetWithBytes env 0%nat path = inl (pointerBytes, pointer)
  ∧ ¬ (pb.ExpirationDate pointer ≠ 0 ∧ pb.ExpirationDate pointer < time_Now env).

(** The audit gets a stripe, its order limits and the shares. *)
Definition Downloaded (env : Env) (path : Path) (skip : gmap NodeID bool)
    (pointerBytes : bytes) (pointer : pb.Pointer) (randomIndex : Z)
    (orderLimits : list (option pb.AddressedOrderLimit))
    (shares : gmap Z Share) : Prop :=
  Live env path pointerBytes pointer
  ∧ GetRandomStripe env pointer = Some (randomIndex, None)
  ∧ ∃ bucket privateKey,
      metabase_ParseSegmentKey env path = inl bucket
      ∧ orders_CreateAuditOrderLimits env bucket pointer skip
        = inl (orderLimits, privateKey)
      ∧ DownloadShares (net env) (order_arrival env) orderLimits privateKey
          randomIndex (pb.GetErasureShareSize (pb.GetRedundancy (pb.Remote pointer)))
        = Some (shares, None).

(** The segment is found unaltered after the download, and the
    classification loop fills [b]. *)
Definition Classified (env : Env) (path : Path) (skip : gmap NodeID bool)
    (pointerBytes : bytes) (pointer : pb.Pointer) (randomIndex : Z)
    (orderLimits : list (option pb.AddressedOrderLimit))
    (shares : gmap Z Share) (b : Buckets) : Prop :=
  Downloaded env path skip pointerBytes pointer randomIndex orderLimits shares
  ∧ checkIfSegmentAltered (metainfo_GetWithBytes env 1%nat path) path
      (Some pointer) pointerBytes = None
  ∧ b = classifyShares (order_classify env) shares
          (mkBuckets (getOfflineNodes pointer orderLimits skip) [] [] ∅ ∅).

(** The audit runs to its end: enough shares came without error, the
    erasure code corrected them, and the pending audits were built. *)
Definition Completed (env : Env) (path : Path) (skip : gmap NodeID bool)
    (pointerBytes : bytes) (pointer : pb.Pointer) (randomIndex : Z)
    (orderLimits : list (option pb.AddressedOrderLimit))
    (shares : gmap Z Share) (b : Buckets) (remote : pb.RemoteSegment)
    (pieceNums : list Z) (correctedShares : list infectious.Share)
    (pendingAudits : list PendingAudit) : Prop :=
  Classified env path skip pointerBytes pointer randomIndex orderLimits shares b
  ∧ pb.Remote pointer = Some remote
  ∧ pb.GetMinReq (pb.Redundancy remote) ≤ Z.of_nat (size (sharesToAudit b))
  ∧ auditShares (fec env) (order_copies env) (pb.GetMinReq (pb.Redundancy remote))
      (pb.GetTotal (pb.Redundancy remote)) (sharesToAudit b)
    = inl (pieceNums, correctedShares)
  ∧ createPendingAudits (fec env) (pkcrypto_SHA256Hash env) (order_pending env)
      (containedNodes b) correctedShares pointer randomIndex path
    = Some (pendingAudits, None).

(** The report of an audit that ran to its end, before the deferred
    function. *)
Definition completed_report (env : Env) (shares : gmap Z Share) (b : Buckets)
    (pieceNums : list Z) (pendingAudits : list PendingAudit) : Report :=
  let failedNodes1 :=
    failedNodes b ++ ((λ pieceNum, Share_NodeID (share_at shares pieceNum)) <$> pieceNums) in
  mkReport
    (getSuccessNodes (order_success env) shares failedNodes1 (offlineNodes b)
       (unknownNodes b) (containedNodes b))
    failedNodes1 (offlineNodes b) pendingAudits (unknownNodes b).

(** ** The classification table of the specification *)

(** The buckets of the table of section 4.1. *)
Inductive Bucket := ToAudit | Offline | UnknownNode | Failed | Contained.

#[global] Instance Bucket_eq_dec : EqDecision Bucket.
Proof. solve_decision. Defined.

(** The table of section 4.1, row by row: no error; transport error with
    deadline exceeded; transport error with status Unknown; other
    transport error; application NotFound; application DeadlineExceeded;
    any other error. *)
Definition classification_table (share : Share) : Bucket :=
  match Share_Error share with
  | None => ToAudit
  | Some err =>
      let transport := errs.Has errs.RPCError err in
      if transport && errs.IsDeadlineExceeded err then Offline
      else if transport && errs.IsRPC err rpcstatus.Unknown then Offline
      else if transport then UnknownNode
      else if errs.IsRPC err rpcstatus.NotFound then Failed
      else if errs.IsRPC err rpcstatus.DeadlineExceeded then Contained
      else UnknownNode
  end.

(** One pass through the body of the loop, for an entry of the map. *)
Definition classify_step (b : Buckets) (entry : Z * Share) : Buckets :=
  classifyShare b entry.1 entry.2.

(** The nodes of the shares of a list that fall in a given row. *)
Definition nodes_in (bucket : Bucket) (l : list (Z * Share)) : list NodeID :=
  Share_NodeID <$> filter (λ share, classification_table share = bucket) l.*2.


(** ** Pending audits and the partition of the nodes *)

(** The pending audit of the specification for the node [nodeID]
    contained at [pieceNum]: the hash is the SHA-256 of the share that
    EncodeSingle gives at [pieceNum] from the stripe [stripeData]. *)
Definition pending_audit_for (lib : infectious.Library) (sha256 : bytes → bytes)
    (pointer : pb.Pointer) (remote : pb.RemoteSegment) (stripeData : bytes)
    (randomIndex : Z) (path : Path) (pieceNum : Z) (nodeID : NodeID)
    (pa : PendingAudit) : Prop :=
  let redundancy := pb.Redundancy remote in
  ∃ share,
    infectious.EncodeSingle lib (pb.GetMinReq redundancy) (pb.GetTotal redundancy)
      stripeData (pb.GetErasureShareSize redundancy) pieceNum = inl share
    ∧ pa = mkPendingAudit nodeID (pb.RootPieceId remote) randomIndex
             (pb.GetErasureShareSize redundancy) (sha256 share) path.

(** The order limits are aligned with the pieces of the pointer: the
    limit at index [i] is for the node that holds piece number [i], and
    that node is not in the skip set. *)
Definition limits_aligned (pieces : list pb.RemotePiece) (skip : gmap NodeID bool)
    (limits : list (option pb.AddressedOrderLimit)) : Prop :=
  ∀ i limit, limits !! i = Some (Some limit) →
    skipped skip (pb.StorageNodeId limit) = false
    ∧ pb.mkRemotePiece (Z.of_nat i) (pb.StorageNodeId limit) ∈ pieces.

(** [Correct] works in place on the slice it is given: it leaves the
    numbers of the shares as they are, up to their order. *)
Definition Correct_keeps_numbers (lib : infectious.Library) : Prop :=
  ∀ k n copies corrected,
    infectious.Correct lib k n copies = inl corrected →
    infectious.Number <$> corrected ≡ₚ infectious.Number <$> copies.

(** For a node: is it in Successes, in Fails, in Offlines, in Unknown, in
    PendingAudits (by node ID), in the skip set. *)
Definition verdicts (report : Report) (skip : gmap NodeID bool) (n : NodeID)
    : list bool :=
  [bool_decide (n ∈ Successes report);
   bool_decide (n ∈ Fails report);
   bool_decide (n ∈ Offlines report);
   bool_decide (n ∈ Unknown report);
   bool_decide (n ∈ PA_NodeID <$> PendingAudits report);
   skipped skip n].

Definition exactly_one (l : list bool) : Prop :=
  length (filter (λ b : bool, b = true) l) = 1%nat.

(** ** A small segment to run the model on

    Four pieces on the nodes 10 to 13, two of them required, shares of
    four bytes; the order service has no limit for node 13. *)

Definition demo_redundancy : pb.RedundancyScheme :=
  pb.mkRedundancyScheme 2 4 3 4 4.

Definition demo_pieces : list pb.RemotePiece :=
  [pb.mkRemotePiece 0 10%N; pb.mkRemotePiece 1 11%N;
   pb.mkRemotePiece 2 12%N; pb.mkRemotePiece 3 13%N].

Definition demo_pointer (verified : bool) (creation expiration : Time) : pb.Pointer :=
  pb.mkPointer pb.Pointer_REMOTE
    (Some (pb.mkRemoteSegment (Some demo_redundancy) 77%N demo_pieces))
    8 creation expiration verified.

Definition demo_limits : list (option pb.AddressedOrderLimit) :=
  [Some (pb.mkAddressedOrderLimit 10%N "n10");
   Some (pb.mkAddressedOrderLimit 11%N "n11");
   Some (pb.mkAddressedOrderLimit 12%N "n12");
   None].

Definition demo_path : Path := "bucket/segment".

(** The errors of the classification table. *)
Definition err_dial_timeout : error :=
  errs.mkError [errs.RPCError] (errs.MsgOpaque 1%N) true rpcstatus.Unknown.
Definition err_dial_failed : error :=
  errs.mkError [errs.RPCError] (errs.MsgOpaque 2%N) false rpcstatus.Unknown.
Definition err_transport : error :=
  errs.mkError [errs.RPCError] (errs.MsgOpaque 3%N) false rpcstatus.Internal.
Definition err_not_found : error :=
  errs.mkError [] (errs.MsgOpaque 4%N) false rpcstatus.NotFound.
Definition err_download_timeout : error :=
  errs.mkError [] (errs.MsgOpaque 5%N) false rpcstatus.DeadlineExceeded.
Definition err_other : error :=
  errs.mkError [] (errs.MsgOpaque 6%N) false rpcstatus.Internal.
Definition err_object_not_found : error :=
  errs.mkError [errs.ErrObjectNotFound] (errs.MsgOpaque 7%N) false rpcstatus.Unknown.
Definition err_value_changed : error :=
  errs.mkError [errs.ErrValueChanged] (errs.MsgOpaque 8%N) false rpcstatus.Unknown.
Definition err_store : error :=
  errs.mkError [errs.Foreign 1%N] (errs.MsgOpaque 9%N) false rpcstatus.Unknown.

(** A network in which the dial to piece [i] ends as [dial i], the
    request as [download i], and the node then serves [data i]. *)
Definition demo_net (dial download : Z → option error) (data : Z → bytes) : Network :=
  mkNetwork (λ i _, dial i) (λ i _ _ _ _, download i) (λ i _ _, inl (data i))
    (λ _ _, None).

(** An erasure code that accepts 1 <= k <= n <= 256, finds nothing to
    correct, rebuilds the stripe from the shares numbered below k, and
    encodes share [num] as [len] bytes of the stripe from [num] on. *)
Definition demo_fec : infectious.Library :=
  infectious.mkLibrary
    (λ k n, if (1 <=? k) && (k <=? n) && (n <=? 256) then None else Some err_other)
    (λ _ _ shares, inl shares)
    (λ k _ shares,
       (filter (λ share, infectious.Number share < k) shares, None))
    (λ _ _ stripe len num,
       inl (take (Z.to_nat len) (drop (Z.to_nat num) stripe))).

Definition demo_data (i : Z) : bytes :=
  match i with
  | 0 => [x01; x02; x03; x04]
  | 1 => [x05; x06; x07; x08]
  | _ => [x09; x0a; x0b; x0c]
  end.

(** The world of one audit of the demo segment: [pointer] is read first,
    [refetch] is what the second read gives, [delete] what the delete of
    an expired pointer gives.  The clock shows 1000, the stripe drawn is
    0, and the bytes in the opposite order stand for their SHA-256. *)
Definition demo_env (pointer : pb.Pointer) (refetch : (bytes * pb.Pointer) + error)
    (delete : option error) (dial download : Z → option error) (order : Shuffle) : Env :=
  mkEnv
    (λ n _, match n with O => inl ([x01], pointer) | _ => refetch end)
    (λ _ _, delete)
    1000
    (λ r, inl (pb.GetErasureShareSize r * pb.GetMinReq r))
    (λ _, 0)
    (λ _, inl 5%N)
    (λ _ _ _, inl (demo_limits, 9%N))
    (demo_net dial download demo_data)
    demo_fec
    (λ b, reverse b)
    order order order order order.

Definition no_fault (i : Z) : option error := None.

(** Piece 0 is not found on its node, the others are served. *)
Definition fault_not_found_0 (i : Z) : option error :=
  if i =? 0 then Some err_not_found else None.

(** Piece 0 is not found, piece 1 times out during the download. *)
Definition fault_two (i : Z) : option error :=
  if i =? 0 then Some err_not_found
  else if i =? 1 then Some err_download_timeout else None.

(** Piece 1 times out during the download. *)
Definition fault_timeout_1 (i : Z) : option error :=
  if i =? 1 then Some err_download_timeout else None.

Definition plain_verifier : Verifier := mkVerifier None false.
Definition piece_hashes_verifier : Verifier := mkVerifier None true.

(** The shares [DownloadShares] delivers in the demo network. *)
Definition demo_shares (dial download : Z → option error) (arrival : Shuffle)
    : gmap Z Share :=
  match DownloadShares (demo_net dial download demo_data) arrival demo_limits 9%N 0 4 with
  | Some (shares, _) => shares
  | None => ∅
  end.

(** ** The scenarios of the examples *)

(** The demo segment, unaltered during the audit, with the given flag
    PieceHashesVerified; [download] gives the faults of the downloads. *)
Definition audit_env (verified : bool) (download : Z → option error)
    (order : Shuffle) : Env :=
  demo_env (demo_pointer verified 100 0) (inl ([x01], demo_pointer verified 100 0))
    None no_fault download order.

(** The demo pointer, expired at time 5 (the clock shows 1000), in a
    store whose delete fails. *)
Definition expired_env : Env :=
  demo_env (demo_pointer true 100 5) (inr err_object_not_found)
    (Some err_store) no_fault no_fault id_shuffle.



(** The world of a call of [VerifyPieceHashes] on the demo segment, its
    flag PieceHashesVerified false: every pass reads the same pointer and
    audits the same nodes, with the faults [download]; the update of pass
    [n] ends as [update n]. *)
Definition demo_penv (download : Z → option error) (update : nat → option error)
    : PieceHashesEnv :=
  mkPieceHashesEnv
    (λ _ _, inl ([x01], demo_pointer false 100 0))
    (λ _, audit_env false download id_shuffle)
    (λ n _ _ _, update n).

(** The store changes under the two first updates and would accept the
    third. *)
Definition update_races_twice (n : nat) : option error :=
  match n with
  | O | 1%nat => Some err_value_changed
  | _ => None
  end.

(** ** [Reverify] *)

(** The error classes of the overlay and of the containment store that
    [Reverify] tests. *)
Definition ErrContainedNotFound : errs.Class := errs.Foreign 100.
Definition ErrNodeDisqualified : errs.Class := errs.Foreign 101.
Definition ErrNodeFinishedGE : errs.Class := errs.Foreign 102.
Definition ErrNodeOffline : errs.Class := errs.Foreign 103.

Module status.
(** The result status enum of [Reverify]. *)
Inductive Status :=
| skipped | success | offline | failed | contained | unknown | erred.

#[global] Instance Status_eq_dec : EqDecision Status.
Proof. solve_decision. Defined.
End status.

(** [result], what a piece sends on the channel of [Reverify]. *)
Record result := mkResult {
  result_nodeID : NodeID;
  result_status : status.Status;
  result_pendingAudit : option PendingAudit;
  result_err : option error
}.

(** The calls [Reverify] makes that change the containment store or the
    metainfo store. *)
Inductive ReverifyCall :=
| ContainmentDelete (id : NodeID)
| MetainfoDelete (key : Path) (pointerBytes : bytes).

(** The world around the piece at one index of the pointer [Reverify]
    works on: the outcome of each call made for it. *)
Record ReverifyTask := mkReverifyTask {
  (* containment.Get(piece.NodeId), in the loop over the pieces *)
  rv_containment_Get : NodeID → PendingAudit + error;
  (* metainfo.GetWithBytes(pending.Path) *)
  rv_GetWithBytes : Path → (bytes * pb.Pointer) + error;
  rv_Now : Time;
  rv_metainfo_Delete : Path → bytes → option error;
  (* metabase.ParseSegmentKey followed by Bucket() *)
  rv_ParseSegmentKey : Path → N + error;
  (* orders.CreateAuditOrderLimit(bucket, nodeID, pieceNum, pieceID, shareSize) *)
  rv_CreateAuditOrderLimit :
    N → NodeID → Z → PieceID → Z → (pb.AddressedOrderLimit * N) + error;
  rv_net : Network;
  (* containment.Get(pending.NodeID), after the download *)
  rv_containment_Get_again : NodeID → PendingAudit + error;
  (* metainfo.GetWithBytes in checkIfSegmentAltered *)
  rv_refetch : Path → (bytes * pb.Pointer) + error
}.

(** The world around one call of [Reverify]. *)
Record ReverifyEnv := mkReverifyEnv {
  rve_GetWithBytes : Path → (bytes * pb.Pointer) + error;
  rve_Now : Time;
  rve_metainfo_Delete : Path → bytes → option error;
  rve_task : nat → ReverifyTask;
  rve_SHA256Hash : bytes → bytes;
  (* the order in which the results arrive on the channel *)
  rve_arrival : Shuffle;
  (* the order in which the tasks write to the pieceHashesVerified map *)
  rve_writes : Shuffle
}.

(** What the work for one piece leaves: the result on the channel, the
    entry written to the pieceHashesVerified map, if any, and the calls
    made. *)
Record TaskOutcome := mkTaskOutcome {
  task_result : result;
  task_write : option (NodeID * bool);
  task_calls : list ReverifyCall
}.

(** The search of [Reverify] for the piece number of the node in the
    pointer of the pending audit: the last piece of the node counts. *)
Definition find_pieceNum (pieces : list pb.RemotePiece) (id : NodeID) : Z * bool :=
  foldl (λ '(pieceNum, found) piece,
           if bool_decide (pb.NodeId piece = id) then (pb.PieceNum piece, true)
           else (pieceNum, found))
        (0, false) pieces.

(** How [Reverify] reads the error of [GetShare], once the pending audit
    is known to be still there.  [altered] is the result of
    [checkIfSegmentAltered] on the pointer of the pending audit. *)
Definition Reverify_analyze (pending : PendingAudit) (altered : option error)
    (err : error) : result :=
  let id := PA_NodeID pending in
  if errs.Has errs.RPCError err then
    if errs.IsDeadlineExceeded err then
      (* dial timeout *)
      mkResult id status.offline None None
    else if errs.IsRPC err rpcstatus.Unknown then
      (* dial failed -- offline node *)
      mkResult id status.offline None None
    else
      (* unknown transport error *)
      mkResult id status.unknown (Some pending) None
  else if errs.IsRPC err rpcstatus.NotFound then
    match altered with
    | Some _ => mkResult id status.skipped None None
    | None => mkResult id status.failed None None (* missing share *)
    end
  else if errs.IsRPC err rpcstatus.DeadlineExceeded then
    (* dial successful, but download timed out *)
    mkResult id status.contained (Some pending) None
  else
    (* unknown error *)
    mkResult id status.unknown (Some pending) None.

(** The task [Reverify] starts for a pending audit. *)
Definition Reverify_task (sha256 : bytes → bytes) (t : ReverifyTask)
    (pending : PendingAudit) : option TaskOutcome :=
  let id := PA_NodeID pending in
  match rv_GetWithBytes t (PA_Path pending) with
  | inr err =>
      if errs.Has errs.ErrObjectNotFound err
      then Some (mkTaskOutcome (mkResult id status.skipped None None) None [])
      else Some (mkTaskOutcome (mkResult id status.erred None (Some err)) None [])
  | inl (pendingPointerBytes, pendingPointer) =>
  if bool_decide (pb.ExpirationDate pendingPointer ≠ 0)
     && (pb.ExpirationDate pendingPointer <? rv_Now t)
  then
    (* the error of the delete is only logged *)
    Some (mkTaskOutcome (mkResult id status.skipped None None) None
            [MetainfoDelete (PA_Path pending) pendingPointerBytes])
  else
  (* set whether piece hashes have been verified for this segment *)
  let write := Some (id, pb.PieceHashesVerified pendingPointer) in
  match pb.Remote pendingPointer with
  | None => None
  | Some remote =>
  if bool_decide (pb.RootPieceId remote ≠ PA_PieceID pending)
  then Some (mkTaskOutcome (mkResult id status.skipped None None) write [])
  else
  let '(pieceNum, found) := find_pieceNum (pb.RemotePieces remote) id in
  if negb found
  then Some (mkTaskOutcome (mkResult id status.skipped None None) write [])
  else
  match rv_ParseSegmentKey t (PA_Path pending) with
  | inr _ => Some (mkTaskOutcome (mkResult id status.skipped None None) write [])
  | inl bucket =>
  match rv_CreateAuditOrderLimit t bucket id pieceNum (PA_PieceID pending)
          (PA_ShareSize pending) with
  | inr err =>
      if errs.Has ErrNodeDisqualified err then
        Some (mkTaskOutcome (mkResult id status.erred None (Some err)) write
                [ContainmentDelete id])
      else if errs.Has ErrNodeFinishedGE err then
        Some (mkTaskOutcome (mkResult id status.erred None (Some err)) write
                [ContainmentDelete id])
      else if errs.Has ErrNodeOffline err then
        Some (mkTaskOutcome (mkResult id status.offline None None) write [])
      else
        Some (mkTaskOutcome (mkResult id status.erred None (Some err)) write [])
  | inl (limit, piecePrivateKey) =>
  match GetShare (rv_net t) limit piecePrivateKey (PA_StripeIndex pending)
          (PA_ShareSize pending) pieceNum with
  | None => None
  | Some (share, err) =>
  (* check if the pending audit was deleted while downloading the share *)
  match rv_containment_Get_again t id with
  | inr getErr =>
      if errs.Has ErrContainedNotFound getErr
      then Some (mkTaskOutcome (mkResult id status.skipped None None) write [])
      else Some (mkTaskOutcome (mkResult id status.erred None (Some getErr)) write [])
  | inl _ =>
  let altered :=
    checkIfSegmentAltered (rv_refetch t (PA_Path pending)) (PA_Path pending)
      (Some pendingPointer) pendingPointerBytes in
  match err with
  | Some err =>
      (* analyze the error from GetShare *)
      Some (mkTaskOutcome (Reverify_analyze pending altered err) write [])
  | None =>
      let downloadedHash := sha256 (Share_Data share) in
      if bytes_Equal downloadedHash (PA_ExpectedShareHash pending)
      then Some (mkTaskOutcome (mkResult id status.success None None) write [])
      else
        match altered with
        | Some _ =>
            Some (mkTaskOutcome (mkResult id status.skipped None None) write [])
        | None =>
            Some (mkTaskOutcome (mkResult id status.failed None None) write [])
        end
  end end end end end end end.

(** One pass through the first loop of [Reverify], for the piece at index
    [i]: the result is sent at once when the node has no pending audit or
    the containment store fails, and by the task otherwise. *)
Definition Reverify_piece (env : ReverifyEnv) (i : nat) (piece : pb.RemotePiece)
    : option TaskOutcome :=
  match rv_containment_Get (rve_task env i) (pb.NodeId piece) with
  | inr err =>
      if errs.Has ErrContainedNotFound err
      then Some (mkTaskOutcome
                   (mkResult (pb.NodeId piece) status.skipped None None) None [])
      else Some (mkTaskOutcome
                   (mkResult (pb.NodeId piece) status.erred None (Some err)) None [])
  | inl pending => Reverify_task (rve_SHA256Hash env) (rve_task env i) pending
  end.

(** The first loop of [Reverify] with the tasks it starts, over [pieces]
    from index [i] on. *)
Fixpoint Reverify_pieces (env : ReverifyEnv) (i : nat) (pieces : list pb.RemotePiece)
    : option (list TaskOutcome) :=
  match pieces with
  | [] => Some []
  | piece :: pieces =>
      match Reverify_piece env i piece with
      | None => None
      | Some outcome =>
          match Reverify_pieces env (S i) pieces with
          | None => None
          | Some outcomes => Some (outcome :: outcomes)
          end
      end
  end.

(** What the second loop of [Reverify] has gathered: the report, the
    error, and the calls it made. *)
Record Gathered := mkGathered {
  gathered_report : Report;
  gathered_err : option error;
  gathered_calls : list ReverifyCall
}.

(** One receive of the second loop of [Reverify].  A result with the
    status contained always carries its pending audit. *)
Definition Reverify_receive (g : Gathered) (r : result) : Gathered :=
  let report := gathered_report g in
  match result_status r with
  | status.success =>
      mkGathered
        (mkReport (Successes report ++ [result_nodeID r]) (Fails report)
           (Offlines report) (PendingAudits report) (Unknown report))
        (gathered_err g) (gathered_calls g)
  | status.offline =>
      mkGathered
        (mkReport (Successes report) (Fails report)
           (Offlines report ++ [result_nodeID r]) (PendingAudits report)
           (Unknown report))
        (gathered_err g) (gathered_calls g)
  | status.failed =>
      mkGathered
        (mkReport (Successes report) (Fails report ++ [result_nodeID r])
           (Offlines report) (PendingAudits report) (Unknown report))
        (gathered_err g) (gathered_calls g)
  | status.contained =>
      match result_pendingAudit r with
      | Some pending =>
          mkGathered
            (mkReport (Successes report) (Fails report) (Offlines report)
               (PendingAudits report ++ [pending]) (Unknown report))
            (gathered_err g) (gathered_calls g)
      | None => g
      end
  | status.unknown =>
      mkGathered
        (mkReport (Successes report) (Fails report) (Offlines report)
           (PendingAudits report) (Unknown report ++ [result_nodeID r]))
        (gathered_err g) (gathered_calls g)
  | status.skipped =>
      mkGathered report (gathered_err g)
        (gathered_calls g ++ [ContainmentDelete (result_nodeID r)])
  | status.erred =>
      mkGathered report (errs.Combine (gathered_err g) (result_err r))
        (gathered_calls g)
  end.

(** [pieceHashesVerified[id]]: false for a missing key. *)
Definition hashes_verified (m : gmap NodeID bool) (id : NodeID) : bool :=
  default false (m !! id).

(** The deferred function of [Reverify]: for each node in Fails and
    PendingAudits, remove if piece hashes not verified for that segment,
    and remove the node from containment. *)
Definition Reverify_deferred (m : gmap NodeID bool) (report : Report)
    : Report * list ReverifyCall :=
  let newFails := filter (λ id, hashes_verified m id = true) (Fails report) in
  let newPendingAudits :=
    filter (λ pending, hashes_verified m (PA_NodeID pending) = true)
           (PendingAudits report) in
  (mkReport (Successes report) newFails (Offlines report) newPendingAudits
     (Unknown report),
   (ContainmentDelete <$>
      filter (λ id, hashes_verified m id = false) (Fails report))
   ++ (ContainmentDelete <$>
         filter (λ id, hashes_verified m id = false)
                (PA_NodeID <$> PendingAudits report))).

(** The second loop of [Reverify], on the results in the order of their
    arrival. *)
Definition Reverify_gather (env : ReverifyEnv) (outcomes : list TaskOutcome)
    : Gathered :=
  foldl Reverify_receive (mkGathered Report_zero None [])
    (shuffle (rve_arrival env) _ (task_result <$> outcomes)).

(** The pieceHashesVerified map once all tasks have written to it. *)
Definition Reverify_written (env : ReverifyEnv) (outcomes : list TaskOutcome)
    : gmap NodeID bool :=
  foldl (λ m '(id, verified), <[id := verified]> m) ∅
    (shuffle (rve_writes env) _ (omap task_write outcomes)).

(** [Reverify] reverifies the contained nodes in the stripe.  The result
    is the report, the error, and the calls made to change the
    containment store or the metainfo store: those of the tasks, then
    those of the second loop, then those of the deferred function (tasks
    and second loop run side by side, so that their calls may come in
    another order). *)
Definition Reverify (env : ReverifyEnv) (path : Path)
    : option (Report * option error * list ReverifyCall) :=
  match rve_GetWithBytes env path with
  | inr err =>
      if errs.Has errs.ErrObjectNotFound err then Some (Report_zero, None, [])
      else Some (Report_zero, Some err, [])
  | inl (pointerBytes, pointer) =>
      if bool_decide (pb.ExpirationDate pointer ≠ 0)
         && (pb.ExpirationDate pointer <? rve_Now env)
      then
        match rve_metainfo_Delete env path pointerBytes with
        | Some errDelete =>
            Some (Report_zero, Some (errs.Wrap errs.Error errDelete),
                  [MetainfoDelete path pointerBytes])
        | None => Some (Report_zero, None, [MetainfoDelete path pointerBytes])
        end
      else
        let pieces := pb.GetRemotePieces (pb.Remote pointer) in
        match Reverify_pieces env 0 pieces with
        | None => None
        | Some outcomes =>
            let g := Reverify_gather env outcomes in
            let '(report, deferred_calls) :=
              Reverify_deferred (Reverify_written env outcomes) (gathered_report g) in
            Some (report, gathered_err g,
                  concat (task_calls <$> outcomes) ++ gathered_calls g
                  ++ deferred_calls)
        end
  end.

(** ** A reverification to run the model on

    The demo segment, with a pending audit for each of the nodes 10, 11
    and 13 and none for node 12: node 10 serves the share whose hash was
    committed, node 11 serves another one, the download from node 13
    times out. *)

Definition err_contained_not_found : error :=
  errs.mkError [ErrContainedNotFound] (errs.MsgOpaque 10%N) false rpcstatus.Unknown.

(** The pending audit of node [id]; the committed hash is the one of the
    first share of the demo network. *)
Definition demo_pending (id : NodeID) : PendingAudit :=
  mkPendingAudit id 77%N 0 4 [x04; x03; x02; x01] demo_path.

(** The world around the piece at index [i]: the pointer of the pending
    audit is the demo pointer with the flag [verified], and every node
    serves what node 10 holds, but for node 11. *)
Definition demo_task (verified : bool) (i : nat) : ReverifyTask :=
  mkReverifyTask
    (λ id, match i with
           | 2%nat => inr err_contained_not_found
           | _ => inl (demo_pending id)
           end)
    (λ _, inl ([x01], demo_pointer verified 100 0))
    1000
    (λ _ _, None)
    (λ _, inl 5%N)
    (λ _ id _ _ _, inl (pb.mkAddressedOrderLimit id "node", 9%N))
    (demo_net no_fault
       (λ z, if z =? 3 then Some err_download_timeout else None)
       (λ z, if z =? 1 then [x05; x06; x07; x08] else [x01; x02; x03; x04]))
    (λ id, inl (demo_pending id))
    (λ _, inl ([x01], demo_pointer verified 100 0)).

Definition demo_renv (verified : bool) (order : Shuffle) : ReverifyEnv :=
  mkReverifyEnv
    (λ _, inl ([x01], demo_pointer true 100 0))
    1000
    (λ _ _, None)
    (demo_task verified)
    (λ b, reverse b)
    order order.

(** The same reverification, of a segment that expired at time 50. *)
Definition expired_renv : ReverifyEnv :=
  mkReverifyEnv
    (λ _, inl ([x01], demo_pointer true 100 50))
    1000
    (λ _ _, None)
    (demo_task true)
    (λ b, reverse b)
    id_shuffle id_shuffle.

(** The world of a call of [VerifyPieceHashes] on the demo segment, its
    flag PieceHashesVerified false, expired at time 5 (the clock shows
    1000): the store accepts the delete. *)
Definition expired_penv : PieceHashesEnv :=
  mkPieceHashesEnv
    (λ _ _, inl ([x01], demo_pointer false 100 5))
    (λ _, demo_env (demo_pointer false 100 5) (inr err_object_not_found) None
            no_fault no_fault id_shuffle)
    (λ _ _ _ _, None).

(** * Properties *)

Ltac solve_Live :=
  split;
  [ reflexivity
  | intros [Hset Hpast];
    first [ apply Hset; reflexivity | vm_compute in Hpast; discriminate Hpast ] ].

Ltac solve_Downloaded :=
  split; [solve_Live|]; split; [reflexivity|];
  eexists _, _; split; [reflexivity|]; split; reflexivity.

Lemma Verify_Live verifier env path skip pointerBytes pointer :
  Live env path pointerBytes pointer →
  Verify verifier env path skip =
    match Verify_audit env path skip pointerBytes pointer with
    | None => None
    | Some (report, err) => Some (Verify_deferred verifier pointer report, err, [])
    end.
Proof.
  intros [Hget Hlive]. unfold Verify. rewrite Hget.
  destruct (bool_decide _ && _) eqn:Hexp; [|done].
  exfalso. apply Hlive. apply andb_prop in Hexp as [H1 H2].
  apply bool_decide_eq_true in H1. apply Z.ltb_lt in H2. done.
Qed.



(** ** Expired pointers (C7) *)

(** C7, as the code has it.  For a pointer whose ExpirationDate is set
    and in the past, [Verify] asks the metainfo store to delete the
    pointer and returns an empty report; the error is nil when the delete
    succeeded, and the delete's error wrapped in the audit error class
    when it failed. *)
Theorem Verify_expired_pointer verifier env path skip pointerBytes pointer :
  metainfo_GetWithBytes env 0%nat path = inl (pointerBytes, pointer) →
  pb.ExpirationDate pointer ≠ 0 →
  pb.ExpirationDate pointer < time_Now env →
  Verify verifier env path skip =
    Some (Report_zero,
          errs.Wrap errs.Error <$> metainfo_Delete env path pointerBytes,
          [CallDelete path pointerBytes]).
Proof.
  intros Hget Hset Hpast. unfold Verify. rewrite Hget.
  rewrite bool_decide_eq_true_2 by done.
  apply Z.ltb_lt in Hpast. rewrite Hpast. simpl.
  destruct (metainfo_Delete env path pointerBytes); done.
Qed.

Lemma Verify_expired_pointer_witness :
  Verify plain_verifier expired_env demo_path ∅ =
    Some (Report_zero, Some (errs.Wrap errs.Error err_store),
          [CallDelete demo_path [x01]]).
Proof.
  apply (Verify_expired_pointer plain_verifier expired_env demo_path ∅ [x01]
           (demo_pointer true 100 5)); [reflexivity | done | reflexivity].
Defined.

(** C7 as stated fails: the pointer is expired, the delete fails, and
    [Verify] returns an error that is not nil. *)
Lemma Verify_expired_delete_fails :
  metainfo_GetWithBytes expired_env 0%nat demo_path
    = inl ([x01], demo_pointer true 100 5)
  ∧ pb.ExpirationDate (demo_pointer true 100 5) ≠ 0
  ∧ pb.ExpirationDate (demo_pointer true 100 5) < time_Now expired_env
  ∧ ∃ err calls,
      Verify plain_verifier expired_env demo_path ∅ = Some (Report_zero, Some err, calls).
Proof.
  split; [reflexivity|]. split; [done|]. split; [reflexivity|].
  eexists _, _. vm_compute. reflexivity.
Qed.

(** ** The segment altered during the audit (C6) *)





(** ** The classification loop *)

Lemma classifyShares_fold order shares b :
  classifyShares order shares b = foldl classify_step b (go_range order shares).
Proof.
  unfold classifyShares. generalize (go_range order shares). intros l.
  revert b. induction l as [|[i sh] l IH]; intros b; simpl; [done|]. apply IH.
Qed.

Lemma elem_of_go_range {A} (order : Shuffle) (m : gmap Z A) i x :
  (i, x) ∈ go_range order m ↔ m !! i = Some x.
Proof.
  unfold go_range. rewrite (shuffle_perm order). apply elem_of_map_to_list.
Qed.

Lemma NoDup_go_range {A} (order : Shuffle) (m : gmap Z A) :
  NoDup (go_range order m).*1.
Proof.
  unfold go_range. rewrite (shuffle_perm order). apply NoDup_fst_map_to_list.
Qed.

(** The body of the loop, by the row of the table the share falls in. *)
Lemma classifyShare_table b pieceNum share :
  classifyShare b pieceNum share =
    match classification_table share with
    | ToAudit =>
        mkBuckets (offlineNodes b) (failedNodes b) (unknownNodes b)
          (containedNodes b) (<[pieceNum := share]> (sharesToAudit b))
    | Offline =>
        mkBuckets (offlineNodes b ++ [Share_NodeID share]) (failedNodes b)
          (unknownNodes b) (containedNodes b) (sharesToAudit b)
    | UnknownNode =>
        mkBuckets (offlineNodes b) (failedNodes b)
          (unknownNodes b ++ [Share_NodeID share]) (containedNodes b)
          (sharesToAudit b)
    | Failed =>
        mkBuckets (offlineNodes b) (failedNodes b ++ [Share_NodeID share])
          (unknownNodes b) (containedNodes b) (sharesToAudit b)
    | Contained =>
        mkBuckets (offlineNodes b) (failedNodes b) (unknownNodes b)
          (<[pieceNum := Share_NodeID share]> (containedNodes b)) (sharesToAudit b)
    end.
Proof.
  unfold classifyShare, classification_table.
  destruct (Share_Error share) as [err|]; [|done].
  destruct (errs.Has errs.RPCError err), (errs.IsDeadlineExceeded err),
    (errs.IsRPC err rpcstatus.Unknown), (errs.IsRPC err rpcstatus.NotFound),
    (errs.IsRPC err rpcstatus.DeadlineExceeded); done.
Qed.

Lemma nodes_in_cons bucket i share l :
  nodes_in bucket ((i, share) :: l) =
    if decide (classification_table share = bucket)
    then Share_NodeID share :: nodes_in bucket l else nodes_in bucket l.
Proof.
  unfold nodes_in. simpl. rewrite filter_cons. simpl. by case_decide.
Qed.

Lemma elem_of_nodes_in bucket l n :
  n ∈ nodes_in bucket l ↔
  ∃ i share, (i, share) ∈ l ∧ classification_table share = bucket
             ∧ Share_NodeID share = n.
Proof.
  unfold nodes_in. rewrite list_elem_of_fmap. split.
  - intros (share & -> & Hin). apply list_elem_of_filter in Hin as [Hb Hin].
    apply list_elem_of_fmap in Hin as ([i share'] & -> & Hin). by exists i, share'.
  - intros (i & share & Hin & Hb & <-). exists share. split; [done|].
    apply list_elem_of_filter. split; [done|].
    apply list_elem_of_fmap. by exists (i, share).
Qed.

Lemma classify_fold_lists l b :
  offlineNodes (foldl classify_step b l) = offlineNodes b ++ nodes_in Offline l
  ∧ failedNodes (foldl classify_step b l) = failedNodes b ++ nodes_in Failed l
  ∧ unknownNodes (foldl classify_step b l) = unknownNodes b ++ nodes_in UnknownNode l.
Proof.
  revert b. induction l as [|[i share] l IH]; intros b.
  - unfold nodes_in. simpl. by rewrite !app_nil_r.
  - simpl. destruct (IH (classify_step b (i, share))) as (IHo & IHf & IHu).
    rewrite IHo, IHf, IHu, !nodes_in_cons.
    unfold classify_step. simpl. rewrite classifyShare_table.
    destruct (classification_table share); simpl;
      repeat case_decide; try done; by rewrite <- ?app_assoc.
Qed.

Lemma classify_fold_maps_other l b i :
  i ∉ l.*1 →
  containedNodes (foldl classify_step b l) !! i = containedNodes b !! i
  ∧ sharesToAudit (foldl classify_step b l) !! i = sharesToAudit b !! i.
Proof.
  revert b. induction l as [|[j share] l IH]; intros b Hi; [done|].
  simpl in *. apply not_elem_of_cons in Hi as [Hij Hi].
  destruct (IH (classify_step b (j, share)) Hi) as [-> ->].
  unfold classify_step. simpl. rewrite classifyShare_table.
  destruct (classification_table share); simpl;
    by rewrite ?lookup_insert_ne.
Qed.

Lemma classify_fold_maps l b i share :
  NoDup l.*1 → (i, share) ∈ l →
  containedNodes (foldl classify_step b l) !! i =
    (if decide (classification_table share = Contained)
     then Some (Share_NodeID share) else containedNodes b !! i)
  ∧ sharesToAudit (foldl classify_step b l) !! i =
    (if decide (classification_table share = ToAudit)
     then Some share else sharesToAudit b !! i).
Proof.
  revert b. induction l as [|[j share'] l IH]; intros b Hnd Hin.
  - by apply elem_of_nil in Hin.
  - simpl in *. apply NoDup_cons in Hnd as [Hj Hnd].
    apply elem_of_cons in Hin as [Heq|Hin].
    + injection Heq as <- <-.
      destruct (classify_fold_maps_other l (classify_step b (i, share)) i Hj)
        as [-> ->].
      unfold classify_step. simpl. rewrite classifyShare_table.
      destruct (classification_table share); simpl;
        repeat case_decide; try done; by rewrite ?lookup_insert_eq.
    + assert (i ≠ j) as Hij.
      { intros ->. apply Hj. apply list_elem_of_fmap. by exists (j, share). }
      destruct (IH (classify_step b (j, share')) Hnd Hin) as [-> ->].
      unfold classify_step. simpl. rewrite classifyShare_table.
      destruct (classification_table share'); simpl;
        by rewrite ?lookup_insert_ne.
Qed.

(** What the loop of [Verify] leaves in each list and map. *)
Lemma classifyShares_spec order shares b :
  let b' := classifyShares order shares b in
  offlineNodes b' = offlineNodes b ++ nodes_in Offline (go_range order shares)
  ∧ failedNodes b' = failedNodes b ++ nodes_in Failed (go_range order shares)
  ∧ unknownNodes b' = unknownNodes b ++ nodes_in UnknownNode (go_range order shares)
  ∧ (∀ i, containedNodes b' !! i =
       match shares !! i with
       | Some share =>
           if decide (classification_table share = Contained)
           then Some (Share_NodeID share) else containedNodes b !! i
       | None => containedNodes b !! i
       end)
  ∧ (∀ i, sharesToAudit b' !! i =
       match shares !! i with
       | Some share =>
           if decide (classification_table share = ToAudit)
           then Some share else sharesToAudit b !! i
       | None => sharesToAudit b !! i
       end).
Proof.
  intros b'. subst b'. rewrite classifyShares_fold.
  destruct (classify_fold_lists (go_range order shares) b) as (Ho & Hf & Hu).
  split; [done|]. split; [done|]. split; [done|].
  assert (∀ i,
    containedNodes (foldl classify_step b (go_range order shares)) !! i =
      match shares !! i with
      | Some share =>
          if decide (classification_table share = Contained)
          then Some (Share_NodeID share) else containedNodes b !! i
      | None => containedNodes b !! i
      end
    ∧ sharesToAudit (foldl classify_step b (go_range order shares)) !! i =
      match shares !! i with
      | Some share =>
          if decide (classification_table share = ToAudit)
          then Some share else sharesToAudit b !! i
      | None => sharesToAudit b !! i
      end) as Hmaps.
  { intros i. destruct (shares !! i) as [share|] eqn:Hi.
    - apply classify_fold_maps; [apply NoDup_go_range|].
      by apply elem_of_go_range.
    - apply classify_fold_maps_other. intros Hin.
      apply list_elem_of_fmap in Hin as ([j share] & -> & Hin).
      apply elem_of_go_range in Hin. simpl in Hi. congruence. }
  split; intros i; apply Hmaps.
Qed.

(** The rows of the table on the errors of the demo network. *)
Example classification_table_rows :
  classification_table (mkShare None 0 10%N [x01]) = ToAudit
  ∧ classification_table (mkShare (Some err_dial_timeout) 0 10%N []) = Offline
  ∧ classification_table (mkShare (Some err_dial_failed) 0 10%N []) = Offline
  ∧ classification_table (mkShare (Some err_transport) 0 10%N []) = UnknownNode
  ∧ classification_table (mkShare (Some err_not_found) 0 10%N []) = Failed
  ∧ classification_table (mkShare (Some err_download_timeout) 0 10%N []) = Contained
  ∧ classification_table (mkShare (Some err_other) 0 10%N []) = UnknownNode.
Proof. repeat split. Qed.

(** A dial that times out: [GetShare] wraps the error, which stays a
    transport error, and the node is reported offline next to the node
    without order limit. *)
Example Verify_dial_timeout_offline :
  Verify plain_verifier
    (demo_env (demo_pointer true 100 0) (inl ([x01], demo_pointer true 100 0)) None
       (λ i, if i =? 0 then Some err_dial_timeout else None) no_fault id_shuffle)
    demo_path ∅
  = Some (mkReport [12%N; 11%N] [] [13%N; 10%N] [] [], None, []).
Proof. vm_compute. reflexivity. Qed.

(** The lists and maps of the classification loop of [Verify], whatever
    the order of the range: a share without error joins the shares to
    audit; a transport error that is a deadline-exceeded or has status
    Unknown puts the node in the offline list; another transport error
    puts it in the unknown list; an application NotFound puts it in the
    failed list; an application DeadlineExceeded puts it in the contained
    map under its piece number, and does not make the loop add it to the
    failed list; any other error puts it in the unknown list. *)
Lemma classifyShares_by_error order shares b pieceNum share :
  shares !! pieceNum = Some share →
  let b' := classifyShares order shares b in
  (Share_Error share = None → sharesToAudit b' !! pieceNum = Some share)
  ∧ (∀ err, Share_Error share = Some err →
       errs.Has errs.RPCError err = true →
       errs.IsDeadlineExceeded err = true ∨ errs.IsRPC err rpcstatus.Unknown = true →
       Share_NodeID share ∈ offlineNodes b')
  ∧ (∀ err, Share_Error share = Some err →
       errs.Has errs.RPCError err = true →
       errs.IsDeadlineExceeded err = false →
       errs.IsRPC err rpcstatus.Unknown = false →
       Share_NodeID share ∈ unknownNodes b')
  ∧ (∀ err, Share_Error share = Some err →
       errs.Has errs.RPCError err = false →
       errs.IsRPC err rpcstatus.NotFound = true →
       Share_NodeID share ∈ failedNodes b')
  ∧ (∀ err, Share_Error share = Some err →
       errs.Has errs.RPCError err = false →
       errs.IsRPC err rpcstatus.DeadlineExceeded = true →
       containedNodes b' !! pieceNum = Some (Share_NodeID share)
       ∧ (Share_NodeID share ∈ failedNodes b' →
          Share_NodeID share ∈ failedNodes b
          ∨ ∃ j share', j ≠ pieceNum ∧ shares !! j = Some share'
                        ∧ Share_NodeID share' = Share_NodeID share))
  ∧ (∀ err, Share_Error share = Some err →
       errs.Has errs.RPCError err = false →
       errs.IsRPC err rpcstatus.NotFound = false →
       errs.IsRPC err rpcstatus.DeadlineExceeded = false →
       Share_NodeID share ∈ unknownNodes b').
Proof.
  intros Hshare b'.
  destruct (classifyShares_spec order shares b)
    as (Ho & Hf & Hu & Hc & Ha).
  fold b' in Ho, Hf, Hu, Hc, Ha.
  assert (∀ bucket, classification_table share = bucket →
            Share_NodeID share ∈ nodes_in bucket (go_range order shares)) as Hin.
  { intros bucket Hb. apply elem_of_nodes_in. exists pieceNum, share.
    split; [by apply elem_of_go_range|done]. }
  split; [|split; [|split; [|split; [|split]]]].
  - intros Herr. rewrite Ha, Hshare.
    unfold classification_table. rewrite Herr. by case_decide.
  - intros err Herr Hrpc Hoff. rewrite Ho. apply elem_of_app. right.
    apply Hin. unfold classification_table. rewrite Herr, Hrpc. simpl.
    destruct (errs.IsDeadlineExceeded err); [done|].
    destruct Hoff as [? | ->]; done.
  - intros err Herr Hrpc Hdl Hunk. rewrite Hu. apply elem_of_app. right.
    apply Hin. unfold classification_table. rewrite Herr, Hrpc, Hdl, Hunk. done.
  - intros err Herr Hrpc Hnf. rewrite Hf. apply elem_of_app. right.
    apply Hin. unfold classification_table. rewrite Herr, Hrpc, Hnf. done.
  - intros err Herr Hrpc Hdl.
    assert (errs.IsRPC err rpcstatus.NotFound = false) as Hnf.
    { unfold errs.IsRPC in *. apply bool_decide_eq_true in Hdl.
      apply bool_decide_eq_false. congruence. }
    assert (classification_table share = Contained) as Htable.
    { unfold classification_table. rewrite Herr, Hrpc, Hnf, Hdl. done. }
    split.
    + rewrite Hc, Hshare. by case_decide.
    + rewrite Hf. intros Hfail. apply elem_of_app in Hfail as [?|Hfail]; [by left|].
      right. apply elem_of_nodes_in in Hfail as (j & share' & Hj & Hb & Hn).
      apply elem_of_go_range in Hj. exists j, share'.
      split; [|done]. intros ->. congruence.
  - intros err Herr Hrpc Hnf Hdl. rewrite Hu. apply elem_of_app. right.
    apply Hin. unfold classification_table. rewrite Herr, Hrpc, Hnf, Hdl. done.
Qed.

(** ** Piece hashes not verified (C2) *)

(** C2, as the code has it.  When the verifier is not used to verify
    piece hashes ([UsedToVerifyPieceHashes] is false) and the pointer read
    by [Verify] has PieceHashesVerified false, every report [Verify]
    returns, with or without an error, has empty Fails and empty
    PendingAudits; Successes, Offlines and Unknown are those the audit
    computed. *)
Theorem Verify_hashes_unverified verifier env path skip pointerBytes pointer
    report err calls :
  UsedToVerifyPieceHashes verifier = false →
  metainfo_GetWithBytes env 0%nat path = inl (pointerBytes, pointer) →
  pb.PieceHashesVerified pointer = false →
  Verify verifier env path skip = Some (report, err, calls) →
  Fails report = [] ∧ PendingAudits report = []
  ∧ (Live env path pointerBytes pointer →
     ∃ audited,
       Verify_audit env path skip pointerBytes pointer = Some (audited, err)
       ∧ Successes report = Successes audited
       ∧ Offlines report = Offlines audited
       ∧ Unknown report = Unknown audited).
Proof.
  intros Hused Hget Hflag Hverify.
  assert (∀ audited, Verify_deferred verifier pointer audited =
            mkReport (Successes audited) [] (Offlines audited) [] (Unknown audited))
    as Hdeferred.
  { intros audited. unfold Verify_deferred. by rewrite Hused, Hflag. }
  unfold Verify in Hverify. rewrite Hget in Hverify.
  destruct (bool_decide _ && _) eqn:Hexp.
  - assert (report = Report_zero) as ->.
    { destruct (metainfo_Delete env path pointerBytes); congruence. }
    split; [done|]. split; [done|].
    intros [_ Hlive]. exfalso. apply Hlive.
    apply andb_prop in Hexp as [H1 H2].
    apply bool_decide_eq_true in H1. apply Z.ltb_lt in H2. done.
  - destruct (Verify_audit env path skip pointerBytes pointer)
      as [[audited err']|] eqn:Haudit; [|done].
    injection Hverify as <- <- <-. rewrite Hdeferred. simpl.
    split; [done|]. split; [done|]. intros _. by exists audited.
Qed.

Lemma Verify_hashes_unverified_witness :
  Verify plain_verifier (audit_env false fault_two id_shuffle) demo_path ∅
    = Some (mkReport [] [] [13%N] [] [],
            Some (errs.New errs.ErrNotEnoughShares (errs.MsgGotRequired 1 2)), [])
  ∧ Fails (mkReport [] [] [13%N] [] []) = []
  ∧ PendingAudits (mkReport [] [] [13%N] [] []) = [].
Proof.
  assert (Verify plain_verifier (audit_env false fault_two id_shuffle) demo_path ∅
          = Some (mkReport [] [] [13%N] [] [],
                  Some (errs.New errs.ErrNotEnoughShares (errs.MsgGotRequired 1 2)), []))
    as Hverify by (vm_compute; reflexivity).
  split; [exact Hverify|].
  destruct (Verify_hashes_unverified plain_verifier
              (audit_env false fault_two id_shuffle) demo_path ∅ [x01]
              (demo_pointer false 100 0) _ _ _ eq_refl eq_refl eq_refl Hverify)
    as (Hfails & Hpending & _).
  split; assumption.
Defined.

(** C2 as stated fails: with [UsedToVerifyPieceHashes] set, the report for
    a pointer whose PieceHashesVerified is false keeps the failed node. *)
Lemma Verify_hashes_unverified_keeps_fails :
  metainfo_GetWithBytes (audit_env false fault_not_found_0 id_shuffle) 0%nat demo_path
    = inl ([x01], demo_pointer false 100 0)
  ∧ pb.PieceHashesVerified (demo_pointer false 100 0) = false
  ∧ Verify piece_hashes_verifier (audit_env false fault_not_found_0 id_shuffle)
      demo_path ∅
    = Some (mkReport [12%N; 11%N] [10%N] [13%N] [] [], None, []).
Proof. split; [reflexivity|]. split; [reflexivity|]. vm_compute. reflexivity. Qed.

(** ** Not enough shares (C5) *)

(** The shares to audit are the downloaded shares without error. *)
Lemma sharesToAudit_classifyShares order shares offline :
  sharesToAudit (classifyShares order shares (mkBuckets offline [] [] ∅ ∅))
  = filter (λ entry, Share_Error entry.2 = None) shares.
Proof.
  destruct (classifyShares_spec order shares (mkBuckets offline [] [] ∅ ∅))
    as (_ & _ & _ & _ & Ha).
  apply map_eq. intros i. rewrite Ha. simpl. rewrite lookup_empty.
  destruct (shares !! i) as [share|] eqn:Hi.
  - unfold classification_table. destruct (Share_Error share) as [err|] eqn:Herr.
    + rewrite decide_False.
      * symmetry. apply map_lookup_filter_None. right. intros share' Hi'.
        simpl. congruence.
      * destruct (errs.Has errs.RPCError err), (errs.IsDeadlineExceeded err),
          (errs.IsRPC err rpcstatus.Unknown), (errs.IsRPC err rpcstatus.NotFound),
          (errs.IsRPC err rpcstatus.DeadlineExceeded); done.
    + rewrite decide_True by done. symmetry.
      by apply map_lookup_filter_Some.
  - symmetry. apply map_lookup_filter_None. by left.
Qed.

Lemma Verify_audit_Classified env path skip pointerBytes pointer randomIndex
    orderLimits shares b remote :
  Classified env path skip pointerBytes pointer randomIndex orderLimits shares b →
  pb.Remote pointer = Some remote →
  Verify_audit env path skip pointerBytes pointer =
    let required := pb.GetMinReq (pb.Redundancy remote) in
    let total := pb.GetTotal (pb.Redundancy remote) in
    if Z.of_nat (size (sharesToAudit b)) <? required then
      Some (mkReport [] (failedNodes b) (offlineNodes b) [] (unknownNodes b),
            Some (errs.New errs.ErrNotEnoughShares
                    (errs.MsgGotRequired (Z.of_nat (size (sharesToAudit b))) required)))
    else
    match auditShares (fec env) (order_copies env) required total (sharesToAudit b) with
    | inr err =>
        Some (mkReport [] (failedNodes b) (offlineNodes b) [] (unknownNodes b), Some err)
    | inl (pieceNums, correctedShares) =>
    let failedNodes1 :=
      failedNodes b
      ++ ((λ pieceNum, Share_NodeID (share_at shares pieceNum)) <$> pieceNums) in
    let successNodes :=
      getSuccessNodes (order_success env) shares failedNodes1 (offlineNodes b)
        (unknownNodes b) (containedNodes b) in
    match createPendingAudits (fec env) (pkcrypto_SHA256Hash env) (order_pending env)
            (containedNodes b) correctedShares pointer randomIndex path with
    | None => None
    | Some (_, Some err) =>
        Some (mkReport successNodes failedNodes1 (offlineNodes b) [] (unknownNodes b),
              Some err)
    | Some (pendingAudits, None) =>
        Some (mkReport successNodes failedNodes1 (offlineNodes b) pendingAudits
                (unknownNodes b), None)
    end end.
Proof.
  intros ((_ & Hstripe & bucket & key & Hparse & Hlimits & Hdl) & Halt & ->) Hremote.
  unfold Verify_audit.
  rewrite Hstripe, Hparse, Hlimits, Hdl, Halt, Hremote. done.
Qed.

(** C5, as the code has it.  When the classification loop is reached and
    fewer shares than the required number were downloaded without error,
    [Verify] returns an error of the class ErrNotEnoughShares and a report
    whose Successes and PendingAudits are empty, whose Offlines and Unknown
    are the lists classified so far, and whose Fails is the list
    classified so far, emptied by the deferred function when the pointer's
    PieceHashesVerified is false and the verifier is not used to verify
    piece hashes. *)
Theorem Verify_not_enough_shares verifier env path skip pointerBytes pointer
    randomIndex orderLimits shares b remote :
  Classified env path skip pointerBytes pointer randomIndex orderLimits shares b →
  pb.Remote pointer = Some remote →
  Z.of_nat (size (filter (λ entry, Share_Error entry.2 = None) shares))
    < pb.GetMinReq (pb.Redundancy remote) →
  ∃ report err,
    Verify verifier env path skip = Some (report, Some err, [])
    ∧ errs.Has errs.ErrNotEnoughShares err = true
    ∧ Successes report = [] ∧ PendingAudits report = []
    ∧ Offlines report = offlineNodes b ∧ Unknown report = unknownNodes b
    ∧ Fails report =
        (if UsedToVerifyPieceHashes verifier || pb.PieceHashesVerified pointer
         then failedNodes b else []).
Proof.
  intros Hclassified Hremote Hfew.
  pose proof Hclassified as ((Hlive & _) & _ & Hb).
  rewrite (Verify_Live _ _ _ _ _ _ Hlive).
  rewrite (Verify_audit_Classified _ _ _ _ _ _ _ _ _ _ Hclassified Hremote).
  assert (sharesToAudit b = filter (λ entry, Share_Error entry.2 = None) shares)
    as Hfilter by (rewrite Hb; apply sharesToAudit_classifyShares).
  simpl. rewrite Hfilter.
  apply Z.ltb_lt in Hfew. rewrite Hfew.
  eexists _, _. split; [reflexivity|]. split; [done|].
  unfold Verify_deferred.
  destruct (UsedToVerifyPieceHashes verifier), (pb.PieceHashesVerified pointer);
    simpl; done.
Qed.

Lemma short_env_Classified verified :
  Classified (audit_env verified fault_two id_shuffle) demo_path ∅ [x01]
    (demo_pointer verified 100 0) 0 demo_limits
    (demo_shares no_fault fault_two id_shuffle)
    (classifyShares id_shuffle (demo_shares no_fault fault_two id_shuffle)
       (mkBuckets [13%N] [] [] ∅ ∅)).
Proof.
  split; [solve_Downloaded|]. split; [|reflexivity].
  destruct verified; reflexivity.
Qed.

Lemma Verify_not_enough_shares_witness :
  ∃ report err,
    Verify plain_verifier (audit_env true fault_two id_shuffle) demo_path ∅
      = Some (report, Some err, [])
    ∧ errs.Has errs.ErrNotEnoughShares err = true
    ∧ Successes report = [] ∧ PendingAudits report = []
    ∧ Offlines report = [13%N] ∧ Unknown report = []
    ∧ Fails report = [10%N].
Proof.
  apply (Verify_not_enough_shares plain_verifier _ _ _ _ _ _ _ _ _
           (pb.mkRemoteSegment (Some demo_redundancy) 77%N demo_pieces)
           (short_env_Classified true)).
  - reflexivity.
  - vm_compute. reflexivity.
Defined.

(** C5 as stated fails: the loop has classified node 10 as failed, fewer
    shares than required came without error, and the report returned with
    ErrNotEnoughShares has no Fails, because the pointer's
    PieceHashesVerified is false. *)
Lemma Verify_not_enough_shares_drops_fails :
  failedNodes
    (classifyShares id_shuffle (demo_shares no_fault fault_two id_shuffle)
       (mkBuckets [13%N] [] [] ∅ ∅)) = [10%N]
  ∧ Z.of_nat (size (filter (λ entry, Share_Error entry.2 = None)
                      (demo_shares no_fault fault_two id_shuffle)))
    < pb.MinReq demo_redundancy
  ∧ Verify plain_verifier (audit_env false fault_two id_shuffle) demo_path ∅
    = Some (mkReport [] [] [13%N] [] [],
            Some (errs.New errs.ErrNotEnoughShares (errs.MsgGotRequired 1 2)), []).
Proof.
  split; [vm_compute; reflexivity|]. split; [vm_compute; reflexivity|].
  vm_compute. reflexivity.
Qed.

(** ** The retries of [VerifyPieceHashes] (C8) *)

(** The fuel given to the loop covers it: [VerifyPieceHashes] always
    returns or panics. *)
Lemma VerifyPieceHashes_loop_total fuel verifier penv path dryRun maxAttempts
    attempts n :
  (Z.to_nat (maxAttempts - attempts) < fuel)%nat →
  is_Some (VerifyPieceHashes_loop fuel verifier penv path dryRun maxAttempts attempts n).
Proof.
  revert attempts n. induction fuel as [|fuel IH]; intros attempts n Hfuel; [lia|].
  simpl. destruct (attempts <? maxAttempts) eqn:Hlt; [|done].
  apply Z.ltb_lt in Hlt.
  destruct (VerifyPieceHashes_attempt verifier penv path dryRun n)
    as [[[changed err|] calls]|]; [done| |done].
  destruct (IH (attempts + 1 + 1) (S n)) as [[[[changed err] calls']|] Hr];
    [lia| |]; rewrite Hr; done.
Qed.

Lemma VerifyPieceHashes_total verifier penv path dryRun :
  is_Some (VerifyPieceHashes verifier penv path dryRun).
Proof. apply VerifyPieceHashes_loop_total. simpl. lia. Qed.

(** C8, what the code does.  When the update of the first pass and the
    update of the second pass both fail with ValueChanged,
    [VerifyPieceHashes] stops there: it returns the error "Failed to
    modify segment pointer in 3 attempts." after two passes, whatever a
    third pass would have given. *)
Theorem VerifyPieceHashes_gives_up_after_two verifier penv path dryRun calls0 calls1 :
  VerifyPieceHashes_attempt verifier penv path dryRun 0 = Some (Continue, calls0) →
  VerifyPieceHashes_attempt verifier penv path dryRun 1 = Some (Continue, calls1) →
  VerifyPieceHashes verifier penv path dryRun =
    Some (Some (false,
                Some (errs.New errs.Error (errs.MsgFailedToModify 3)),
                calls0 ++ calls1)).
Proof.
  intros H0 H1. unfold VerifyPieceHashes. simpl.
  rewrite H0, H1. simpl. by rewrite app_nil_r.
Qed.

Lemma VerifyPieceHashes_gives_up_after_two_witness :
  vph_Update (demo_penv no_fault update_races_twice) 2 demo_path
    (demo_pointer false 100 0) [pb.mkRemotePiece 3 13%N] = None
  ∧ VerifyPieceHashes piece_hashes_verifier (demo_penv no_fault update_races_twice)
      demo_path false =
    Some (Some (false,
                Some (errs.New errs.Error (errs.MsgFailedToModify 3)),
                [CallUpdate demo_path (demo_pointer false 100 0) [pb.mkRemotePiece 3 13%N];
                 CallUpdate demo_path (demo_pointer false 100 0) [pb.mkRemotePiece 3 13%N]])).
Proof.
  split; [reflexivity|].
  apply (VerifyPieceHashes_gives_up_after_two piece_hashes_verifier
           (demo_penv no_fault update_races_twice) demo_path false
           [CallUpdate demo_path (demo_pointer false 100 0) [pb.mkRemotePiece 3 13%N]]
           [CallUpdate demo_path (demo_pointer false 100 0) [pb.mkRemotePiece 3 13%N]]);
    vm_compute; reflexivity.
Defined.

(** ** Too few successes in [VerifyPieceHashes] (C9) *)

(** [Verify] only ever asks the metainfo store for the delete of an
    expired pointer. *)
Lemma Verify_calls verifier env path skip report err calls :
  Verify verifier env path skip = Some (report, err, calls) →
  ∀ key pointer toRemove, CallUpdate key pointer toRemove ∉ calls.
Proof.
  unfold Verify. intros Hverify key pointer toRemove Hin.
  destruct (metainfo_GetWithBytes env 0%nat path) as [[pointerBytes pointer']|err0].
  - destruct (bool_decide _ && _).
    + destruct (metainfo_Delete env path pointerBytes);
        injection Hverify as <- <- <-;
        apply list_elem_of_singleton in Hin; discriminate Hin.
    + destruct (Verify_audit env path skip pointerBytes pointer') as [[report' err']|];
        [|done].
      injection Hverify as <- <- <-. by apply elem_of_nil in Hin.
  - destruct (errs.Has errs.ErrObjectNotFound err0);
      injection Hverify as <- <- <-; by apply elem_of_nil in Hin.
Qed.

Lemma VerifyPieceHashes_report_calls verifier penv path n report err calls :
  VerifyPieceHashes_report verifier penv path n = Some (report, err, calls) →
  ∀ key pointer toRemove, CallUpdate key pointer toRemove ∉ calls.
Proof.
  unfold VerifyPieceHashes_report.
  destruct (OnTestingVerifyMockFunc verifier) as [mock|].
  - destruct (mock n) as [report' err']. intros [= <- <- <-] key pointer toRemove Hin.
    by apply elem_of_nil in Hin.
  - apply Verify_calls.
Qed.

(** The one change [Verify] makes to the metainfo store is the delete of
    the pointer it found expired; its report is then empty. *)
Lemma Verify_calls_inv verifier env path skip report err calls :
  Verify verifier env path skip = Some (report, err, calls) →
  calls = []
  ∨ ∃ pointerBytes pointer,
      metainfo_GetWithBytes env 0%nat path = inl (pointerBytes, pointer)
      ∧ pb.ExpirationDate pointer ≠ 0
      ∧ pb.ExpirationDate pointer < time_Now env
      ∧ calls = [CallDelete path pointerBytes]
      ∧ report = Report_zero.
Proof.
  unfold Verify. intros Hverify.
  destruct (metainfo_GetWithBytes env 0%nat path) as [[pointerBytes pointer]|err0].
  - destruct (bool_decide (pb.ExpirationDate pointer ≠ 0)
              && (pb.ExpirationDate pointer <? time_Now env)) eqn:Hexpired.
    + right. exists pointerBytes, pointer.
      apply andb_prop in Hexpired as [Hne Hlt].
      apply bool_decide_eq_true in Hne. apply Z.ltb_lt in Hlt.
      destruct (metainfo_Delete env path pointerBytes);
        injection Hverify as <- <- <-; done.
    + destruct (Verify_audit env path skip pointerBytes pointer) as [[report' err']|];
        [|done].
      injection Hverify as <- <- <-. by left.
  - destruct (errs.Has errs.ErrObjectNotFound err0);
      injection Hverify as <- <- <-; by left.
Qed.

(** C9, as the code has it.  In any pass of the loop of
    [VerifyPieceHashes] that has read a remote pointer whose
    PieceHashesVerified is false, when the number of Successes of the
    audit report is zero, or below MinReq, or below the repair threshold,
    the pass returns false with the error of the audit: (false, nil) when
    the audit returned its report without error, and (false, err) when the
    audit returned the error err.  The loop returns the same from that
    pass on, and no update of the pointer is among the calls made.  The
    metainfo store is left as it is, except when [Verify] itself found
    the pointer expired: then the one call made is the delete of that
    pointer, and the report is empty. *)
Theorem VerifyPieceHashes_too_few_successes verifier penv path dryRun n
    pointerBytes pointer report err calls :
  vph_GetWithBytes penv n path = inl (pointerBytes, pointer) →
  pb.PieceHashesVerified pointer = false →
  pb.Type_ pointer = pb.Pointer_REMOTE →
  VerifyPieceHashes_report verifier penv path n = Some (report, err, calls) →
  length (Successes report) = 0%nat
  ∨ (∃ remote redundancy,
       pb.Remote pointer = Some remote ∧ pb.Redundancy remote = Some redundancy
       ∧ (Z.of_nat (length (Successes report)) < pb.MinReq redundancy
          ∨ Z.of_nat (length (Successes report)) < pb.RepairThreshold redundancy)) →
  VerifyPieceHashes_attempt verifier penv path dryRun n
    = Some (Return false err, calls)
  ∧ (∀ fuel maxAttempts attempts, attempts < maxAttempts →
       VerifyPieceHashes_loop (S fuel) verifier penv path dryRun maxAttempts attempts n
       = Some (Some (false, err, calls)))
  ∧ (∀ key pointer' toRemove, CallUpdate key pointer' toRemove ∉ calls)
  ∧ (calls = []
     ∨ ∃ expiredBytes expired,
         OnTestingVerifyMockFunc verifier = None
         ∧ metainfo_GetWithBytes (vph_Verify_env penv n) 0%nat path
           = inl (expiredBytes, expired)
         ∧ pb.ExpirationDate expired ≠ 0
         ∧ pb.ExpirationDate expired < time_Now (vph_Verify_env penv n)
         ∧ calls = [CallDelete path expiredBytes]
         ∧ report = Report_zero).
Proof.
  intros Hget Hflag Htype Hreport Hfew.
  assert (VerifyPieceHashes_attempt verifier penv path dryRun n
          = Some (Return false err, calls)) as Hattempt.
  { unfold VerifyPieceHashes_attempt.
    rewrite Hget, Hflag, Htype, Hreport.
    rewrite bool_decide_eq_false_2 by (intros Hne; by apply Hne).
    destruct err as [err|]; [done|].
    destruct (Z.of_nat (length (Successes report)) =? 0) eqn:Hzero; [done|].
    apply Z.eqb_neq in Hzero.
    destruct Hfew as [Hlen|(remote & redundancy & -> & -> & Hlow)]; [lia|].
    destruct (Z.of_nat (length (Successes report)) <? pb.MinReq redundancy)
      eqn:Hmin; [done|].
    apply Z.ltb_ge in Hmin.
    destruct Hlow as [?|Hrepair]; [lia|].
    apply Z.ltb_lt in Hrepair. by rewrite Hrepair. }
  split; [done|]. split; [|split].
  - intros fuel maxAttempts attempts Hlt. simpl.
    apply Z.ltb_lt in Hlt. by rewrite Hlt, Hattempt.
  - by apply (VerifyPieceHashes_report_calls verifier penv path n report err calls).
  - unfold VerifyPieceHashes_report in Hreport.
    destruct (OnTestingVerifyMockFunc verifier) as [mock|] eqn:Hmock.
    + destruct (mock n) as [report' err']. injection Hreport as <- <- <-. by left.
    + destruct (Verify_calls_inv _ _ _ _ _ _ _ Hreport)
        as [->|(expiredBytes & expired & ? & ? & ? & ? & ?)]; [by left|].
      right. by exists expiredBytes, expired.
Qed.

Lemma VerifyPieceHashes_too_few_successes_witness :
  VerifyPieceHashes piece_hashes_verifier (demo_penv fault_timeout_1 update_races_twice)
    demo_path false
  = Some (Some (false, None, [])).
Proof.
  destruct (VerifyPieceHashes_too_few_successes piece_hashes_verifier
              (demo_penv fault_timeout_1 update_races_twice) demo_path false 0
              [x01] (demo_pointer false 100 0)
              (mkReport [12%N; 10%N] [] [13%N]
                 [mkPendingAudit 11%N 77%N 0 4 [x00; x04; x03; x02] demo_path] [])
              None [])
    as (_ & Hloop & _).
  - reflexivity.
  - reflexivity.
  - reflexivity.
  - vm_compute. reflexivity.
  - right. eexists _, _. split; [reflexivity|]. split; [reflexivity|].
    right. vm_compute. reflexivity.
  - apply Hloop. reflexivity.
Defined.

(** C9 as stated fails.  The pointer [VerifyPieceHashes] reads has
    expired: [Verify] deletes it and returns an empty report without
    error, so that (false, nil) is returned for a report without
    Successes, and the pointer is gone.  And when the audit of the demo
    segment fails for lack of shares, the report has no Successes and
    [VerifyPieceHashes] returns the error of the audit, not nil. *)
Lemma VerifyPieceHashes_too_few_not_unchanged :
  Verify piece_hashes_verifier (vph_Verify_env expired_penv 0) demo_path ∅
    = Some (Report_zero, None, [CallDelete demo_path [x01]])
  ∧ length (Successes Report_zero) = 0%nat
  ∧ VerifyPieceHashes piece_hashes_verifier expired_penv demo_path false
    = Some (Some (false, None, [CallDelete demo_path [x01]]))
  ∧ Verify piece_hashes_verifier
      (vph_Verify_env (demo_penv fault_two update_races_twice) 0) demo_path ∅
    = Some (mkReport [] [10%N] [13%N] [] [],
            Some (errs.New errs.ErrNotEnoughShares (errs.MsgGotRequired 1 2)), [])
  ∧ VerifyPieceHashes piece_hashes_verifier (demo_penv fault_two update_races_twice)
      demo_path false
    = Some (Some (false,
                  Some (errs.New errs.ErrNotEnoughShares (errs.MsgGotRequired 1 2)),
                  [])).
Proof.
  split; [vm_compute; reflexivity|]. split; [reflexivity|].
  split; [vm_compute; reflexivity|]. split; vm_compute; reflexivity.
Qed.

(** ** [DownloadShares] (C10) *)

(** [GetShare] does not panic on a share size that is not negative; the
    share it returns without error is the one of the piece and node it
    was asked for. *)
Lemma GetShare_total net limit key stripeIndex shareSize pieceNum :
  0 ≤ shareSize →
  ∃ share err,
    GetShare net limit key stripeIndex shareSize pieceNum = Some (share, err)
    ∧ (err = None →
       Share_Error share = None ∧ Share_PieceNum share = pieceNum
       ∧ Share_NodeID share = pb.StorageNodeId limit).
Proof.
  intros Hsize. unfold GetShare.
  destruct (piecestore_DialNodeURL net pieceNum limit) as [err|].
  { eexists _, _. split; [reflexivity|]. intros [=]. }
  destruct (ps_Download net pieceNum limit key _ shareSize) as [err|].
  { eexists _, _. split; [reflexivity|]. intros [=]. }
  apply Z.ltb_ge in Hsize. rewrite Hsize.
  destruct (io_ReadFull net pieceNum limit shareSize) as [buf|err].
  - eexists _, _. split; [reflexivity|]. done.
  - eexists _, _. split; [reflexivity|].
    destruct (downloader_Close net pieceNum limit); intros [=].
Qed.

(** What arrives on the channel for [limits[i]]. *)
Lemma DownloadShares_send_spec net key stripeIndex shareSize i limit :
  0 ≤ shareSize →
  ∃ msg,
    DownloadShares_send net key stripeIndex shareSize i limit = Some msg
    ∧ match limit with
      | None => msg = None
      | Some limit =>
          ∃ got err share,
            GetShare net limit key stripeIndex shareSize (Z.of_nat i) = Some (got, err)
            ∧ msg = Some share
            ∧ Share_PieceNum share = Z.of_nat i
            ∧ Share_NodeID share = pb.StorageNodeId limit
            ∧ Share_Error share = err
            ∧ (err = None → share = got)
            ∧ (err ≠ None → Share_Data share = [])
      end.
Proof.
  intros Hsize. unfold DownloadShares_send. destruct limit as [limit|].
  - destruct (GetShare_total net limit key stripeIndex shareSize (Z.of_nat i) Hsize)
      as (got & err & Hget & Hok).
    rewrite Hget. destruct err as [err|].
    + eexists. split; [reflexivity|]. eexists got, (Some err), _.
      split; [done|]. split; [done|]. simpl. done.
    + destruct (Hok eq_refl) as (Herr & Hnum & Hnode).
      eexists. split; [reflexivity|]. exists got, None, got. done.
  - by exists None.
Qed.

Lemma DownloadShares_sends_spec net key stripeIndex shareSize i limits :
  0 ≤ shareSize →
  ∃ msgs,
    DownloadShares_sends net key stripeIndex shareSize i limits = Some msgs
    ∧ ∀ j, msgs !! j =
        limit ← limits !! j;
        DownloadShares_send net key stripeIndex shareSize (i + j) limit.
Proof.
  intros Hsize. revert i. induction limits as [|limit limits IH]; intros i.
  - exists []. split; [done|]. intros j. by rewrite !lookup_nil.
  - simpl.
    destruct (DownloadShares_send_spec net key stripeIndex shareSize i limit Hsize)
      as (msg & Hmsg & _).
    destruct (IH (S i)) as (msgs & Hmsgs & Hlookup).
    rewrite Hmsg, Hmsgs. exists (msg :: msgs). split; [done|].
    intros [|j]; simpl.
    + by rewrite Nat.add_0_r.
    + rewrite Hlookup. by rewrite Nat.add_succ_r.
Qed.

Lemma receive_fold_other l shares z :
  (∀ share, Some share ∈ l → Share_PieceNum share ≠ z) →
  foldl DownloadShares_receive shares l !! z = shares !! z.
Proof.
  revert shares. induction l as [|msg l IH]; intros shares Hother; [done|].
  simpl. rewrite IH.
  - destruct msg as [share|]; [|done]. simpl.
    apply lookup_insert_ne. apply Hother. left.
  - intros share Hin. apply Hother. by right.
Qed.

Lemma receive_fold_member l shares share :
  NoDup (Share_PieceNum <$> omap id l) → Some share ∈ l →
  foldl DownloadShares_receive shares l !! Share_PieceNum share = Some share.
Proof.
  revert shares. induction l as [|msg l IH]; intros shares Hnd Hin.
  - by apply elem_of_nil in Hin.
  - simpl. apply elem_of_cons in Hin as [<-|Hin].
    + simpl in *. apply NoDup_cons in Hnd as [Hfresh _].
      rewrite receive_fold_other; [apply lookup_insert_eq|].
      intros share' Hin' Heq. apply Hfresh.
      apply list_elem_of_fmap. exists share'. split; [done|].
      apply list_elem_of_omap. by exists (Some share').
    + apply IH; [|done]. destruct msg as [share'|]; simpl in Hnd; [|done].
      by apply NoDup_cons in Hnd as [_ ?].
Qed.

(** The shares on the channel have the index of their limit as piece
    number, so no two of them have the same. *)
Lemma NoDup_indexed_piece_nums (msgs : list (option Share)) i :
  (∀ j share, msgs !! j = Some (Some share) →
     Share_PieceNum share = Z.of_nat (i + j)) →
  NoDup (Share_PieceNum <$> omap id msgs)
  ∧ ∀ z, z ∈ Share_PieceNum <$> omap id msgs → Z.of_nat i ≤ z.
Proof.
  revert i. induction msgs as [|msg msgs IH]; intros i Hidx.
  - split; [constructor|]. intros z Hz. by apply elem_of_nil in Hz.
  - destruct (IH (S i)) as [Hnd Hge].
    { intros j share Hj. rewrite (Hidx (S j) share Hj). f_equal. lia. }
    destruct msg as [share|]; simpl.
    + pose proof (Hidx 0%nat share eq_refl) as Hnum.
      rewrite Nat.add_0_r in Hnum. split.
      * constructor; [|done]. intros Hin. apply Hge in Hin. lia.
      * intros z Hz. apply elem_of_cons in Hz as [->|Hz]; [lia|].
        apply Hge in Hz. lia.
    + split; [done|]. intros z Hz. apply Hge in Hz. lia.
Qed.

(** C10.  For every slice of limits, every behaviour of the network and
    every order of arrival on the channel: an error [DownloadShares]
    returns is nil; and with a share size that is not negative (a negative
    one makes [GetShare] panic when it allocates its buffer)
    [DownloadShares] returns, and for each non-nil limit the map holds,
    under the limit's index, one share with that index as piece number and
    the node of the limit, whose Error field is the error [GetShare]
    returned (the share of [GetShare] itself when there was none, and no
    data otherwise); the map has no other keys. *)
Theorem DownloadShares_spec net arrival limits key stripeIndex shareSize :
  (∀ shares err,
     DownloadShares net arrival limits key stripeIndex shareSize = Some (shares, err) →
     err = None)
  ∧ (0 ≤ shareSize →
     ∃ shares,
       DownloadShares net arrival limits key stripeIndex shareSize = Some (shares, None)
       ∧ (∀ i limit, limits !! i = Some (Some limit) →
            ∃ got err share,
              GetShare net limit key stripeIndex shareSize (Z.of_nat i) = Some (got, err)
              ∧ shares !! Z.of_nat i = Some share
              ∧ Share_PieceNum share = Z.of_nat i
              ∧ Share_NodeID share = pb.StorageNodeId limit
              ∧ Share_Error share = err
              ∧ (err = None → share = got)
              ∧ (err ≠ None → Share_Data share = []))
       ∧ (∀ z share, shares !! z = Some share →
            ∃ i limit, z = Z.of_nat i ∧ limits !! i = Some (Some limit))).
Proof.
  split.
  { unfold DownloadShares. intros shares err.
    destruct (DownloadShares_sends net key stripeIndex shareSize 0 limits); [|done].
    by intros [= _ <-]. }
  intros Hsize. unfold DownloadShares.
  destruct (DownloadShares_sends_spec net key stripeIndex shareSize 0 limits Hsize)
    as (msgs & -> & Hlookup).
  eexists. split; [reflexivity|].
  assert (∀ j share, msgs !! j = Some (Some share) →
            Share_PieceNum share = Z.of_nat (0 + j)
            ∧ ∃ limit, limits !! j = Some (Some limit)) as Hidx.
  { intros j share Hj. rewrite Hlookup in Hj.
    destruct (limits !! j) as [limit|]; [|done]. simpl in Hj.
    destruct (DownloadShares_send_spec net key stripeIndex shareSize j limit Hsize)
      as (msg & Hmsg & Hspec).
    rewrite Hmsg in Hj. injection Hj as ->.
    destruct limit as [limit|]; [|done].
    destruct Hspec as (got & err & share' & _ & [= <-] & Hnum & _).
    split; [done|]. by exists limit. }
  assert (NoDup (Share_PieceNum <$> omap id (shuffle arrival _ msgs))) as Hnd.
  { rewrite (shuffle_perm arrival).
    apply (NoDup_indexed_piece_nums msgs 0). intros j share Hj.
    by apply Hidx. }
  split.
  - intros i limit Hi.
    destruct (DownloadShares_send_spec net key stripeIndex shareSize i (Some limit) Hsize)
      as (msg & Hmsg & got & err & share & Hget & -> & Hnum & Hrest).
    exists got, err, share. split; [done|]. split; [|done].
    rewrite <- Hnum. apply receive_fold_member; [done|].
    rewrite (shuffle_perm arrival). apply list_elem_of_lookup. exists i.
    rewrite Hlookup, Hi. simpl. done.
  - intros z share Hz.
    destruct (decide (z ∈ Share_PieceNum <$> omap id (shuffle arrival _ msgs)))
      as [Hkey|Hkey].
    + apply list_elem_of_fmap in Hkey as (share' & -> & Hin).
      apply list_elem_of_omap in Hin as (msg & Hin & Hmsg).
      destruct msg as [share''|]; [|done]. injection Hmsg as ->.
      rewrite receive_fold_member in Hz by done.
      injection Hz as ->.
      rewrite (shuffle_perm arrival) in Hin.
      apply list_elem_of_lookup in Hin as [j Hj].
      destruct (Hidx j share Hj) as (Hnum & limit & Hlimit).
      by exists j, limit.
    + rewrite receive_fold_other in Hz; [by rewrite lookup_empty in Hz|].
      intros share' Hin' Heq. apply Hkey.
      apply list_elem_of_fmap. exists share'. split; [done|].
      apply list_elem_of_omap. by exists (Some share').
Qed.

Lemma DownloadShares_spec_witness :
  ∃ shares,
    DownloadShares (demo_net no_fault fault_two demo_data) rev_shuffle demo_limits
      9%N 0 4 = Some (shares, None)
    ∧ shares !! 0 = Some (mkShare (Some err_not_found) 0 10%N [])
    ∧ shares !! 3 = None.
Proof.
  destruct (DownloadShares_spec (demo_net no_fault fault_two demo_data) rev_shuffle
              demo_limits 9%N 0 4) as (_ & Hspec).
  destruct Hspec as (shares & Hdl & Hin & Hout); [done|].
  exists shares. split; [done|]. split.
  - destruct (Hin 0%nat (pb.mkAddressedOrderLimit 10%N "n10") eq_refl)
      as (got & err & share & Hget & Hshare & Hnum & Hnode & Herr & _ & Hdata).
    injection Hget as <- <-. change (Z.of_nat 0) with 0 in Hshare, Hnum.
    rewrite Hshare. f_equal.
    destruct share as [e p n d]. simpl in *. subst.
    rewrite Hdata; done.
  - destruct (shares !! 3) as [share|] eqn:H3; [|done].
    destruct (Hout 3 share H3) as (i & limit & Hi & Hlimit).
    assert (i = 3%nat) as -> by lia. discriminate Hlimit.
Defined.

(** ** The return paths of [Verify] *)

Lemma Verify_audit_Completed env path skip pointerBytes pointer randomIndex
    orderLimits shares b remote pieceNums correctedShares pendingAudits :
  Completed env path skip pointerBytes pointer randomIndex orderLimits shares b
    remote pieceNums correctedShares pendingAudits →
  Verify_audit env path skip pointerBytes pointer
  = Some (completed_report env shares b pieceNums pendingAudits, None).
Proof.
  intros (Hclassified & Hremote & Henough & Haudit & Hpending).
  rewrite (Verify_audit_Classified _ _ _ _ _ _ _ _ _ _ Hclassified Hremote).
  simpl. apply Z.ltb_ge in Henough. rewrite Henough, Haudit, Hpending. done.
Qed.

(** An audit that returns either has an empty list of pending audits, and
    an empty report when its error is nil, or ran to its end. *)
Lemma Verify_audit_inv env path skip pointerBytes pointer audited err :
  Live env path pointerBytes pointer →
  Verify_audit env path skip pointerBytes pointer = Some (audited, err) →
  (PendingAudits audited = [] ∧ (err = None → audited = Report_zero))
  ∨ (err = None
     ∧ ∃ randomIndex orderLimits shares b remote pieceNums correctedShares pendingAudits,
         Completed env path skip pointerBytes pointer randomIndex orderLimits shares b
           remote pieceNums correctedShares pendingAudits
         ∧ audited = completed_report env shares b pieceNums pendingAudits).
Proof.
  intros Hlive Haudit. unfold Verify_audit in Haudit.
  destruct (GetRandomStripe env pointer) as [[randomIndex [err0|]]|] eqn:Hstripe;
    [injection Haudit as <- <-; by left| |done].
  destruct (metabase_ParseSegmentKey env path) as [bucket|err0] eqn:Hparse;
    [|injection Haudit as <- <-; by left].
  destruct (orders_CreateAuditOrderLimits env bucket pointer skip)
    as [[orderLimits key]|err0] eqn:Hlimits;
    [|injection Haudit as <- <-; by left].
  destruct (DownloadShares _ _ _ _ _ _) as [[shares [err0|]]|] eqn:Hdl;
    [injection Haudit as <- <-; by left| |done].
  assert (Downloaded env path skip pointerBytes pointer randomIndex orderLimits shares)
    as Hdownloaded.
  { split; [done|]. split; [done|]. by exists bucket, key. }
  destruct (checkIfSegmentAltered _ _ _ _) as [err0|] eqn:Halt.
  { destruct (errs.Has errs.ErrSegmentDeleted err0);
      [injection Haudit as <- <-; by left|].
    destruct (errs.Has errs.ErrSegmentModified err0);
      injection Haudit as <- <-; by left. }
  destruct (pb.Remote pointer) as [remote|] eqn:Hremote; [|done].
  destruct (Z.of_nat _ <? _) eqn:Hfew; [injection Haudit as <- <-; by left|].
  destruct (auditShares _ _ _ _ _) as [[pieceNums correctedShares]|err0] eqn:Haud;
    [|injection Haudit as <- <-; by left].
  destruct (createPendingAudits _ _ _ _ _ _ _ _) as [[pendingAudits [err0|]]|]
    eqn:Hpending; [injection Haudit as <- <-; by left| |done].
  injection Haudit as <- <-. right. split; [done|].
  eexists randomIndex, orderLimits, shares, _, remote, pieceNums, correctedShares,
    pendingAudits.
  split; [|reflexivity].
  split; [by split|]. split; [done|]. split; [by apply Z.ltb_ge|]. by split.
Qed.

(** A call of [Verify] that returns either found no pointer to audit or
    an expired one, and returns an empty report, or went on to the audit. *)
Lemma Verify_inv verifier env path skip report err calls :
  Verify verifier env path skip = Some (report, err, calls) →
  (report = Report_zero
   ∧ ∀ pointerBytes pointer, ¬ Live env path pointerBytes pointer)
  ∨ (∃ pointerBytes pointer audited,
       Live env path pointerBytes pointer
       ∧ Verify_audit env path skip pointerBytes pointer = Some (audited, err)
       ∧ report = Verify_deferred verifier pointer audited
       ∧ calls = []).
Proof.
  unfold Verify, Live. intros Hverify.
  destruct (metainfo_GetWithBytes env 0%nat path) as [[pointerBytes pointer]|err0].
  - destruct (bool_decide _ && _) eqn:Hexp.
    + left. split.
      * destruct (metainfo_Delete env path pointerBytes); congruence.
      * intros pointerBytes' pointer' [[= <- <-] Hlive]. apply Hlive.
        apply andb_prop in Hexp as [H1 H2].
        apply bool_decide_eq_true in H1. apply Z.ltb_lt in H2. done.
    + destruct (Verify_audit env path skip pointerBytes pointer)
        as [[audited err']|] eqn:Haudit; [|done].
      injection Hverify as <- <- <-. right.
      exists pointerBytes, pointer, audited. split; [|done]. split; [done|].
      intros [Hset Hpast]. apply andb_false_iff in Hexp as [H1|H2].
      * apply bool_decide_eq_false in H1. done.
      * apply Z.ltb_ge in H2. lia.
  - left. split.
    + destruct (errs.Has errs.ErrObjectNotFound err0); congruence.
    + intros pointerBytes pointer [[=] _].
Qed.

(** ** Pending audits (C3) *)

Lemma createPendingAudits_loop_spec lib sha256 remote stripeData pointer
    randomIndex path entries pending0 pending :
  pb.Remote pointer = Some remote →
  createPendingAudits_loop lib sha256 (pb.GetMinReq (pb.Redundancy remote))
    (pb.GetTotal (pb.Redundancy remote)) (pb.GetErasureShareSize (pb.Redundancy remote))
    stripeData pointer randomIndex path entries pending0 = Some (pending, None) →
  ∃ new,
    pending = pending0 ++ new
    ∧ Forall2 (λ entry pa,
         pending_audit_for lib sha256 pointer remote stripeData randomIndex path
           entry.1 entry.2 pa) entries new.
Proof.
  intros Hremote. revert pending0.
  induction entries as [|[pieceNum nodeID] entries IH]; intros pending0 Hloop.
  - simpl in Hloop. injection Hloop as <-. exists []. by rewrite app_nil_r.
  - simpl in Hloop.
    destruct (pb.GetErasureShareSize (pb.Redundancy remote) <? 0); [done|].
    destruct (infectious.EncodeSingle _ _ _ _ _ _) as [share|err] eqn:Henc; [|done].
    rewrite Hremote in Hloop.
    destruct (IH _ Hloop) as (new & -> & Hnew).
    eexists (_ :: new). split; [by rewrite <- app_assoc|].
    constructor; [|done]. by exists share.
Qed.

(** The pending audits [createPendingAudits] returns without error: none
    when no node is contained, and otherwise one for each entry of the
    contained map, built from the stripe that [rebuildStripe] gives. *)
Lemma createPendingAudits_spec lib sha256 order contained correctedShares pointer
    randomIndex path pending :
  createPendingAudits lib sha256 order contained correctedShares pointer randomIndex path
    = Some (pending, None) →
  (contained = ∅ ∧ pending = [])
  ∨ ∃ remote stripeData,
      pb.Remote pointer = Some remote
      ∧ rebuildStripe lib (pb.GetMinReq (pb.Redundancy remote))
          (pb.GetTotal (pb.Redundancy remote)) correctedShares
          (pb.GetErasureShareSize (pb.Redundancy remote)) = Some (inl stripeData)
      ∧ Forall2 (λ entry pa,
           pending_audit_for lib sha256 pointer remote stripeData randomIndex path
             entry.1 entry.2 pa) (go_range order contained) pending.
Proof.
  unfold createPendingAudits. intros Hcreate.
  destruct (bool_decide (size contained = 0%nat)) eqn:Hsize.
  { left. apply bool_decide_eq_true in Hsize. apply map_size_empty_iff in Hsize.
    injection Hcreate as <-. done. }
  destruct (pb.Remote pointer) as [remote|] eqn:Hremote.
  - simpl in Hcreate.
    destruct (infectious.NewFEC lib _ _); [done|].
    destruct (rebuildStripe lib _ _ _ _) as [[stripeData|err]|] eqn:Hstripe; [|done|done].
    right. exists remote, stripeData. split; [done|]. split; [done|].
    destruct (createPendingAudits_loop_spec lib sha256 remote stripeData pointer
                randomIndex path (go_range order contained) [] pending)
      as (new & -> & Hnew); [done|exact Hcreate|done].
  - simpl in Hcreate.
    destruct (infectious.NewFEC lib 0 0); [done|].
    destruct (rebuildStripe lib 0 0 correctedShares 0) as [[stripeData|err]|];
      [|done|done].
    apply bool_decide_eq_false in Hsize.
    destruct (go_range order contained) as [|[pieceNum nodeID] entries] eqn:Hrange.
    + exfalso. apply Hsize. apply map_size_empty_iff.
      apply map_to_list_empty_iff. unfold go_range in Hrange.
      apply Permutation_nil_r. rewrite <- Hrange. symmetry. apply shuffle_perm.
    + simpl in Hcreate. rewrite Hremote in Hcreate.
      destruct (infectious.EncodeSingle lib 0 0 stripeData 0 pieceNum); done.
Qed.

(** C3.  Every pending audit in a report of [Verify] belongs to a piece
    number of the contained map, for the node contained there; its
    ExpectedShareHash is the SHA-256 of the share that EncodeSingle gives
    at that piece number from the stripe rebuilt out of the shares as
    Correct left them, and it carries the stripe index of the audit, the
    erasure share size of the redundancy, the RootPieceId of the pointer
    and the audited path. *)
Theorem Verify_pending_audits verifier env path skip report err calls pa :
  Verify verifier env path skip = Some (report, err, calls) →
  pa ∈ PendingAudits report →
  ∃ pointerBytes pointer randomIndex orderLimits shares b remote corrected
    stripeData pieceNum share,
    Classified env path skip pointerBytes pointer randomIndex orderLimits shares b
    ∧ pb.Remote pointer = Some remote
    ∧ let redundancy := pb.Redundancy remote in
      let required := pb.GetMinReq redundancy in
      let total := pb.GetTotal redundancy in
      let shareSize := pb.GetErasureShareSize redundancy in
      infectious.Correct (fec env) required total
        (makeCopies (order_copies env) (sharesToAudit b)) = inl corrected
      ∧ rebuildStripe (fec env) required total corrected shareSize
        = Some (inl stripeData)
      ∧ containedNodes b !! pieceNum = Some (PA_NodeID pa)
      ∧ infectious.EncodeSingle (fec env) required total stripeData shareSize pieceNum
        = inl share
      ∧ pa = mkPendingAudit (PA_NodeID pa) (pb.RootPieceId remote) randomIndex
               shareSize (pkcrypto_SHA256Hash env share) path.
Proof.
  intros Hverify Hpa.
  destruct (Verify_inv _ _ _ _ _ _ _ Hverify)
    as [[-> _]|(pointerBytes & pointer & audited & Hlive & Haudit & -> & _)].
  { by apply elem_of_nil in Hpa. }
  assert (pa ∈ PendingAudits audited) as Hpa'.
  { unfold Verify_deferred in Hpa.
    destruct (UsedToVerifyPieceHashes verifier); [done|].
    destruct (pb.PieceHashesVerified pointer); simpl in Hpa; [done|].
    by apply elem_of_nil in Hpa. }
  destruct (Verify_audit_inv _ _ _ _ _ _ _ Hlive Haudit)
    as [[Hnil _]|(_ & randomIndex & orderLimits & shares & b & remote & pieceNums
                  & corrected & pendingAudits & Hcompleted & ->)].
  { rewrite Hnil in Hpa'. by apply elem_of_nil in Hpa'. }
  simpl in Hpa'.
  destruct Hcompleted as (Hclassified & Hremote & _ & Haud & Hpending).
  apply createPendingAudits_spec in Hpending
    as [[_ ->]|(remote' & stripeData & Hremote' & Hstripe & Hall)].
  { by apply elem_of_nil in Hpa'. }
  assert (remote' = remote) as -> by congruence.
  apply list_elem_of_lookup in Hpa' as [j Hj].
  destruct (Forall2_lookup_r _ _ _ _ _ Hall Hj)
    as ([pieceNum nodeID] & Hentry & share & Henc & Hpa_eq).
  simpl in Henc, Hpa_eq.
  exists pointerBytes, pointer, randomIndex, orderLimits, shares, b, remote, corrected,
    stripeData, pieceNum, share.
  split; [done|]. split; [done|]. simpl.
  assert (PA_NodeID pa = nodeID) as Hnode by (by rewrite Hpa_eq).
  split.
  { unfold auditShares in Haud.
    destruct (infectious.NewFEC (fec env) _ _); [done|].
    destruct (infectious.Correct (fec env) _ _ _) as [copies|]; [|done].
    by injection Haud as _ <-. }
  split; [done|]. split.
  { rewrite Hnode. apply (elem_of_go_range (order_pending env)).
    by apply list_elem_of_lookup_2 in Hentry. }
  split; [done|]. by rewrite Hnode.
Qed.

Lemma timeout_env_Verify :
  Verify plain_verifier (audit_env true fault_timeout_1 rev_shuffle) demo_path ∅
  = Some (mkReport [10%N; 12%N] [] [13%N]
            [mkPendingAudit 11%N 77%N 0 4 [x00; x04; x03; x02] demo_path] [],
          None, []).
Proof. vm_compute. reflexivity. Qed.

Lemma Verify_pending_audits_witness :
  let env := audit_env true fault_timeout_1 rev_shuffle in
  let pa := mkPendingAudit 11%N 77%N 0 4 [x00; x04; x03; x02] demo_path in
  ∃ pointerBytes pointer randomIndex orderLimits shares b remote corrected
    stripeData pieceNum share,
    Classified env demo_path ∅ pointerBytes pointer randomIndex orderLimits shares b
    ∧ pb.Remote pointer = Some remote
    ∧ let redundancy := pb.Redundancy remote in
      let required := pb.GetMinReq redundancy in
      let total := pb.GetTotal redundancy in
      let shareSize := pb.GetErasureShareSize redundancy in
      infectious.Correct (fec env) required total
        (makeCopies (order_copies env) (sharesToAudit b)) = inl corrected
      ∧ rebuildStripe (fec env) required total corrected shareSize
        = Some (inl stripeData)
      ∧ containedNodes b !! pieceNum = Some (PA_NodeID pa)
      ∧ infectious.EncodeSingle (fec env) required total stripeData shareSize pieceNum
        = inl share
      ∧ pa = mkPendingAudit (PA_NodeID pa) (pb.RootPieceId remote) randomIndex
               shareSize (pkcrypto_SHA256Hash env share) demo_path.
Proof.
  intros env pa.
  apply (Verify_pending_audits plain_verifier env demo_path ∅ _ _ _ pa
           timeout_env_Verify).
  simpl. left.
Defined.

(** ** Every node in exactly one set (C4) *)

Lemma GetShare_inv net limit key stripeIndex shareSize pieceNum share :
  GetShare net limit key stripeIndex shareSize pieceNum = Some (share, None) →
  Share_Error share = None ∧ Share_PieceNum share = pieceNum
  ∧ Share_NodeID share = pb.StorageNodeId limit.
Proof.
  unfold GetShare.
  destruct (piecestore_DialNodeURL net pieceNum limit); [done|].
  destruct (ps_Download net pieceNum limit key _ shareSize); [done|].
  destruct (shareSize <? 0); [done|].
  destruct (io_ReadFull net pieceNum limit shareSize) as [buf|err].
  - destruct (downloader_Close net pieceNum limit); [done|].
    by intros [= <-].
  - destruct (downloader_Close net pieceNum limit); done.
Qed.

Lemma DownloadShares_send_inv net key stripeIndex shareSize i limit share :
  DownloadShares_send net key stripeIndex shareSize i limit = Some (Some share) →
  ∃ limit', limit = Some limit'
            ∧ Share_PieceNum share = Z.of_nat i
            ∧ Share_NodeID share = pb.StorageNodeId limit'.
Proof.
  unfold DownloadShares_send. destruct limit as [limit|]; [|done].
  destruct (GetShare net limit key stripeIndex shareSize (Z.of_nat i))
    as [[got [err|]]|] eqn:Hget; [| |done].
  - intros [= <-]. by exists limit.
  - intros [= <-]. apply GetShare_inv in Hget as (_ & ? & ?). by exists limit.
Qed.

Lemma DownloadShares_sends_inv net key stripeIndex shareSize i limits msgs :
  DownloadShares_sends net key stripeIndex shareSize i limits = Some msgs →
  ∀ j, msgs !! j =
    limit ← limits !! j;
    DownloadShares_send net key stripeIndex shareSize (i + j) limit.
Proof.
  revert i msgs. induction limits as [|limit limits IH]; intros i msgs Hsends.
  - injection Hsends as <-. intros j. by rewrite !lookup_nil.
  - simpl in Hsends.
    destruct (DownloadShares_send net key stripeIndex shareSize i limit)
      as [msg|] eqn:Hmsg; [|done].
    destruct (DownloadShares_sends net key stripeIndex shareSize (S i) limits)
      as [msgs'|] eqn:Hmsgs; [|done].
    injection Hsends as <-. intros [|j]; simpl.
    + by rewrite Nat.add_0_r.
    + rewrite (IH _ _ Hmsgs). by rewrite Nat.add_succ_r.
Qed.

(** The map [DownloadShares] returns: a share under the index of each
    non-nil limit, for the node of that limit, and nothing else. *)
Lemma DownloadShares_inv net arrival limits key stripeIndex shareSize shares err :
  DownloadShares net arrival limits key stripeIndex shareSize = Some (shares, err) →
  (∀ i limit, limits !! i = Some (Some limit) →
     ∃ share, shares !! Z.of_nat i = Some share
              ∧ Share_NodeID share = pb.StorageNodeId limit)
  ∧ (∀ z share, shares !! z = Some share →
       Share_PieceNum share = z
       ∧ ∃ i limit, z = Z.of_nat i ∧ limits !! i = Some (Some limit)
                    ∧ Share_NodeID share = pb.StorageNodeId limit).
Proof.
  unfold DownloadShares.
  destruct (DownloadShares_sends net key stripeIndex shareSize 0 limits)
    as [msgs|] eqn:Hsends; [|done].
  intros [= <- <-].
  pose proof (DownloadShares_sends_inv _ _ _ _ _ _ _ Hsends) as Hlookup.
  assert (∀ j share, msgs !! j = Some (Some share) →
            Share_PieceNum share = Z.of_nat (0 + j)
            ∧ ∃ limit, limits !! j = Some (Some limit)
                       ∧ Share_NodeID share = pb.StorageNodeId limit) as Hidx.
  { intros j share Hj. rewrite Hlookup in Hj.
    destruct (limits !! j) as [limit|]; [|done]. simpl in Hj.
    apply DownloadShares_send_inv in Hj as (limit' & -> & Hnum & Hnode).
    split; [done|]. by exists limit'. }
  assert (NoDup (Share_PieceNum <$> omap id (shuffle arrival _ msgs))) as Hnd.
  { rewrite (shuffle_perm arrival).
    apply (NoDup_indexed_piece_nums msgs 0). intros j share Hj.
    by apply Hidx. }
  split.
  - intros i limit Hi.
    assert (is_Some (msgs !! i)) as [msg Hmsg].
    { apply lookup_lt_is_Some.
      assert (length msgs = length limits) as ->.
      { clear -Hsends. revert msgs Hsends. generalize 0%nat.
        induction limits as [|limit limits IH]; intros i msgs Hsends.
        - by injection Hsends as <-.
        - simpl in Hsends.
          destruct (DownloadShares_send net key stripeIndex shareSize i limit);
            [|done].
          destruct (DownloadShares_sends net key stripeIndex shareSize (S i) limits)
            as [msgs'|] eqn:Hmsgs; [|done].
          injection Hsends as <-. simpl. f_equal. by eapply IH. }
      apply lookup_lt_is_Some. by eexists. }
    pose proof Hmsg as Hsend. rewrite Hlookup, Hi in Hsend. simpl in Hsend.
    destruct msg as [share|].
    + destruct (Hidx i share Hmsg) as (Hnum & limit' & Hlimit' & Hnode).
      assert (limit' = limit) as -> by congruence.
      exists share. split; [|done]. simpl in Hnum. rewrite <- Hnum.
      apply receive_fold_member; [done|].
      rewrite (shuffle_perm arrival). apply list_elem_of_lookup. by exists i.
    + unfold DownloadShares_send in Hsend.
      destruct (GetShare net limit key stripeIndex shareSize (Z.of_nat i))
        as [[got [e|]]|]; done.
  - intros z share Hz.
    destruct (decide (z ∈ Share_PieceNum <$> omap id (shuffle arrival _ msgs)))
      as [Hkey|Hkey].
    + apply list_elem_of_fmap in Hkey as (share' & -> & Hin).
      apply list_elem_of_omap in Hin as (msg & Hin & Hmsg).
      destruct msg as [share''|]; [|done]. injection Hmsg as ->.
      rewrite receive_fold_member in Hz by done.
      injection Hz as ->.
      rewrite (shuffle_perm arrival) in Hin.
      apply list_elem_of_lookup in Hin as [j Hj].
      destruct (Hidx j share Hj) as (Hnum & limit & Hlimit & Hnode).
      split; [done|]. by exists j, limit.
    + rewrite receive_fold_other in Hz; [by rewrite lookup_empty in Hz|].
      intros share' Hin' Heq. apply Hkey.
      apply list_elem_of_fmap. exists share'. split; [done|].
      apply list_elem_of_omap. by exists (Some share').
Qed.

Lemma NoDup_fmap_eq {A B} (f : A → B) (l : list A) x y :
  NoDup (f <$> l) → x ∈ l → y ∈ l → f x = f y → x = y.
Proof.
  induction l as [|a l IH]; intros Hnd Hx Hy Hf.
  - by apply elem_of_nil in Hx.
  - simpl in Hnd. apply NoDup_cons in Hnd as [Ha Hnd].
    apply elem_of_cons in Hx as [->|Hx]; apply elem_of_cons in Hy as [->|Hy].
    + done.
    + exfalso. apply Ha. rewrite Hf. apply list_elem_of_fmap. by exists y.
    + exfalso. apply Ha. rewrite <- Hf. apply list_elem_of_fmap. by exists x.
    + by apply IH.
Qed.

Lemma elem_of_nodesWithLimit limits n :
  n ∈ nodesWithLimit limits ↔
  ∃ i limit, limits !! i = Some (Some limit) ∧ pb.StorageNodeId limit = n.
Proof.
  unfold nodesWithLimit. rewrite elem_of_list_to_set, list_elem_of_fmap. split.
  - intros (limit & -> & Hin). apply list_elem_of_omap in Hin as (o & Hin & Ho).
    simpl in Ho. subst o. apply list_elem_of_lookup in Hin as [i Hi].
    by exists i, limit.
  - intros (i & limit & Hi & <-). exists limit. split; [done|].
    apply list_elem_of_omap. exists (Some limit). split; [|done].
    apply list_elem_of_lookup. by exists i.
Qed.

Lemma elem_of_getOfflineNodes pointer limits skip n :
  n ∈ getOfflineNodes pointer limits skip ↔
  (∃ piece, piece ∈ pb.GetRemotePieces (pb.Remote pointer) ∧ pb.NodeId piece = n)
  ∧ (n ∉ nodesWithLimit limits) ∧ skipped skip n = false.
Proof.
  unfold getOfflineNodes. rewrite list_elem_of_fmap. split.
  - intros (piece & -> & Hin). apply list_elem_of_filter in Hin as [[? ?] Hin].
    split; [by exists piece|done].
  - intros ((piece & Hin & <-) & Hlimit & Hskip). exists piece. split; [done|].
    apply list_elem_of_filter. done.
Qed.

Lemma elem_of_getSuccessNodes order shares failed offline unknown contained n :
  n ∈ getSuccessNodes order shares failed offline unknown contained ↔
  (∃ z share, shares !! z = Some share ∧ Share_NodeID share = n)
  ∧ (n ∉ failed) ∧ (n ∉ offline) ∧ (n ∉ unknown)
  ∧ ¬ (∃ z, contained !! z = Some n).
Proof.
  unfold getSuccessNodes. rewrite list_elem_of_fmap.
  assert (∀ m, m ∈ (map_to_list contained).*2 ↔ ∃ z, contained !! z = Some m)
    as Hvalues.
  { intros m. rewrite list_elem_of_fmap. split.
    - intros ([z m'] & -> & Hin). apply elem_of_map_to_list in Hin. by exists z.
    - intros [z Hz]. exists (z, m). split; [done|]. by apply elem_of_map_to_list. }
  split.
  - intros (share & -> & Hin). apply list_elem_of_filter in Hin as [Hnot Hin].
    apply list_elem_of_fmap in Hin as ([z share'] & -> & Hin).
    apply elem_of_go_range in Hin. simpl in *.
    rewrite !not_elem_of_union, !elem_of_list_to_set in Hnot.
    destruct Hnot as [[[? ?] ?] Hc]. rewrite Hvalues in Hc.
    split; [by exists z, share'|done].
  - intros ((z & share & Hz & <-) & Hf & Ho & Hu & Hc). exists share.
    split; [done|]. apply list_elem_of_filter. split.
    + rewrite !not_elem_of_union, !elem_of_list_to_set, Hvalues. done.
    + apply list_elem_of_fmap. exists (z, share). split; [done|].
      by apply elem_of_go_range.
Qed.

(** The nodes of the pending audits are the nodes of the contained map. *)
Lemma createPendingAudits_nodes lib sha256 order contained correctedShares pointer
    randomIndex path pending n :
  createPendingAudits lib sha256 order contained correctedShares pointer randomIndex path
    = Some (pending, None) →
  n ∈ PA_NodeID <$> pending ↔ ∃ z, contained !! z = Some n.
Proof.
  intros Hcreate.
  apply createPendingAudits_spec in Hcreate
    as [[-> ->]|(remote & stripeData & _ & _ & Hall)].
  { split.
    - intros Hin. by apply elem_of_nil in Hin.
    - intros [z Hz]. by rewrite lookup_empty in Hz. }
  assert (PA_NodeID <$> pending = (go_range order contained).*2) as ->.
  { induction Hall as [|[z m] pa entries pending' (share & _ & ->) _ IH]; [done|].
    rewrite !fmap_cons. simpl. by f_equal. }
  rewrite list_elem_of_fmap. split.
  - intros ([z m] & -> & Hin). apply elem_of_go_range in Hin. by exists z.
  - intros [z Hz]. exists (z, n). split; [done|]. by apply elem_of_go_range.
Qed.

(** The piece numbers [auditShares] reports are numbers of corrected
    shares, so, when [Correct] keeps the numbers, piece numbers of the
    shares it was given. *)
Lemma auditShares_pieceNums lib order required total originals pieceNums corrected z :
  Correct_keeps_numbers lib →
  auditShares lib order required total originals = inl (pieceNums, corrected) →
  z ∈ pieceNums →
  ∃ key original, originals !! key = Some original ∧ Share_PieceNum original = z.
Proof.
  intros Hkeeps Haudit Hz. unfold auditShares in Haudit.
  destruct (infectious.NewFEC lib required total); [done|].
  destruct (infectious.Correct lib required total (makeCopies order originals))
    as [copies|] eqn:Hcorrect; [|done].
  injection Haudit as <- <-.
  apply list_elem_of_fmap in Hz as (share & -> & Hin).
  apply list_elem_of_filter in Hin as [_ Hin].
  assert (infectious.Number share ∈ infectious.Number <$> copies) as Hnum.
  { apply list_elem_of_fmap. by exists share. }
  rewrite (Hkeeps _ _ _ _ Hcorrect) in Hnum. unfold makeCopies in Hnum.
  apply list_elem_of_fmap in Hnum as (copy & Heq & Hcopy).
  apply list_elem_of_fmap in Hcopy as ([key original] & -> & Hentry).
  apply elem_of_go_range in Hentry. exists key, original. split; [done|].
  by rewrite Heq.
Qed.

Section partition.
Context (env : Env) (path : Path) (skip : gmap NodeID bool) (pointerBytes : bytes)
  (pointer : pb.Pointer) (randomIndex : Z)
  (orderLimits : list (option pb.AddressedOrderLimit)) (shares : gmap Z Share)
  (b : Buckets) (remote : pb.RemoteSegment) (pieceNums : list Z)
  (correctedShares : list infectious.Share) (pendingAudits : list PendingAudit).
Hypothesis Hcompleted :
  Completed env path skip pointerBytes pointer randomIndex orderLimits shares b
    remote pieceNums correctedShares pendingAudits.
Hypothesis Haligned : limits_aligned (pb.RemotePieces remote) skip orderLimits.
Hypothesis Hnodup : NoDup (pb.NodeId <$> pb.RemotePieces remote).
Hypothesis Hkeeps : Correct_keeps_numbers (fec env).

Lemma partition_share z share :
  shares !! z = Some share →
  Share_PieceNum share = z
  ∧ Share_NodeID share ∈ nodesWithLimit orderLimits
  ∧ skipped skip (Share_NodeID share) = false
  ∧ pb.mkRemotePiece z (Share_NodeID share) ∈ pb.RemotePieces remote.
Proof.
  destruct Hcompleted as (((_ & _ & bucket & key & _ & _ & Hdl) & _ & _) & _).
  apply DownloadShares_inv in Hdl as [_ Hshares].
  intros Hz.
  destruct (Hshares z share Hz) as (Hnum & i & limit & -> & Hlimit & Hnode).
  destruct (Haligned i limit Hlimit) as [Hskip Hpiece]. rewrite Hnode.
  split; [done|]. split; [|done]. apply elem_of_nodesWithLimit. by exists i, limit.
Qed.

Lemma partition_limit n :
  n ∈ nodesWithLimit orderLimits →
  ∃ z share, shares !! z = Some share ∧ Share_NodeID share = n.
Proof.
  destruct Hcompleted as (((_ & _ & bucket & key & _ & _ & Hdl) & _ & _) & _).
  apply DownloadShares_inv in Hdl as [Hlimits _].
  intros Hn. apply elem_of_nodesWithLimit in Hn as (i & limit & Hi & <-).
  destruct (Hlimits i limit Hi) as (share & Hshare & Hnode).
  by exists (Z.of_nat i), share.
Qed.

Lemma partition_distinct z share z' share' :
  shares !! z = Some share → shares !! z' = Some share' →
  Share_NodeID share = Share_NodeID share' → z = z' ∧ share = share'.
Proof.
  intros Hz Hz' Hnode.
  destruct (partition_share z share Hz) as (_ & _ & _ & Hpiece).
  destruct (partition_share z' share' Hz') as (_ & _ & _ & Hpiece').
  assert (pb.mkRemotePiece z (Share_NodeID share)
          = pb.mkRemotePiece z' (Share_NodeID share')) as Heq.
  { by apply (NoDup_fmap_eq pb.NodeId (pb.RemotePieces remote)). }
  injection Heq as -> _. split; [done|]. congruence.
Qed.

Lemma partition_buckets :
  offlineNodes b = getOfflineNodes pointer orderLimits skip
                   ++ nodes_in Offline (go_range (order_classify env) shares)
  ∧ failedNodes b = nodes_in Failed (go_range (order_classify env) shares)
  ∧ unknownNodes b = nodes_in UnknownNode (go_range (order_classify env) shares)
  ∧ (∀ z n, containedNodes b !! z = Some n ↔
       ∃ share, shares !! z = Some share ∧ classification_table share = Contained
                ∧ Share_NodeID share = n)
  ∧ (∀ z share, sharesToAudit b !! z = Some share ↔
       shares !! z = Some share ∧ classification_table share = ToAudit).
Proof.
  destruct Hcompleted as ((_ & _ & ->) & _).
  destruct (classifyShares_spec (order_classify env) shares
              (mkBuckets (getOfflineNodes pointer orderLimits skip) [] [] ∅ ∅))
    as (Ho & Hf & Hu & Hc & Ha).
  simpl in *. split; [done|]. split; [done|]. split; [done|]. split.
  - intros z n. rewrite Hc, lookup_empty.
    destruct (shares !! z) as [share|]; [|split; [done|by intros (? & ? & _)]].
    case_decide as Htable.
    + split; [intros [= <-]; by exists share|].
      by intros (share' & [= <-] & _ & <-).
    + split; [done|]. by intros (share' & [= <-] & ? & _).
  - intros z share. rewrite Ha, lookup_empty.
    destruct (shares !! z) as [share'|]; [|split; [done|by intros [? _]]].
    case_decide as Htable.
    + split; [by intros [= <-]|]. by intros [[= <-] _].
    + split; [done|]. by intros [[= <-] ?].
Qed.

Lemma partition_nodes_in bucket z share :
  shares !! z = Some share →
  Share_NodeID share ∈ nodes_in bucket (go_range (order_classify env) shares)
  ↔ classification_table share = bucket.
Proof.
  intros Hz. rewrite elem_of_nodes_in. split.
  - intros (z' & share' & Hin & Hb & Hnode). apply elem_of_go_range in Hin.
    destruct (partition_distinct z' share' z share Hin Hz Hnode) as [_ ->]. done.
  - intros Hb. exists z, share. split; [by apply elem_of_go_range|done].
Qed.

Lemma partition_pieceNums z :
  z ∈ pieceNums →
  ∃ share, shares !! z = Some share ∧ classification_table share = ToAudit.
Proof.
  intros Hz. destruct Hcompleted as (_ & _ & _ & Haudit & _).
  destruct (auditShares_pieceNums _ _ _ _ _ _ _ z Hkeeps Haudit Hz)
    as (key & original & Hkey & Hnum).
  destruct partition_buckets as (_ & _ & _ & _ & Ha).
  apply Ha in Hkey as [Hshare Htable].
  destruct (partition_share key original Hshare) as (Hnum' & _).
  exists original. split; [congruence|done].
Qed.

(** A node that has a share is in the set its share was classified into;
    a share to audit makes it a success or a failure. *)
Lemma partition_with_share z share :
  shares !! z = Some share →
  exactly_one (verdicts (completed_report env shares b pieceNums pendingAudits)
                 skip (Share_NodeID share)).
Proof.
  intros Hz. set (n := Share_NodeID share).
  destruct partition_buckets as (Ho & Hf & Hu & Hc & _).
  destruct (partition_share z share Hz) as (_ & Hlimit & Hskip & _).
  pose proof (λ bucket, partition_nodes_in bucket z share Hz) as Hin. fold n in Hin.
  assert (n ∈ offlineNodes b ↔ classification_table share = Offline) as HO.
  { rewrite Ho, elem_of_app, Hin, elem_of_getOfflineNodes.
    split; [|by right]. by intros [(_ & ? & _)|?]. }
  assert (n ∈ unknownNodes b ↔ classification_table share = UnknownNode) as HU.
  { by rewrite Hu, Hin. }
  assert ((∃ z', containedNodes b !! z' = Some n)
          ↔ classification_table share = Contained) as HC.
  { split.
    - intros (z' & Hz'). apply Hc in Hz' as (share' & Hshare' & Htable & Hnode).
      destruct (partition_distinct z' share' z share Hshare' Hz Hnode) as [_ ->].
      done.
    - intros Htable. exists z. apply Hc. by exists share. }
  assert (n ∈ PA_NodeID <$> pendingAudits
          ↔ classification_table share = Contained) as HP.
  { destruct Hcompleted as (_ & _ & _ & _ & Hpending).
    by rewrite (createPendingAudits_nodes _ _ _ _ _ _ _ _ _ n Hpending). }
  set (failedNodes1 :=
         failedNodes b
         ++ ((λ pieceNum, Share_NodeID (share_at shares pieceNum)) <$> pieceNums)).
  assert (n ∈ failedNodes1 →
          classification_table share = Failed ∨ classification_table share = ToAudit)
    as HF1.
  { unfold failedNodes1. rewrite elem_of_app, Hf, Hin.
    intros [?|Hpn]; [by left|]. right.
    apply list_elem_of_fmap in Hpn as (z' & Hnode & Hz').
    destruct (partition_pieceNums z' Hz') as (share' & Hshare' & Htable).
    unfold share_at in Hnode. rewrite Hshare' in Hnode. simpl in Hnode.
    destruct (partition_distinct z share z' share' Hz Hshare' Hnode) as [_ ->].
    done. }
  assert (classification_table share = Failed → n ∈ failedNodes1) as HF2.
  { intros Htable. unfold failedNodes1. rewrite elem_of_app, Hf, Hin. by left. }
  assert (n ∈ getSuccessNodes (order_success env) shares failedNodes1
                (offlineNodes b) (unknownNodes b) (containedNodes b)
          ↔ classification_table share = ToAudit ∧ n ∉ failedNodes1) as HS.
  { rewrite elem_of_getSuccessNodes, HO, HU, HC. split.
    - intros (_ & Hnf & Hno & Hnu & Hnc). split; [|done].
      destruct (classification_table share); try done.
      exfalso. by apply Hnf, HF2.
    - intros [Htable Hnf]. rewrite Htable. split; [by exists z, share|done]. }
  change (skipped skip n = false) in Hskip.
  unfold exactly_one, verdicts, completed_report. simpl.
  fold failedNodes1. fold n. rewrite Hskip.
  destruct (classification_table share) eqn:Htable;
    repeat match goal with
           | |- context [bool_decide ?P] => destruct (bool_decide_reflect P)
           end;
    try reflexivity; exfalso; intuition congruence.
Qed.

(** A node that holds a piece and has no share is offline, unless it is
    skipped. *)
Lemma partition_without_share piece :
  piece ∈ pb.RemotePieces remote →
  pb.NodeId piece ∉ nodesWithLimit orderLimits →
  exactly_one (verdicts (completed_report env shares b pieceNums pendingAudits)
                 skip (pb.NodeId piece)).
Proof.
  intros Hpiece Hlimit. set (n := pb.NodeId piece).
  destruct partition_buckets as (Ho & Hf & Hu & Hc & _).
  assert (∀ z share, shares !! z = Some share → Share_NodeID share ≠ n) as Hnone.
  { intros z share Hz Hnode.
    destruct (partition_share z share Hz) as (_ & Hin & _). by rewrite Hnode in Hin. }
  assert (∀ bucket, n ∉ nodes_in bucket (go_range (order_classify env) shares))
    as Hin.
  { intros bucket Hin. apply elem_of_nodes_in in Hin as (z & share & Hz & _ & Hnode).
    apply elem_of_go_range in Hz. by apply (Hnone z share). }
  assert (n ∈ offlineNodes b ↔ skipped skip n = false) as HO.
  { rewrite Ho, elem_of_app, elem_of_getOfflineNodes. split.
    - intros [(_ & _ & ?)|?]; [done|]. by apply Hin in H.
    - intros Hskip. left. split; [|done]. exists piece. split; [|done].
      destruct Hcompleted as (_ & -> & _). done. }
  assert (n ∉ unknownNodes b) as HU by (rewrite Hu; apply Hin).
  assert (¬ ∃ z', containedNodes b !! z' = Some n) as HC.
  { intros (z' & Hz'). apply Hc in Hz' as (share & Hshare & _ & Hnode).
    by apply (Hnone z' share). }
  assert (n ∉ PA_NodeID <$> pendingAudits) as HP.
  { destruct Hcompleted as (_ & _ & _ & _ & Hpending).
    by rewrite (createPendingAudits_nodes _ _ _ _ _ _ _ _ _ n Hpending). }
  set (failedNodes1 :=
         failedNodes b
         ++ ((λ pieceNum, Share_NodeID (share_at shares pieceNum)) <$> pieceNums)).
  assert (n ∉ failedNodes1) as HF.
  { unfold failedNodes1. rewrite elem_of_app, Hf. intros [?|Hpn]; [by eapply Hin|].
    apply list_elem_of_fmap in Hpn as (z' & Hnode & Hz').
    destruct (partition_pieceNums z' Hz') as (share' & Hshare' & _).
    unfold share_at in Hnode. rewrite Hshare' in Hnode. simpl in Hnode.
    by apply (Hnone z' share'). }
  assert (n ∉ getSuccessNodes (order_success env) shares failedNodes1
                (offlineNodes b) (unknownNodes b) (containedNodes b)) as HS.
  { rewrite elem_of_getSuccessNodes. intros ((z & share & Hz & Hnode) & _).
    by apply (Hnone z share). }
  unfold exactly_one, verdicts, completed_report. simpl.
  fold failedNodes1. fold n.
  destruct (skipped skip n) eqn:Hskip;
    repeat match goal with
           | |- context [bool_decide ?P] => destruct (bool_decide_reflect P)
           end;
    try reflexivity; exfalso; intuition congruence.
Qed.

End partition.

(** C4, as the code has it.  When the audit runs to its end (the pointer
    is read, not expired and not altered during the audit, enough shares
    come without error, the erasure code and the construction of the
    pending audits succeed), the deferred function leaves the report as it
    is (PieceHashesVerified is true, or the verifier is used to verify
    piece hashes), the order limits are aligned with the pieces and leave
    out the skipped nodes, the pieces have distinct node IDs and Correct
    keeps the numbers of the shares: [Verify] returns a nil error, and the
    node of every piece of the pointer is in exactly one of Successes,
    Fails, Offlines, Unknown, PendingAudits (by node ID) and the skip
    set. *)
Theorem Verify_exactly_one verifier env path skip pointerBytes pointer randomIndex
    orderLimits shares b remote pieceNums correctedShares pendingAudits :
  Completed env path skip pointerBytes pointer randomIndex orderLimits shares b
    remote pieceNums correctedShares pendingAudits →
  UsedToVerifyPieceHashes verifier = true ∨ pb.PieceHashesVerified pointer = true →
  limits_aligned (pb.RemotePieces remote) skip orderLimits →
  NoDup (pb.NodeId <$> pb.RemotePieces remote) →
  Correct_keeps_numbers (fec env) →
  ∃ report,
    Verify verifier env path skip = Some (report, None, [])
    ∧ ∀ piece, piece ∈ pb.RemotePieces remote →
        exactly_one (verdicts report skip (pb.NodeId piece)).
Proof.
  intros Hcompleted Hguard Haligned Hnodup Hkeeps.
  exists (completed_report env shares b pieceNums pendingAudits). split.
  - pose proof Hcompleted as (((Hlive & _) & _) & _).
    rewrite (Verify_Live _ _ _ _ _ _ Hlive).
    rewrite (Verify_audit_Completed _ _ _ _ _ _ _ _ _ _ _ _ _ Hcompleted).
    unfold Verify_deferred.
    destruct Hguard as [-> | ->]; [done|].
    by destruct (UsedToVerifyPieceHashes verifier).
  - intros piece Hpiece.
    destruct (decide (pb.NodeId piece ∈ nodesWithLimit orderLimits)) as [Hlimit|Hlimit].
    + destruct (partition_limit _ _ _ _ _ _ _ _ _ _ _ _ _ Hcompleted _ Hlimit)
        as (z & share & Hz & <-).
      by eapply partition_with_share.
    + by eapply partition_without_share.
Qed.

Lemma timeout_env_Completed :
  ∃ shares b pieceNums correctedShares pendingAudits,
    Completed (audit_env true fault_timeout_1 rev_shuffle) demo_path ∅ [x01]
      (demo_pointer true 100 0) 0 demo_limits shares b
      (pb.mkRemoteSegment (Some demo_redundancy) 77%N demo_pieces)
      pieceNums correctedShares pendingAudits.
Proof.
  eexists _, _, _, _, _.
  split; [split; [solve_Downloaded|split; reflexivity]|].
  split; [reflexivity|]. split; [vm_compute; discriminate|].
  split; reflexivity.
Qed.

Lemma demo_limits_aligned : limits_aligned demo_pieces ∅ demo_limits.
Proof.
  intros [|[|[|[|i]]]] limit [= <-]; (split; [reflexivity|]);
    apply (bool_decide_unpack _); vm_compute; reflexivity.
Qed.

Lemma demo_pieces_NoDup : NoDup (pb.NodeId <$> demo_pieces).
Proof. apply (bool_decide_unpack _). vm_compute. reflexivity. Qed.

Lemma demo_fec_keeps_numbers : Correct_keeps_numbers demo_fec.
Proof. intros k n copies corrected [= <-]. reflexivity. Qed.

Lemma Verify_exactly_one_witness :
  ∃ report,
    Verify plain_verifier (audit_env true fault_timeout_1 rev_shuffle) demo_path ∅
      = Some (report, None, [])
    ∧ exactly_one (verdicts report ∅ 10%N)
    ∧ exactly_one (verdicts report ∅ 11%N)
    ∧ exactly_one (verdicts report ∅ 12%N)
    ∧ exactly_one (verdicts report ∅ 13%N).
Proof.
  destruct timeout_env_Completed
    as (shares & b & pieceNums & correctedShares & pendingAudits & Hcompleted).
  destruct (Verify_exactly_one plain_verifier _ _ _ _ _ _ _ _ _ _ _ _ _ Hcompleted)
    as (report & Hverify & Hone).
  - right. reflexivity.
  - apply demo_limits_aligned.
  - apply demo_pieces_NoDup.
  - apply demo_fec_keeps_numbers.
  - exists report. split; [exact Hverify|].
    split; [|split; [|split]].
    + apply (Hone (pb.mkRemotePiece 0 10%N)).
      apply (bool_decide_unpack _). vm_compute. reflexivity.
    + apply (Hone (pb.mkRemotePiece 1 11%N)).
      apply (bool_decide_unpack _). vm_compute. reflexivity.
    + apply (Hone (pb.mkRemotePiece 2 12%N)).
      apply (bool_decide_unpack _). vm_compute. reflexivity.
    + apply (Hone (pb.mkRemotePiece 3 13%N)).
      apply (bool_decide_unpack _). vm_compute. reflexivity.
Defined.

(** C4 as stated fails: [Verify] returns a nil error for the demo pointer
    with PieceHashesVerified false, whose pieces have distinct node IDs;
    node 10 holds piece 0, its share was not found, and the deferred
    function has emptied Fails: the node is in none of the sets. *)
Lemma Verify_unverified_node_in_no_set :
  Verify plain_verifier (audit_env false fault_not_found_0 id_shuffle) demo_path ∅
    = Some (mkReport [12%N; 11%N] [] [13%N] [] [], None, [])
  ∧ NoDup (pb.NodeId <$> demo_pieces)
  ∧ pb.mkRemotePiece 0 10%N ∈ demo_pieces
  ∧ verdicts (mkReport [12%N; 11%N] [] [13%N] [] []) ∅ 10%N
    = [false; false; false; false; false; false]
  ∧ ¬ exactly_one (verdicts (mkReport [12%N; 11%N] [] [13%N] [] []) ∅ 10%N).
Proof.
  split; [vm_compute; reflexivity|]. split; [apply demo_pieces_NoDup|].
  split; [apply (bool_decide_unpack _); vm_compute; reflexivity|].
  split; [vm_compute; reflexivity|].
  vm_compute. discriminate.
Qed.

(** ** The classification as the report shows it (C1) *)

(** What the deferred function of [Verify] does to each list. *)
Lemma Verify_deferred_lists verifier pointer audited :
  let kept := UsedToVerifyPieceHashes verifier || pb.PieceHashesVerified pointer in
  Successes (Verify_deferred verifier pointer audited) = Successes audited
  ∧ Offlines (Verify_deferred verifier pointer audited) = Offlines audited
  ∧ Unknown (Verify_deferred verifier pointer audited) = Unknown audited
  ∧ Fails (Verify_deferred verifier pointer audited)
    = (if kept then Fails audited else [])
  ∧ PendingAudits (Verify_deferred verifier pointer audited)
    = (if kept then PendingAudits audited else []).
Proof.
  unfold Verify_deferred.
  destruct (UsedToVerifyPieceHashes verifier), (pb.PieceHashesVerified pointer); done.
Qed.

(** What [Verify] returns once the classification loop has run: the
    lists of the loop, the nodes of the altered shares added to the failed
    ones if the erasure check ran, and pending audits only if the audit
    ran to its end. *)
Lemma Verify_Classified_inv verifier env path skip pointerBytes pointer randomIndex
    orderLimits shares b report err calls :
  Classified env path skip pointerBytes pointer randomIndex orderLimits shares b →
  Verify verifier env path skip = Some (report, err, calls) →
  ∃ remote audited pieceNums,
    pb.Remote pointer = Some remote
    ∧ report = Verify_deferred verifier pointer audited
    ∧ Offlines audited = offlineNodes b
    ∧ Unknown audited = unknownNodes b
    ∧ Fails audited
      = failedNodes b
        ++ ((λ pieceNum, Share_NodeID (share_at shares pieceNum)) <$> pieceNums)
    ∧ (pieceNums = []
       ∨ ∃ corrected,
           auditShares (fec env) (order_copies env) (pb.GetMinReq (pb.Redundancy remote))
             (pb.GetTotal (pb.Redundancy remote)) (sharesToAudit b)
           = inl (pieceNums, corrected))
    ∧ match err with
      | Some _ => PendingAudits audited = []
      | None =>
          ∃ corrected pendingAudits,
            Completed env path skip pointerBytes pointer randomIndex orderLimits
              shares b remote pieceNums corrected pendingAudits
            ∧ audited = completed_report env shares b pieceNums pendingAudits
      end.
Proof.
  intros Hclassified Hverify.
  pose proof Hclassified
    as ((Hlive & Hstripe & bucket & key & Hparse & Hlimits & Hdl) & Halt & Hb).
  rewrite (Verify_Live _ _ _ _ _ _ Hlive) in Hverify.
  destruct (pb.Remote pointer) as [remote|] eqn:Hremote.
  2:{ unfold Verify_audit in Hverify.
      rewrite Hstripe, Hparse, Hlimits, Hremote, Hdl, Halt in Hverify. done. }
  rewrite (Verify_audit_Classified _ _ _ _ _ _ _ _ _ _ Hclassified Hremote) in Hverify.
  simpl in Hverify.
  destruct (Z.of_nat (size (sharesToAudit b)) <? pb.GetMinReq (pb.Redundancy remote))
    eqn:Hfew.
  { injection Hverify as <- <- <-. eexists remote, _, [].
    split; [done|]. split; [reflexivity|]. simpl. rewrite app_nil_r.
    repeat split; try done. by left. }
  destruct (auditShares (fec env) (order_copies env) (pb.GetMinReq (pb.Redundancy remote))
              (pb.GetTotal (pb.Redundancy remote)) (sharesToAudit b))
    as [[pieceNums corrected]|e] eqn:Haudit.
  2:{ injection Hverify as <- <- <-. eexists remote, _, [].
      split; [done|]. split; [reflexivity|]. simpl. rewrite app_nil_r.
      repeat split; try done. by left. }
  destruct (createPendingAudits (fec env) (pkcrypto_SHA256Hash env) (order_pending env)
              (containedNodes b) corrected pointer randomIndex path)
    as [[pendingAudits [e|]]|] eqn:Hpending; [| |done].
  - injection Hverify as <- <- <-. eexists remote, _, pieceNums.
    split; [done|]. split; [reflexivity|]. simpl.
    repeat split; try done. right. by exists corrected.
  - injection Hverify as <- <- <-. eexists remote, _, pieceNums.
    split; [done|]. split; [reflexivity|]. simpl.
    split; [done|]. split; [done|]. split; [done|].
    split; [right; by exists corrected|].
    exists corrected, pendingAudits. split; [|done].
    split; [done|]. split; [done|]. split; [by apply Z.ltb_ge|]. done.
Qed.

(** C1, as the code has it.  Whenever [Verify] has run its classification
    loop and returns, for every downloaded share: a transport error that
    is a deadline-exceeded or has status Unknown puts the node in the
    Offlines of the report; another transport error puts it in Unknown; an
    application NotFound puts it in Fails, which the deferred function
    empties when the pointer's PieceHashesVerified is false and the
    verifier is not used to verify piece hashes; an application
    DeadlineExceeded puts the node in the contained map under its piece
    number, and the report has a pending audit for it when [Verify]
    returns no error and Fails and PendingAudits are kept, while the
    report has no pending audit at all when [Verify] returns an error or
    the deferred function empties them; with an erasure code whose Correct
    keeps the numbers of the shares, such a node is in Fails only on
    account of another share of the same node; any other error puts the
    node in Unknown; a share without error is in the map of the shares to
    audit, which [Verify] hands to [auditShares] when it returns no error,
    and its node is then in Successes unless it is also among the failed,
    offline, unknown or contained nodes. *)
Theorem Verify_classification verifier env path skip pointerBytes pointer randomIndex
    orderLimits shares b report err calls pieceNum share :
  Classified env path skip pointerBytes pointer randomIndex orderLimits shares b →
  Verify verifier env path skip = Some (report, err, calls) →
  shares !! pieceNum = Some share →
  let n := Share_NodeID share in
  let kept := UsedToVerifyPieceHashes verifier || pb.PieceHashesVerified pointer in
  (∀ e, Share_Error share = Some e →
     errs.Has errs.RPCError e = true →
     errs.IsDeadlineExceeded e = true ∨ errs.IsRPC e rpcstatus.Unknown = true →
     n ∈ Offlines report)
  ∧ (∀ e, Share_Error share = Some e →
       errs.Has errs.RPCError e = true →
       errs.IsDeadlineExceeded e = false →
       errs.IsRPC e rpcstatus.Unknown = false →
       n ∈ Unknown report)
  ∧ (∀ e, Share_Error share = Some e →
       errs.Has errs.RPCError e = false →
       errs.IsRPC e rpcstatus.NotFound = true →
       if kept then n ∈ Fails report else Fails report = [])
  ∧ (∀ e, Share_Error share = Some e →
       errs.Has errs.RPCError e = false →
       errs.IsRPC e rpcstatus.DeadlineExceeded = true →
       containedNodes b !! pieceNum = Some n
       ∧ match err with
         | None =>
             if kept then ∃ pa, pa ∈ PendingAudits report ∧ PA_NodeID pa = n
             else PendingAudits report = []
         | Some _ => PendingAudits report = []
         end
       ∧ (Correct_keeps_numbers (fec env) →
          n ∈ Fails report →
          ∃ j share', j ≠ pieceNum ∧ shares !! j = Some share'
                      ∧ Share_NodeID share' = n))
  ∧ (∀ e, Share_Error share = Some e →
       errs.Has errs.RPCError e = false →
       errs.IsRPC e rpcstatus.NotFound = false →
       errs.IsRPC e rpcstatus.DeadlineExceeded = false →
       n ∈ Unknown report)
  ∧ (Share_Error share = None →
     sharesToAudit b !! pieceNum = Some share
     ∧ (err = None →
        ∃ remote pieceNums corrected,
          pb.Remote pointer = Some remote
          ∧ auditShares (fec env) (order_copies env)
              (pb.GetMinReq (pb.Redundancy remote))
              (pb.GetTotal (pb.Redundancy remote)) (sharesToAudit b)
            = inl (pieceNums, corrected)
          ∧ (n ∈ Successes report
             ∨ n ∈ failedNodes b
                   ++ ((λ pieceNum, Share_NodeID (share_at shares pieceNum))
                         <$> pieceNums)
             ∨ n ∈ Offlines report
             ∨ n ∈ Unknown report
             ∨ ∃ z, containedNodes b !! z = Some n))).
Proof.
  intros Hclassified Hverify Hshare n kept.
  destruct (Verify_Classified_inv _ _ _ _ _ _ _ _ _ _ _ _ _ Hclassified Hverify)
    as (remote & audited & pieceNums & Hremote & -> & Hoff & Hunk & Hfails
        & Hnums & Herr).
  destruct (Verify_deferred_lists verifier pointer audited)
    as (Hds & Hdo & Hdu & Hdf & Hdp).
  fold kept in Hdf, Hdp.
  pose proof Hclassified as ((_ & _ & bucket & key & _ & _ & Hdl) & _ & Hb).
  pose proof (classifyShares_by_error (order_classify env) shares
                (mkBuckets (getOfflineNodes pointer orderLimits skip) [] [] ∅ ∅)
                pieceNum share Hshare) as Hrows.
  simpl in Hrows. rewrite <- Hb in Hrows.
  destruct Hrows as (Haudited & Hoffline & Htransport & Hnotfound & Hcontained & Hother).
  rewrite Hdo, Hdu, Hoff, Hunk. fold n in Hoffline, Htransport, Hnotfound, Hcontained,
    Hother.
  split; [done|]. split; [done|]. split; [|split; [|split; [done|]]].
  - (* NotFound *)
    intros e He Hrpc Hnf. rewrite Hdf. destruct kept; [|done].
    rewrite Hfails. apply elem_of_app. left. by apply (Hnotfound e).
  - (* DeadlineExceeded *)
    intros e He Hrpc Hdeadline.
    destruct (Hcontained e He Hrpc Hdeadline) as [Hmap Hdirect].
    split; [done|]. split.
    + rewrite Hdp. destruct err as [err|].
      * rewrite Herr. by destruct kept.
      * destruct kept; [|done].
        destruct Herr as (corrected & pendingAudits & Hcompleted & ->).
        destruct Hcompleted as (_ & _ & _ & _ & Hpending). simpl.
        assert (n ∈ PA_NodeID <$> pendingAudits) as Hin.
        { apply (createPendingAudits_nodes _ _ _ _ _ _ _ _ _ _ Hpending).
          by exists pieceNum. }
        apply list_elem_of_fmap in Hin as (pa & Hpa & Hin). by exists pa.
    + intros Hkeeps Hin. rewrite Hdf in Hin.
      assert (n ∈ Fails audited) as Hin'.
      { destruct kept; [done|]. by apply elem_of_nil in Hin. }
      rewrite Hfails in Hin'. apply elem_of_app in Hin' as [Hin'|Hin'].
      * destruct (Hdirect Hin') as [Hnil|?]; [|done].
        by apply elem_of_nil in Hnil.
      * apply list_elem_of_fmap in Hin' as (j & Hj & Hin').
        destruct Hnums as [->|(corrected & Haudit)];
          [by apply elem_of_nil in Hin'|].
        destruct (auditShares_pieceNums _ _ _ _ _ _ _ _ Hkeeps Haudit Hin')
          as (k & original & Hk & Hnum).
        rewrite Hb, sharesToAudit_classifyShares in Hk.
        apply map_lookup_filter_Some in Hk as [Hk Hnil]. simpl in Hnil.
        destruct (DownloadShares_inv _ _ _ _ _ _ _ _ Hdl) as [_ Hkeys].
        destruct (Hkeys k original Hk) as [Hpiece _].
        assert (k = j) as -> by congruence.
        exists j, original. split; [|split; [done|]].
        -- intros ->. congruence.
        -- unfold share_at in Hj. by rewrite Hk in Hj.
  - (* no error *)
    intros Hnil. split; [by apply Haudited|]. intros ->.
    destruct Herr as (corrected & pendingAudits & Hcompleted & ->).
    destruct Hcompleted as (_ & _ & _ & Haudit & _).
    exists remote, pieceNums, corrected. split; [done|]. split; [done|].
    rewrite Hds. simpl.
    destruct (decide (n ∈ failedNodes b
                          ++ ((λ pieceNum, Share_NodeID (share_at shares pieceNum))
                                <$> pieceNums))) as [?|Hf]; [by right; left|].
    destruct (decide (n ∈ offlineNodes b)) as [?|Ho]; [by right; right; left|].
    destruct (decide (n ∈ unknownNodes b)) as [?|Hu];
      [by right; right; right; left|].
    destruct (decide (n ∈ (map_to_list (containedNodes b)).*2)) as [Hc|Hc].
    { right. right. right. right.
      apply list_elem_of_fmap in Hc as ([z m] & -> & Hc).
      apply elem_of_map_to_list in Hc. by exists z. }
    left. apply elem_of_getSuccessNodes.
    split; [by exists pieceNum, share|]. split; [done|]. split; [done|].
    split; [done|]. intros [z Hz]. apply Hc. apply list_elem_of_fmap.
    exists (z, n). split; [done|]. by apply elem_of_map_to_list.
Qed.

Lemma timeout_env_Classified :
  Classified (audit_env true fault_timeout_1 rev_shuffle) demo_path ∅ [x01]
    (demo_pointer true 100 0) 0 demo_limits
    (demo_shares no_fault fault_timeout_1 rev_shuffle)
    (classifyShares rev_shuffle (demo_shares no_fault fault_timeout_1 rev_shuffle)
       (mkBuckets [13%N] [] [] ∅ ∅)).
Proof.
  split; [solve_Downloaded|]. split; reflexivity.
Qed.

Lemma Verify_classification_witness :
  containedNodes
    (classifyShares rev_shuffle (demo_shares no_fault fault_timeout_1 rev_shuffle)
       (mkBuckets [13%N] [] [] ∅ ∅)) !! 1
  = Some 11%N
  ∧ ∃ pa,
      pa ∈ [mkPendingAudit 11%N 77%N 0 4 [x00; x04; x03; x02] demo_path]
      ∧ PA_NodeID pa = 11%N.
Proof.
  destruct (Verify_classification plain_verifier
              (audit_env true fault_timeout_1 rev_shuffle) demo_path ∅ [x01]
              (demo_pointer true 100 0) 0 demo_limits
              (demo_shares no_fault fault_timeout_1 rev_shuffle)
              (classifyShares rev_shuffle
                 (demo_shares no_fault fault_timeout_1 rev_shuffle)
                 (mkBuckets [13%N] [] [] ∅ ∅))
              (mkReport [10%N; 12%N] [] [13%N]
                 [mkPendingAudit 11%N 77%N 0 4 [x00; x04; x03; x02] demo_path] [])
              None [] 1 (mkShare (Some err_download_timeout) 1 11%N [])
              timeout_env_Classified)
    as (_ & _ & _ & Hcontained & _).
  - vm_compute. reflexivity.
  - reflexivity.
  - destruct (Hcontained err_download_timeout) as (Hmap & Hpending & _);
      [reflexivity|reflexivity|reflexivity|].
    split; [exact Hmap|exact Hpending].
Defined.

(** C1 as stated fails: a share that ends with an application
    DeadlineExceeded does not always become a pending audit.  Piece 1 of
    the demo segment times out during the download.  When piece 0 is not
    found either, too few shares are left, and [Verify] returns
    ErrNotEnoughShares with a report without pending audits, although the
    piece hashes are verified.  When the other pieces are served and the
    piece hashes are not verified, [Verify] returns no error and the
    deferred function has emptied PendingAudits: node 11 is nowhere in the
    report. *)
Lemma Verify_contained_not_pending :
  demo_shares no_fault fault_two id_shuffle !! 1
    = Some (mkShare (Some err_download_timeout) 1 11%N [])
  ∧ demo_shares no_fault fault_timeout_1 id_shuffle !! 1
    = Some (mkShare (Some err_download_timeout) 1 11%N [])
  ∧ errs.Has errs.RPCError err_download_timeout = false
  ∧ errs.IsRPC err_download_timeout rpcstatus.DeadlineExceeded = true
  ∧ Verify plain_verifier (audit_env true fault_two id_shuffle) demo_path ∅
    = Some (mkReport [] [10%N] [13%N] [] [],
            Some (errs.New errs.ErrNotEnoughShares (errs.MsgGotRequired 1 2)), [])
  ∧ Verify plain_verifier (audit_env false fault_timeout_1 id_shuffle) demo_path ∅
    = Some (mkReport [12%N; 10%N] [] [13%N] [] [], None, []).
Proof.
  split; [reflexivity|]. split; [reflexivity|]. split; [reflexivity|].
  split; [reflexivity|]. split; vm_compute; reflexivity.
Qed.

(** * Further properties of the verifier *)

(** ** [GetShare] *)

(** X1.  With a share size that is not negative, [GetShare] returns a
    share without error exactly when the dial, the download request, the
    read of the whole share and the close of the download all succeed; the
    share then holds the bytes read, the piece number asked for and the
    node of the order limit.  A download that fails to close turns a
    complete read into an error. *)
Theorem GetShare_success net limit key stripeIndex shareSize pieceNum share :
  0 ≤ shareSize →
  GetShare net limit key stripeIndex shareSize pieceNum = Some (share, None)
  ↔ piecestore_DialNodeURL net pieceNum limit = None
    ∧ ps_Download net pieceNum limit key (wrap64 (shareSize * stripeIndex)) shareSize
      = None
    ∧ downloader_Close net pieceNum limit = None
    ∧ ∃ buf, io_ReadFull net pieceNum limit shareSize = inl buf
             ∧ share = mkShare None pieceNum (pb.StorageNodeId limit) buf.
Proof.
  intros Hsize. apply Z.ltb_ge in Hsize. unfold GetShare. split.
  - destruct (piecestore_DialNodeURL net pieceNum limit); [done|].
    destruct (ps_Download net pieceNum limit key _ shareSize); [done|].
    rewrite Hsize.
    destruct (io_ReadFull net pieceNum limit shareSize) as [buf|err];
      destruct (downloader_Close net pieceNum limit); try done.
    intros [= <-]. split; [done|]. split; [done|]. split; [done|]. by exists buf.
  - intros (-> & -> & -> & buf & -> & ->). by rewrite Hsize.
Qed.

Lemma GetShare_success_witness :
  GetShare (demo_net no_fault no_fault demo_data)
    (pb.mkAddressedOrderLimit 11%N "n11") 9%N 0 4 1
  = Some (mkShare None 1 11%N [x05; x06; x07; x08], None).
Proof.
  apply (GetShare_success (demo_net no_fault no_fault demo_data)
           (pb.mkAddressedOrderLimit 11%N "n11") 9%N 0 4 1); [done|].
  split; [reflexivity|]. split; [reflexivity|]. split; [reflexivity|].
  by exists [x05; x06; x07; x08].
Defined.

(** ** [GetRandomStripe] *)

(** X2.  For a redundancy strategy with a positive stripe size and a
    random source that keeps the contract of Int63n (a result in [0, n)
    for a positive n), [GetRandomStripe] returns without error, the index
    is not negative, it is 0 for a segment smaller than a stripe, and
    otherwise the stripe of that index lies within the segment. *)
Theorem GetRandomStripe_within_segment env pointer stripeSize :
  eestream_StripeSize env (pb.GetRedundancy (pb.Remote pointer)) = inl stripeSize →
  0 < stripeSize →
  (∀ n, 0 < n → 0 ≤ rand_Int63n env n < n) →
  ∃ index,
    GetRandomStripe env pointer = Some (index, None)
    ∧ 0 ≤ index
    ∧ (pb.SegmentSize pointer < stripeSize → index = 0)
    ∧ (stripeSize ≤ pb.SegmentSize pointer →
       (index + 1) * stripeSize ≤ pb.SegmentSize pointer).
Proof.
  intros Hstrategy Hpos Hrand. unfold GetRandomStripe. rewrite Hstrategy.
  destruct (pb.SegmentSize pointer <? stripeSize) eqn:Hsmall.
  - apply Z.ltb_lt in Hsmall. exists 0. split; [done|]. split; [done|].
    split; [done|]. lia.
  - apply Z.ltb_ge in Hsmall.
    rewrite (proj2 (Z.eqb_neq stripeSize 0)) by lia.
    rewrite Z.quot_div_nonneg by lia.
    assert (1 ≤ pb.SegmentSize pointer `div` stripeSize) as Hstripes.
    { apply Z.div_le_lower_bound; lia. }
    rewrite (proj2 (Z.leb_gt _ 0)) by lia.
    destruct (Hrand (pb.SegmentSize pointer `div` stripeSize)) as [Hlo Hhi]; [lia|].
    eexists. split; [reflexivity|]. split; [done|]. split; [lia|].
    intros _.
    pose proof (Z.mul_div_le (pb.SegmentSize pointer) stripeSize Hpos). nia.
Qed.

Lemma GetRandomStripe_within_segment_witness :
  ∃ index,
    GetRandomStripe (audit_env true no_fault id_shuffle) (demo_pointer true 100 0)
      = Some (index, None)
    ∧ 0 ≤ index
    ∧ (pb.SegmentSize (demo_pointer true 100 0) < 8 → index = 0)
    ∧ (8 ≤ pb.SegmentSize (demo_pointer true 100 0) →
       (index + 1) * 8 ≤ pb.SegmentSize (demo_pointer true 100 0)).
Proof.
  apply (GetRandomStripe_within_segment (audit_env true no_fault id_shuffle)
           (demo_pointer true 100 0) 8); [reflexivity | lia |].
  intros n Hn. simpl. lia.
Defined.

(** ** [checkIfSegmentAltered] *)

(** X3.  [checkIfSegmentAltered] returns nil exactly when the pointer is
    found again with the bytes it had and, if the old pointer is given,
    with the CreationDate it had. *)
Theorem checkIfSegmentAltered_unaltered refetch segmentKey oldPointer oldPointerBytes :
  checkIfSegmentAltered refetch segmentKey oldPointer oldPointerBytes = None
  ↔ ∃ newPointer,
      refetch = inl (oldPointerBytes, newPointer)
      ∧ ∀ old, oldPointer = Some old →
          pb.CreationDate old = pb.CreationDate newPointer.
Proof.
  unfold checkIfSegmentAltered, bytes_Equal. split.
  - destruct refetch as [[newBytes newPointer]|err].
    + destruct oldPointer as [old|].
      * case_bool_decide as Hdate; [done|]. case_bool_decide as Hbytes; [|done].
        intros _. exists newPointer. subst. split; [done|].
        intros old' [= <-]. by destruct (decide (pb.CreationDate old
                                                = pb.CreationDate newPointer)).
      * case_bool_decide as Hbytes; [|done]. intros _. exists newPointer.
        subst. done.
    + by destruct (errs.Has errs.ErrObjectNotFound err).
  - intros (newPointer & -> & Hdate). destruct oldPointer as [old|].
    + rewrite bool_decide_eq_false_2 by (intros Hne; apply Hne; by apply Hdate).
      by rewrite bool_decide_eq_true_2.
    + by rewrite bool_decide_eq_true_2.
Qed.

(** ** The sets of a report of [Verify] *)

(** Whatever way the audit returns, its Successes are empty or come from
    [getSuccessNodes] on the Fails, Offlines and Unknown of the same report
    and on a contained map that holds the nodes of its pending audits. *)
Lemma Verify_audit_successes env path skip pointerBytes pointer audited err :
  Verify_audit env path skip pointerBytes pointer = Some (audited, err) →
  Successes audited = []
  ∨ ∃ shares contained,
      Successes audited =
        getSuccessNodes (order_success env) shares (Fails audited)
          (Offlines audited) (Unknown audited) contained
      ∧ ∀ n, n ∈ PA_NodeID <$> PendingAudits audited →
             ∃ z, contained !! z = Some n.
Proof.
  intros Haudit. unfold Verify_audit in Haudit.
  destruct (GetRandomStripe env pointer) as [[randomIndex [err0|]]|];
    [injection Haudit as <- <-; by left| |done].
  destruct (metabase_ParseSegmentKey env path) as [bucket|err0];
    [|injection Haudit as <- <-; by left].
  destruct (orders_CreateAuditOrderLimits env bucket pointer skip)
    as [[orderLimits key]|err0]; [|injection Haudit as <- <-; by left].
  destruct (DownloadShares _ _ _ _ _ _) as [[shares [err0|]]|];
    [injection Haudit as <- <-; by left| |done].
  destruct (checkIfSegmentAltered _ _ _ _) as [err0|].
  { destruct (errs.Has errs.ErrSegmentDeleted err0);
      [injection Haudit as <- <-; by left|].
    destruct (errs.Has errs.ErrSegmentModified err0);
      injection Haudit as <- <-; by left. }
  destruct (pb.Remote pointer) as [remote|]; [|done].
  destruct (Z.of_nat _ <? _); [injection Haudit as <- <-; by left|].
  destruct (auditShares _ _ _ _ _) as [[pieceNums correctedShares]|err0];
    [|injection Haudit as <- <-; by left].
  destruct (createPendingAudits _ _ _ _ _ _ _ _) as [[pendingAudits [err0|]]|]
    eqn:Hpending; [| |done].
  - injection Haudit as <- <-. right. eexists shares, _. split; [reflexivity|].
    simpl. intros n Hn. by apply elem_of_nil in Hn.
  - injection Haudit as <- <-. right. eexists shares, _. split; [reflexivity|].
    simpl. intros n Hn.
    by apply (createPendingAudits_nodes _ _ _ _ _ _ _ _ _ n Hpending).
Qed.

(** X4.  In every report [Verify] returns, with or without an error, a
    node listed in Successes is in none of Fails, Offlines, Unknown and
    PendingAudits. *)
Theorem Verify_successes_disjoint verifier env path skip report err calls n :
  Verify verifier env path skip = Some (report, err, calls) →
  n ∈ Successes report →
  (n ∉ Fails report) ∧ (n ∉ Offlines report) ∧ (n ∉ Unknown report)
  ∧ (n ∉ PA_NodeID <$> PendingAudits report).
Proof.
  intros Hverify Hn.
  destruct (Verify_inv _ _ _ _ _ _ _ Hverify)
    as [[-> _]|(pointerBytes & pointer & audited & _ & Haudit & -> & _)].
  { by apply elem_of_nil in Hn. }
  assert (n ∈ Successes audited) as Hn'.
  { unfold Verify_deferred in Hn.
    destruct (UsedToVerifyPieceHashes verifier); [done|].
    by destruct (pb.PieceHashesVerified pointer). }
  assert ((n ∉ Fails audited) ∧ (n ∉ Offlines audited) ∧ (n ∉ Unknown audited)
          ∧ (n ∉ PA_NodeID <$> PendingAudits audited)) as (Hf & Ho & Hu & Hp).
  { destruct (Verify_audit_successes _ _ _ _ _ _ _ Haudit)
      as [Hnil|(shares & contained & Hsucc & Hpending)].
    { rewrite Hnil in Hn'. by apply elem_of_nil in Hn'. }
    rewrite Hsucc in Hn'.
    apply elem_of_getSuccessNodes in Hn' as (_ & ? & ? & ? & Hc).
    split; [done|]. split; [done|]. split; [done|].
    intros Hin. apply Hc. by apply Hpending. }
  unfold Verify_deferred.
  destruct (UsedToVerifyPieceHashes verifier); [done|].
  destruct (pb.PieceHashesVerified pointer); simpl; [done|].
  split; [apply not_elem_of_nil|]. split; [done|]. split; [done|].
  apply not_elem_of_nil.
Qed.

Lemma Verify_successes_disjoint_witness :
  let report :=
    mkReport [10%N; 12%N] [] [13%N]
      [mkPendingAudit 11%N 77%N 0 4 [x00; x04; x03; x02] demo_path] [] in
  (10%N ∉ Fails report) ∧ (10%N ∉ Offlines report) ∧ (10%N ∉ Unknown report)
  ∧ (10%N ∉ PA_NodeID <$> PendingAudits report).
Proof.
  intros report.
  apply (Verify_successes_disjoint plain_verifier
           (audit_env true fault_timeout_1 rev_shuffle) demo_path ∅ report None []
           10%N timeout_env_Verify).
  simpl. left.
Defined.

(** ** [auditShares] *)

Lemma filter_nil_Forall {A} (P : A → Prop) `{!∀ x, Decision (P x)} (l : list A) :
  Forall (λ x, ¬ P x) l → filter P l = [].
Proof.
  induction 1 as [|x l Hx _ IH]; [done|].
  rewrite filter_cons. by rewrite decide_False.
Qed.

(** X5.  When every share is stored under its own piece number, as the
    shares of [DownloadShares] are, and [Correct] leaves the copies as
    they are, [auditShares] reports no altered piece number and returns
    the copies. *)
Theorem auditShares_nothing_corrected lib order required total originals :
  (∀ key share, originals !! key = Some share → Share_PieceNum share = key) →
  infectious.NewFEC lib required total = None →
  infectious.Correct lib required total (makeCopies order originals)
    = inl (makeCopies order originals) →
  auditShares lib order required total originals
    = inl ([], makeCopies order originals).
Proof.
  intros Hkeys Hfec Hcorrect. unfold auditShares. rewrite Hfec, Hcorrect.
  rewrite filter_nil_Forall; [done|].
  apply Forall_forall. intros copy Hcopy. unfold makeCopies in Hcopy.
  apply list_elem_of_fmap in Hcopy as ([key original] & -> & Hentry).
  apply elem_of_go_range in Hentry. simpl.
  unfold share_at. rewrite (Hkeys key original Hentry), Hentry. simpl.
  unfold bytes_Equal. by rewrite bool_decide_eq_true_2.
Qed.

Lemma auditShares_nothing_corrected_witness :
  auditShares demo_fec rev_shuffle 2 4
    (filter (λ entry : Z * Share, Share_Error entry.2 = None)
       (demo_shares no_fault fault_timeout_1 id_shuffle))
  = inl ([], [infectious.mkShare 0 (demo_data 0); infectious.mkShare 2 (demo_data 2)]).
Proof.
  assert (makeCopies rev_shuffle
            (filter (λ entry : Z * Share, Share_Error entry.2 = None)
               (demo_shares no_fault fault_timeout_1 id_shuffle))
          = [infectious.mkShare 0 (demo_data 0); infectious.mkShare 2 (demo_data 2)])
    as Hcopies by (vm_compute; reflexivity).
  rewrite <- Hcopies.
  apply (auditShares_nothing_corrected demo_fec rev_shuffle 2 4
           (filter (λ entry : Z * Share, Share_Error entry.2 = None)
              (demo_shares no_fault fault_timeout_1 id_shuffle))).
  - intros key share Hshare. apply map_lookup_filter_Some in Hshare as [Hshare _].
    assert (DownloadShares (demo_net no_fault fault_timeout_1 demo_data) id_shuffle
              demo_limits 9%N 0 4
            = Some (demo_shares no_fault fault_timeout_1 id_shuffle, None)) as Hdl
      by reflexivity.
    apply DownloadShares_inv in Hdl as [_ Hkeys].
    by destruct (Hkeys key share Hshare).
  - reflexivity.
  - reflexivity.
Defined.

(** ** [rebuildStripe] *)

Lemma copy_at_spec (stripe : list byte) (off : Z) (data : list byte) :
  0 ≤ off → (Z.to_nat off + length data ≤ length stripe)%nat →
  ∃ stripe' : list byte,
    copy_at stripe off data = Some stripe'
    ∧ length stripe' = length stripe
    ∧ ∀ i : nat,
        stripe' !! i =
          if decide (Z.to_nat off ≤ i < Z.to_nat off + length data)%nat
          then data !! (i - Z.to_nat off)%nat else stripe !! i.
Proof.
  intros Hoff Hfits. unfold copy_at.
  rewrite (proj2 (Z.ltb_ge off 0)) by lia.
  rewrite (proj2 (Z.ltb_ge (Z.of_nat (length stripe)) off)) by lia.
  cbn [orb]. set (o := Z.to_nat off) in *.
  rewrite (take_ge data) by lia.
  exists (take o stripe ++ data ++ drop (o + length data) stripe).
  split; [done|].
  assert (length (take o stripe) = o) as Hlen.
  { rewrite length_take. lia. }
  split.
  - rewrite !length_app, Hlen, length_drop. lia.
  - intros i. case_decide as Hi.
    + rewrite lookup_app_r by lia. rewrite Hlen.
      by rewrite lookup_app_l by lia.
    + destruct (decide (i < o)%nat) as [Hlt|Hge].
      * rewrite lookup_app_l by lia. by rewrite lookup_take_lt.
      * rewrite lookup_app_r by lia. rewrite Hlen.
        rewrite lookup_app_r by lia.
        rewrite lookup_drop. f_equal. lia.
Qed.

Lemma rebuildStripe_output_spec (shareSize : Z) (emitted : list infectious.Share)
    (stripe : list byte) :
  0 ≤ shareSize →
  (∀ share, share ∈ emitted →
     0 ≤ infectious.Number share
     ∧ length (infectious.Data share) = Z.to_nat shareSize
     ∧ (Z.to_nat (infectious.Number share * shareSize) + Z.to_nat shareSize
        ≤ length stripe)%nat) →
  NoDup (infectious.Number <$> emitted) →
  ∃ stripe' : list byte,
    rebuildStripe_output shareSize stripe emitted = Some stripe'
    ∧ length stripe' = length stripe
    ∧ (∀ i : nat,
         (∀ share, share ∈ emitted →
            ¬ (Z.to_nat (infectious.Number share * shareSize) ≤ i
               < Z.to_nat (infectious.Number share * shareSize) + Z.to_nat shareSize)%nat) →
         stripe' !! i = stripe !! i)
    ∧ (∀ share (i : nat), share ∈ emitted → (i < Z.to_nat shareSize)%nat →
         stripe' !! (Z.to_nat (infectious.Number share * shareSize) + i)%nat
         = infectious.Data share !! i).
Proof.
  intros Hsize. revert stripe.
  induction emitted as [|share emitted IH]; intros stripe Hshares Hnd.
  - exists stripe. split; [done|]. split; [done|]. split; [done|].
    intros share i Hin. by apply elem_of_nil in Hin.
  - simpl in *. apply NoDup_cons in Hnd as [Hfresh Hnd].
    destruct (Hshares share) as (Hnum & Hlen & Hfits); [by left|].
    destruct (copy_at_spec stripe (infectious.Number share * shareSize)
                (infectious.Data share)) as (stripe1 & -> & Hlen1 & Hlookup1);
      [lia|lia|].
    destruct (IH stripe1) as (stripe' & -> & Hlen' & Hother & Hdata); [|done|].
    { intros share' Hin. destruct (Hshares share') as (? & ? & ?); [by right|].
      rewrite Hlen1. done. }
    exists stripe'. split; [done|]. split; [congruence|]. split.
    + intros i Hfree. rewrite Hother.
      * rewrite Hlookup1. rewrite decide_False; [done|].
        rewrite Hlen. apply Hfree. by left.
      * intros share' Hin. apply Hfree. by right.
    + intros share' i Hin Hi. apply elem_of_cons in Hin as [->|Hin].
      * rewrite Hother.
        -- rewrite Hlookup1, decide_True by lia. f_equal. lia.
        -- intros share' Hin' Hcover.
           destruct (Hshares share') as (Hnum' & _ & _); [by right|].
           assert (infectious.Number share' ≠ infectious.Number share) as Hne.
           { intros Heq. apply Hfresh. rewrite <- Heq.
             apply list_elem_of_fmap. by exists share'. }
           rewrite !Z2Nat.inj_mul in Hcover by lia.
           assert (Z.to_nat (infectious.Number share')
                   ≠ Z.to_nat (infectious.Number share)) as Hne' by lia.
           nia.
      * by apply Hdata.
Qed.

(** X6.  When [Rebuild] hands over, without error, shares with distinct
    numbers in [0, required), each of the share size, [rebuildStripe]
    returns a stripe of [required * shareSize] bytes in which the bytes of
    the share numbered [j] are the bytes from [j * shareSize] on. *)
Theorem rebuildStripe_places_shares lib required total corrected shareSize emitted :
  0 ≤ required → 0 ≤ shareSize →
  infectious.Rebuild lib required total corrected = (emitted, None) →
  (∀ share, share ∈ emitted →
     0 ≤ infectious.Number share < required
     ∧ length (infectious.Data share) = Z.to_nat shareSize) →
  NoDup (infectious.Number <$> emitted) →
  ∃ stripe : list byte,
    rebuildStripe lib required total corrected shareSize = Some (inl stripe)
    ∧ length stripe = Z.to_nat (required * shareSize)
    ∧ ∀ share (i : nat), share ∈ emitted → (i < Z.to_nat shareSize)%nat →
        stripe !! (Z.to_nat (infectious.Number share * shareSize) + i)%nat
        = infectious.Data share !! i.
Proof.
  intros Hrequired Hsize Hrebuild Hshares Hnd. unfold rebuildStripe.
  rewrite (proj2 (Z.ltb_ge (required * shareSize) 0)) by nia.
  rewrite Hrebuild.
  destruct (rebuildStripe_output_spec shareSize emitted
              (replicate (Z.to_nat (required * shareSize)) x00))
    as (stripe & -> & Hlen & _ & Hdata); [done| |done|].
  { intros share Hin. destruct (Hshares share Hin) as [[Hlo Hhi] Hlen].
    split; [done|]. split; [done|]. rewrite length_replicate.
    rewrite !Z2Nat.inj_mul by lia.
    assert (Z.to_nat (infectious.Number share) < Z.to_nat required)%nat by lia.
    nia. }
  exists stripe. split; [done|]. split; [|done].
  by rewrite Hlen, length_replicate.
Qed.

Lemma rebuildStripe_places_shares_witness :
  ∃ stripe : list byte,
    rebuildStripe demo_fec 2 4
      [infectious.mkShare 1 (demo_data 1); infectious.mkShare 2 (demo_data 2);
       infectious.mkShare 0 (demo_data 0)] 4 = Some (inl stripe)
    ∧ length stripe = 8%nat
    ∧ stripe !! 5%nat = Some x06.
Proof.
  destruct (rebuildStripe_places_shares demo_fec 2 4
              [infectious.mkShare 1 (demo_data 1); infectious.mkShare 2 (demo_data 2);
               infectious.mkShare 0 (demo_data 0)] 4
              [infectious.mkShare 1 (demo_data 1); infectious.mkShare 0 (demo_data 0)])
    as (stripe & Hstripe & Hlen & Hdata).
  - lia.
  - lia.
  - reflexivity.
  - intros share Hin. apply elem_of_cons in Hin as [->|Hin]; [simpl; split; [lia|done]|].
    apply list_elem_of_singleton in Hin as ->. simpl. split; [lia|done].
  - apply (bool_decide_unpack _). vm_compute. reflexivity.
  - exists stripe. split; [exact Hstripe|]. split; [exact Hlen|].
    apply (Hdata (infectious.mkShare 1 (demo_data 1)) 1%nat); [by left|simpl; lia].
Defined.

(** ** [createPendingAudits] *)

Lemma createPendingAudits_loop_error lib sha256 required total shareSize stripeData
    pointer randomIndex path entries pending0 pending err :
  createPendingAudits_loop lib sha256 required total shareSize stripeData pointer
    randomIndex path entries pending0 = Some (pending, Some err) →
  pending = [] ∧ errs.Has errs.Error err = true.
Proof.
  revert pending0. induction entries as [|[pieceNum nodeID] entries IH];
    intros pending0 Hloop; [done|].
  simpl in Hloop. destruct (shareSize <? 0); [done|].
  destruct (infectious.EncodeSingle _ _ _ _ _ _) as [share|err'].
  - destruct (pb.Remote pointer); [|done]. by eapply IH.
  - injection Hloop as <- <-. split; reflexivity.
Qed.

(** X7.  When [createPendingAudits] returns without error, it returns as
    many pending audits as nodes are contained; when it returns an error,
    the error is in the audit error class and no pending audit is
    returned. *)
Theorem createPendingAudits_count lib sha256 order contained correctedShares pointer
    randomIndex path pending err :
  createPendingAudits lib sha256 order contained correctedShares pointer randomIndex path
    = Some (pending, err) →
  match err with
  | None => length pending = size contained
  | Some err => pending = [] ∧ errs.Has errs.Error err = true
  end.
Proof.
  intros Hcreate. destruct err as [err|].
  - unfold createPendingAudits in Hcreate.
    destruct (bool_decide (size contained = 0%nat)); [done|].
    assert (∀ e, errs.Has errs.Error (errs.Wrap errs.Error e) = true) as Hwrap.
    { intros e. reflexivity. }
    destruct (infectious.NewFEC lib _ _);
      [injection Hcreate as <- <-; by split|].
    destruct (rebuildStripe lib _ _ _ _) as [[stripeData|err']|]; [| |done].
    + by eapply createPendingAudits_loop_error.
    + injection Hcreate as <- <-. by split.
  - apply createPendingAudits_spec in Hcreate
      as [[-> ->]|(remote & stripeData & _ & _ & Hall)].
    + by rewrite map_size_empty.
    + rewrite <- (Forall2_length _ _ _ Hall). unfold go_range.
      rewrite (shuffle_perm order). apply length_map_to_list.
Qed.

Lemma createPendingAudits_count_witness :
  length [mkPendingAudit 11%N 77%N 0 4 [x00; x04; x03; x02] demo_path]
  = size ({[1 := 11%N]} : gmap Z NodeID).
Proof.
  apply (createPendingAudits_count demo_fec (λ b, reverse b) rev_shuffle
           {[1 := 11%N]}
           [infectious.mkShare 0 (demo_data 0); infectious.mkShare 2 (demo_data 2)]
           (demo_pointer true 100 0) 0 demo_path _ None).
  vm_compute. reflexivity.
Defined.

(** ** [VerifyPieceHashes]: when the pointer is updated *)

(** X8.  Every update [VerifyPieceHashes] asks of the metainfo store is
    for the audited path and for a remote pointer read in that pass with
    PieceHashesVerified false; the audit report of the pass has no error,
    its Successes are not empty and reach MinReq and the repair threshold;
    the pieces to remove are the pieces whose node is not in Successes, as
    many as the report has Fails, Offlines, PendingAudits and Unknown. *)
Theorem VerifyPieceHashes_updates_justified verifier penv path dryRun
    changed err calls key pointer toRemove :
  VerifyPieceHashes verifier penv path dryRun = Some (Some (changed, err, calls)) →
  CallUpdate key pointer toRemove ∈ calls →
  dryRun = false ∧ key = path
  ∧ ∃ n pointerBytes report calls' remote redundancy,
      vph_GetWithBytes penv n path = inl (pointerBytes, pointer)
      ∧ pb.PieceHashesVerified pointer = false
      ∧ pb.Type_ pointer = pb.Pointer_REMOTE
      ∧ VerifyPieceHashes_report verifier penv path n = Some (report, None, calls')
      ∧ pb.Remote pointer = Some remote ∧ pb.Redundancy remote = Some redundancy
      ∧ 0 < Z.of_nat (length (Successes report))
      ∧ pb.MinReq redundancy ≤ Z.of_nat (length (Successes report))
      ∧ pb.RepairThreshold redundancy ≤ Z.of_nat (length (Successes report))
      ∧ toRemove = filter (λ piece, pb.NodeId piece ∉ Successes report)
                     (pb.RemotePieces remote)
      ∧ length toRemove
        = (length (Fails report) + length (Offlines report)
           + length (PendingAudits report) + length (Unknown report))%nat.
Proof.
  assert (∀ n step calls0,
    VerifyPieceHashes_attempt verifier penv path dryRun n = Some (step, calls0) →
    CallUpdate key pointer toRemove ∈ calls0 →
    dryRun = false ∧ key = path
    ∧ ∃ pointerBytes report calls' remote redundancy,
        vph_GetWithBytes penv n path = inl (pointerBytes, pointer)
        ∧ pb.PieceHashesVerified pointer = false
        ∧ pb.Type_ pointer = pb.Pointer_REMOTE
        ∧ VerifyPieceHashes_report verifier penv path n = Some (report, None, calls')
        ∧ pb.Remote pointer = Some remote ∧ pb.Redundancy remote = Some redundancy
        ∧ 0 < Z.of_nat (length (Successes report))
        ∧ pb.MinReq redundancy ≤ Z.of_nat (length (Successes report))
        ∧ pb.RepairThreshold redundancy ≤ Z.of_nat (length (Successes report))
        ∧ toRemove = filter (λ piece, pb.NodeId piece ∉ Successes report)
                       (pb.RemotePieces remote)
        ∧ length toRemove
          = (length (Fails report) + length (Offlines report)
             + length (PendingAudits report) + length (Unknown report))%nat)
    as Hattempt.
  { intros n step calls0 Hstep Hin. unfold VerifyPieceHashes_attempt in Hstep.
    destruct (vph_GetWithBytes penv n path) as [[pointerBytes pointer0]|err0]
      eqn:Hget.
    2:{ destruct (errs.Has errs.ErrObjectNotFound err0);
          injection Hstep as <- <-; by apply elem_of_nil in Hin. }
    destruct (pb.PieceHashesVerified pointer0) eqn:Hflag;
      [injection Hstep as <- <-; by apply elem_of_nil in Hin|].
    case_bool_decide as Htype;
      [injection Hstep as <- <-; by apply elem_of_nil in Hin|].
    destruct (VerifyPieceHashes_report verifier penv path n)
      as [[[report [err0|]] calls']|] eqn:Hreport; [| |done].
    { injection Hstep as <- <-.
      by apply (VerifyPieceHashes_report_calls _ _ _ _ _ _ _ Hreport) in Hin. }
    pose proof (VerifyPieceHashes_report_calls _ _ _ _ _ _ _ Hreport) as Hnone.
    destruct (Z.of_nat (length (Successes report)) =? 0) eqn:Hzero;
      [injection Hstep as <- <-; by apply Hnone in Hin|].
    apply Z.eqb_neq in Hzero.
    destruct (pb.Remote pointer0) as [remote|] eqn:Hremote; [|done].
    destruct (pb.Redundancy remote) as [redundancy|] eqn:Hredundancy; [|done].
    destruct (_ <? pb.MinReq redundancy) eqn:Hmin;
      [injection Hstep as <- <-; by apply Hnone in Hin|].
    destruct (_ <? pb.RepairThreshold redundancy) eqn:Hrepair;
      [injection Hstep as <- <-; by apply Hnone in Hin|].
    apply Z.ltb_ge in Hmin, Hrepair.
    case_bool_decide as Hcount;
      [injection Hstep as <- <-; by apply Hnone in Hin|].
    destruct dryRun; [injection Hstep as <- <-; by apply Hnone in Hin|].
    assert (CallUpdate key pointer toRemove
            ∈ calls' ++ [CallUpdate path pointer0
                           (filter (λ piece,
                              NodeIDList_Contains (Successes report) (pb.NodeId piece)
                              = false) (pb.RemotePieces remote))]) as Hin'.
    { destruct (vph_Update penv n path pointer0 _) as [err0|].
      - destruct (errs.Has errs.ErrValueChanged err0);
          [by injection Hstep as <- <-|].
        destruct (errs.Has errs.ErrKeyNotFound err0); by injection Hstep as <- <-.
      - by injection Hstep as <- <-. }
    apply elem_of_app in Hin' as [Hin'|Hin']; [by apply Hnone in Hin'|].
    apply list_elem_of_singleton in Hin'. injection Hin' as -> -> ->.
    split; [done|]. split; [done|].
    exists pointerBytes, report, calls', remote, redundancy.
    assert (filter (λ piece,
              NodeIDList_Contains (Successes report) (pb.NodeId piece) = false)
              (pb.RemotePieces remote)
            = filter (λ piece, pb.NodeId piece ∉ Successes report)
                (pb.RemotePieces remote)) as Hfilter.
    { apply list_filter_iff. intros piece. unfold NodeIDList_Contains.
      by rewrite bool_decide_eq_false. }
    repeat (split; [first [done | lia | by destruct (pb.Type_ pointer0)]|]).
    lia. }
  unfold VerifyPieceHashes. intros Hloop Hin.
  assert (∀ fuel attempts n changed err calls,
    VerifyPieceHashes_loop fuel verifier penv path dryRun 3 attempts n
      = Some (Some (changed, err, calls)) →
    CallUpdate key pointer toRemove ∈ calls →
    ∃ m step calls0,
      VerifyPieceHashes_attempt verifier penv path dryRun m = Some (step, calls0)
      ∧ CallUpdate key pointer toRemove ∈ calls0) as Hpass.
  { clear Hloop Hin. induction fuel as [|fuel IH];
      intros attempts n changed' err' calls' Hloop Hin; [done|].
    simpl in Hloop. destruct (attempts <? 3); [|
      injection Hloop as <- <- <-; by apply elem_of_nil in Hin].
    destruct (VerifyPieceHashes_attempt verifier penv path dryRun n)
      as [[[changed0 err0|] calls0]|] eqn:Hstep; [| |done].
    - injection Hloop as <- <- <-. by exists n, (Return changed0 err0), calls0.
    - destruct (VerifyPieceHashes_loop fuel _ _ _ _ _ _ _)
        as [[[[changed1 err1] calls1]|]|] eqn:Hrest; [|done|done].
      injection Hloop as <- <- <-. apply elem_of_app in Hin as [Hin|Hin].
      + by exists n, Continue, calls0.
      + by eapply IH. }
  destruct (Hpass _ _ _ _ _ _ Hloop Hin) as (m & step & calls0 & Hstep & Hin0).
  destruct (Hattempt m step calls0 Hstep Hin0) as (Hdry & Hkey & Hrest).
  split; [done|]. split; [done|]. by exists m.
Qed.

Lemma races_twice_VerifyPieceHashes :
  VerifyPieceHashes piece_hashes_verifier (demo_penv no_fault update_races_twice)
    demo_path false =
  Some (Some (false,
              Some (errs.New errs.Error (errs.MsgFailedToModify 3)),
              [CallUpdate demo_path (demo_pointer false 100 0) [pb.mkRemotePiece 3 13%N];
               CallUpdate demo_path (demo_pointer false 100 0) [pb.mkRemotePiece 3 13%N]])).
Proof. vm_compute. reflexivity. Qed.

Lemma VerifyPieceHashes_updates_justified_witness :
  let penv := demo_penv no_fault update_races_twice in
  let pointer := demo_pointer false 100 0 in
  let toRemove := [pb.mkRemotePiece 3 13%N] in
  false = false ∧ demo_path = demo_path
  ∧ ∃ n pointerBytes report calls' remote redundancy,
      vph_GetWithBytes penv n demo_path = inl (pointerBytes, pointer)
      ∧ pb.PieceHashesVerified pointer = false
      ∧ pb.Type_ pointer = pb.Pointer_REMOTE
      ∧ VerifyPieceHashes_report piece_hashes_verifier penv demo_path n
        = Some (report, None, calls')
      ∧ pb.Remote pointer = Some remote ∧ pb.Redundancy remote = Some redundancy
      ∧ 0 < Z.of_nat (length (Successes report))
      ∧ pb.MinReq redundancy ≤ Z.of_nat (length (Successes report))
      ∧ pb.RepairThreshold redundancy ≤ Z.of_nat (length (Successes report))
      ∧ toRemove = filter (λ piece, pb.NodeId piece ∉ Successes report)
                     (pb.RemotePieces remote)
      ∧ length toRemove
        = (length (Fails report) + length (Offlines report)
           + length (PendingAudits report) + length (Unknown report))%nat.
Proof.
  intros penv pointer toRemove.
  apply (VerifyPieceHashes_updates_justified piece_hashes_verifier penv demo_path
           false _ _ _ demo_path pointer toRemove races_twice_VerifyPieceHashes).
  left.
Defined.

(** X9.  When [VerifyPieceHashes] returns true, its error is nil, and
    either the call was a dry run or the last call it made is an update of
    the pointer that the metainfo store accepted. *)
Theorem VerifyPieceHashes_changed verifier penv path dryRun err calls :
  VerifyPieceHashes verifier penv path dryRun = Some (Some (true, err, calls)) →
  err = None
  ∧ (dryRun = true
     ∨ ∃ n pointer toRemove calls',
         calls = calls' ++ [CallUpdate path pointer toRemove]
         ∧ vph_Update penv n path pointer toRemove = None).
Proof.
  assert (∀ n err0 calls0,
    VerifyPieceHashes_attempt verifier penv path dryRun n
      = Some (Return true err0, calls0) →
    err0 = None
    ∧ (dryRun = true
       ∨ ∃ pointer toRemove calls',
           calls0 = calls' ++ [CallUpdate path pointer toRemove]
           ∧ vph_Update penv n path pointer toRemove = None)) as Hattempt.
  { intros n err0 calls0 Hstep. unfold VerifyPieceHashes_attempt in Hstep.
    destruct (vph_GetWithBytes penv n path) as [[pointerBytes pointer]|e].
    2:{ by destruct (errs.Has errs.ErrObjectNotFound e). }
    destruct (pb.PieceHashesVerified pointer); [done|].
    case_bool_decide; [done|].
    destruct (VerifyPieceHashes_report verifier penv path n)
      as [[[report [e|]] calls']|]; [done| |done].
    destruct (_ =? 0); [done|].
    destruct (pb.Remote pointer) as [remote|]; [|done].
    destruct (pb.Redundancy remote) as [redundancy|]; [|done].
    destruct (_ <? pb.MinReq redundancy); [done|].
    destruct (_ <? pb.RepairThreshold redundancy); [done|].
    case_bool_decide; [done|].
    destruct dryRun; [injection Hstep as <- <-; split; [done|by left]|].
    destruct (vph_Update penv n path pointer _) as [e|] eqn:Hupdate.
    - destruct (errs.Has errs.ErrValueChanged e); [done|].
      by destruct (errs.Has errs.ErrKeyNotFound e).
    - injection Hstep as <- <-. split; [done|]. right. by eexists _, _, _. }
  unfold VerifyPieceHashes.
  generalize (S (Z.to_nat 3)) 0 0%nat. intros fuel. revert calls.
  induction fuel as [|fuel IH]; intros calls attempts n Hloop; [done|].
  simpl in Hloop. destruct (attempts <? 3); [|done].
  destruct (VerifyPieceHashes_attempt verifier penv path dryRun n)
    as [[[changed0 err0|] calls0]|] eqn:Hstep; [| |done].
  - injection Hloop as -> <- <-.
    destruct (Hattempt _ _ _ Hstep) as [-> [?|(pointer & toRemove & calls' & ? & ?)]];
      split; [done|by left|done|].
    right. by exists n, pointer, toRemove, calls'.
  - destruct (VerifyPieceHashes_loop fuel _ _ _ _ _ _ _)
      as [[[[changed1 err1] calls1]|]|] eqn:Hrest; [|done|done].
    injection Hloop as -> <- <-.
    destruct (IH _ _ _ Hrest) as [-> [?|(m & pointer & toRemove & calls' & -> & ?)]];
      split; [done|by left|done|].
    right. exists m, pointer, toRemove, (calls0 ++ calls').
    by rewrite app_assoc.
Qed.

Lemma VerifyPieceHashes_changed_witness :
  (None : option error) = None
  ∧ (false = true
     ∨ ∃ n pointer toRemove calls',
         [CallUpdate demo_path (demo_pointer false 100 0) [pb.mkRemotePiece 3 13%N]]
         = calls' ++ [CallUpdate demo_path pointer toRemove]
         ∧ vph_Update (demo_penv no_fault (λ _, None)) n demo_path pointer toRemove
           = None).
Proof.
  apply (VerifyPieceHashes_changed piece_hashes_verifier
           (demo_penv no_fault (λ _, None)) demo_path false None
           [CallUpdate demo_path (demo_pointer false 100 0) [pb.mkRemotePiece 3 13%N]]).
  vm_compute. reflexivity.
Defined.

(** * Properties of [Reverify] *)

(** ** The task of a pending audit *)

Lemma Reverify_analyze_status pending altered err :
  let r := Reverify_analyze pending altered err in
  result_nodeID r = PA_NodeID pending
  ∧ result_err r = None
  ∧ result_status r ≠ status.success
  ∧ result_status r ≠ status.erred
  ∧ (result_status r = status.contained → result_pendingAudit r = Some pending)
  ∧ (result_status r = status.failed →
     altered = None ∧ errs.Has errs.RPCError err = false
     ∧ errs.IsRPC err rpcstatus.NotFound = true).
Proof.
  unfold Reverify_analyze.
  destruct (errs.Has errs.RPCError err), (errs.IsDeadlineExceeded err),
    (errs.IsRPC err rpcstatus.Unknown), (errs.IsRPC err rpcstatus.NotFound),
    (errs.IsRPC err rpcstatus.DeadlineExceeded), altered; simpl; repeat split; done.
Qed.

(** The ways a task ends, by the status of its result. *)
Lemma Reverify_task_inv sha256 t pending outcome :
  Reverify_task sha256 t pending = Some outcome →
  let r := task_result outcome in
  result_nodeID r = PA_NodeID pending
  ∧ (result_status r = status.erred ↔ result_err r ≠ None)
  ∧ (result_status r = status.contained → result_pendingAudit r = Some pending)
  ∧ (∀ w, task_write outcome = Some w →
       ∃ pendingPointerBytes pendingPointer,
         rv_GetWithBytes t (PA_Path pending) = inl (pendingPointerBytes, pendingPointer)
         ∧ w = (PA_NodeID pending, pb.PieceHashesVerified pendingPointer))
  ∧ (result_status r = status.success ∨ result_status r = status.failed →
     ∃ pendingPointerBytes pendingPointer bucket limit key pieceNum share err,
       rv_GetWithBytes t (PA_Path pending) = inl (pendingPointerBytes, pendingPointer)
       ∧ rv_CreateAuditOrderLimit t bucket (PA_NodeID pending) pieceNum
           (PA_PieceID pending) (PA_ShareSize pending) = inl (limit, key)
       ∧ GetShare (rv_net t) limit key (PA_StripeIndex pending)
           (PA_ShareSize pending) pieceNum = Some (share, err)
       ∧ (result_status r = status.success →
          err = None
          ∧ sha256 (Share_Data share) = PA_ExpectedShareHash pending)
       ∧ (result_status r = status.failed →
          checkIfSegmentAltered (rv_refetch t (PA_Path pending)) (PA_Path pending)
            (Some pendingPointer) pendingPointerBytes = None
          ∧ match err with
            | Some err =>
                errs.Has errs.RPCError err = false
                ∧ errs.IsRPC err rpcstatus.NotFound = true
            | None => sha256 (Share_Data share) ≠ PA_ExpectedShareHash pending
            end)).
Proof.
  unfold Reverify_task. intros Htask.
  destruct (rv_GetWithBytes t (PA_Path pending))
    as [[pendingPointerBytes pendingPointer]|err0] eqn:Hget.
  2:{ destruct (errs.Has errs.ErrObjectNotFound err0);
        injection Htask as <-; simpl; repeat split; (done || by intros [|]). }
  destruct (bool_decide _ && _);
    [injection Htask as <-; simpl; repeat split; (done || by intros [|])|].
  destruct (pb.Remote pendingPointer) as [remote|]; [|done].
  assert (∀ w, Some (PA_NodeID pending, pb.PieceHashesVerified pendingPointer) = Some w →
            ∃ pendingPointerBytes0 pendingPointer0,
              inl (pendingPointerBytes, pendingPointer)
              = (inl (pendingPointerBytes0, pendingPointer0) : _ + error)
              ∧ w = (PA_NodeID pending, pb.PieceHashesVerified pendingPointer0))
    as Hwrite.
  { intros w [= <-]. by eexists _, _. }
  case_bool_decide;
    [injection Htask as <-; simpl; repeat split; (done || by intros [|])|].
  destruct (find_pieceNum (pb.RemotePieces remote) (PA_NodeID pending))
    as [pieceNum found].
  destruct found; simpl in Htask;
    [|injection Htask as <-; simpl; repeat split; (done || by intros [|])].
  destruct (rv_ParseSegmentKey t (PA_Path pending)) as [bucket|err0];
    [|injection Htask as <-; simpl; repeat split; (done || by intros [|])].
  destruct (rv_CreateAuditOrderLimit t bucket _ pieceNum _ _)
    as [[limit key]|err0] eqn:Hlimit.
  2:{ destruct (errs.Has ErrNodeDisqualified err0);
        [injection Htask as <-; simpl; repeat split; (done || by intros [|])|].
      destruct (errs.Has ErrNodeFinishedGE err0);
        [injection Htask as <-; simpl; repeat split; (done || by intros [|])|].
      destruct (errs.Has ErrNodeOffline err0);
        injection Htask as <-; simpl; repeat split; (done || by intros [|]). }
  destruct (GetShare (rv_net t) limit key _ _ pieceNum) as [[share err]|] eqn:Hshare;
    [|done].
  destruct (rv_containment_Get_again t (PA_NodeID pending)) as [again|getErr].
  2:{ destruct (errs.Has ErrContainedNotFound getErr);
        injection Htask as <-; simpl; repeat split; (done || by intros [|]). }
  destruct err as [err|].
  - injection Htask as <-. simpl.
    destruct (Reverify_analyze_status pending
                (checkIfSegmentAltered (rv_refetch t (PA_Path pending))
                   (PA_Path pending) (Some pendingPointer) pendingPointerBytes) err)
      as (Hid & Herr & Hns & Hne & Hcont & Hfail).
    split; [done|]. split; [by rewrite Herr|]. split; [done|]. split; [done|].
    intros [Hs|Hf]; [done|].
    exists pendingPointerBytes, pendingPointer, bucket, limit, key, pieceNum, share,
      (Some err).
    split; [done|]. split; [done|]. split; [done|]. split; [done|].
    intros _. destruct (Hfail Hf) as (? & ? & ?). done.
  - unfold bytes_Equal in Htask. case_bool_decide as Hhash.
    + injection Htask as <-. simpl.
      split; [done|]. split; [done|]. split; [done|]. split; [done|]. intros _.
      exists pendingPointerBytes, pendingPointer, bucket, limit, key, pieceNum, share,
        None.
      by repeat split.
    + destruct (checkIfSegmentAltered _ _ _ _) eqn:Halt;
        injection Htask as <-; simpl;
        (split; [done|]); (split; [done|]); (split; [done|]); (split; [done|]);
        intros [Hs|Hf]; try done.
      exists pendingPointerBytes, pendingPointer, bucket, limit, key, pieceNum, share,
        None.
      by repeat split.
Qed.

(** ** The loops of [Reverify] *)

Lemma Reverify_piece_inv env i piece outcome :
  Reverify_piece env i piece = Some outcome →
  (∃ err,
     rv_containment_Get (rve_task env i) (pb.NodeId piece) = inr err
     ∧ outcome =
         mkTaskOutcome
           (if errs.Has ErrContainedNotFound err
            then mkResult (pb.NodeId piece) status.skipped None None
            else mkResult (pb.NodeId piece) status.erred None (Some err))
           None [])
  ∨ (∃ pending,
       rv_containment_Get (rve_task env i) (pb.NodeId piece) = inl pending
       ∧ Reverify_task (rve_SHA256Hash env) (rve_task env i) pending = Some outcome).
Proof.
  unfold Reverify_piece.
  destruct (rv_containment_Get (rve_task env i) (pb.NodeId piece)) as [pending|err].
  - intros Htask. right. by exists pending.
  - intros Hnone. left. exists err. split; [done|].
    destruct (errs.Has ErrContainedNotFound err); by injection Hnone as <-.
Qed.

(** A result has the status erred exactly when it carries an error, and a
    contained result carries its pending audit. *)
Lemma Reverify_piece_result env i piece outcome :
  Reverify_piece env i piece = Some outcome →
  (result_status (task_result outcome) = status.erred
   ↔ result_err (task_result outcome) ≠ None)
  ∧ (result_status (task_result outcome) = status.contained →
     ∃ pending, result_pendingAudit (task_result outcome) = Some pending
                ∧ PA_NodeID pending = result_nodeID (task_result outcome)).
Proof.
  intros Hpiece.
  destruct (Reverify_piece_inv _ _ _ _ Hpiece) as [(err & _ & ->)|(pending & _ & Htask)].
  - destruct (errs.Has ErrContainedNotFound err); simpl; split; done.
  - destruct (Reverify_task_inv _ _ _ _ Htask) as (Hid & Herr & Hcont & _).
    split; [done|]. intros Hc. exists pending. split; [by apply Hcont|done].
Qed.

Lemma Reverify_pieces_lookup env i pieces outcomes :
  Reverify_pieces env i pieces = Some outcomes →
  length outcomes = length pieces
  ∧ ∀ j outcome, outcomes !! j = Some outcome →
      ∃ piece, pieces !! j = Some piece
               ∧ Reverify_piece env (i + j) piece = Some outcome.
Proof.
  revert i outcomes. induction pieces as [|piece pieces IH]; intros i outcomes Hall.
  - injection Hall as <-. split; [done|]. intros j outcome Hj.
    by rewrite lookup_nil in Hj.
  - simpl in Hall.
    destruct (Reverify_piece env i piece) as [outcome0|] eqn:Hpiece; [|done].
    destruct (Reverify_pieces env (S i) pieces) as [outcomes0|] eqn:Hrest; [|done].
    injection Hall as <-. destruct (IH _ _ Hrest) as [Hlen Hlookup].
    split; [simpl; by f_equal|].
    intros [|j] outcome Hj; simpl in Hj.
    + injection Hj as <-. exists piece. by rewrite Nat.add_0_r.
    + destruct (Hlookup j outcome Hj) as (piece' & ? & ?).
      exists piece'. by rewrite Nat.add_succ_r.
Qed.

Lemma Reverify_pieces_reached env i pieces outcomes j piece :
  Reverify_pieces env i pieces = Some outcomes →
  pieces !! j = Some piece →
  ∃ outcome, outcomes !! j = Some outcome
             ∧ Reverify_piece env (i + j) piece = Some outcome.
Proof.
  intros Hall Hj. destruct (Reverify_pieces_lookup _ _ _ _ Hall) as [Hlen Hlookup].
  assert (is_Some (outcomes !! j)) as [outcome Houtcome].
  { apply lookup_lt_is_Some. rewrite Hlen. apply lookup_lt_is_Some. by eexists. }
  exists outcome. split; [done|].
  destruct (Hlookup j outcome Houtcome) as (piece' & Hpiece' & ?). congruence.
Qed.

(** What the second loop leaves, from what it started with. *)
Lemma Reverify_receive_fold results g :
  let g' := foldl Reverify_receive g results in
  let nodes st :=
    result_nodeID <$> filter (λ r, result_status r = st) results in
  Successes (gathered_report g')
    = Successes (gathered_report g) ++ nodes status.success
  ∧ Fails (gathered_report g') = Fails (gathered_report g) ++ nodes status.failed
  ∧ Offlines (gathered_report g')
    = Offlines (gathered_report g) ++ nodes status.offline
  ∧ Unknown (gathered_report g')
    = Unknown (gathered_report g) ++ nodes status.unknown
  ∧ PendingAudits (gathered_report g')
    = PendingAudits (gathered_report g)
      ++ omap (λ r, if decide (result_status r = status.contained)
                    then result_pendingAudit r else None) results
  ∧ gathered_calls g'
    = gathered_calls g ++ (ContainmentDelete <$> nodes status.skipped).
Proof.
  revert g. induction results as [|r results IH]; intros g; simpl.
  - by rewrite !app_nil_r.
  - destruct (IH (Reverify_receive g r)) as (Hs & Hf & Ho & Hu & Hp & Hc).
    rewrite Hs, Hf, Ho, Hu, Hp, Hc. clear.
    rewrite !filter_cons. unfold Reverify_receive.
    destruct (result_status r) eqn:Hst; simpl;
      try destruct (result_pendingAudit r) eqn:Hpa; simpl;
      rewrite <- ?app_assoc; simpl; done.
Qed.

Lemma Reverify_receive_fold_err results g :
  gathered_err (foldl Reverify_receive g results) = None
  ↔ gathered_err g = None
    ∧ ∀ r, r ∈ results → result_status r = status.erred → result_err r = None.
Proof.
  revert g. induction results as [|r results IH]; intros g; simpl.
  - split; [|by intros [? _]]. intros ?. split; [done|].
    intros r Hr. by apply elem_of_nil in Hr.
  - rewrite IH.
    assert (gathered_err (Reverify_receive g r) = None
            ↔ gathered_err g = None
              ∧ (result_status r = status.erred → result_err r = None)) as ->.
    { unfold Reverify_receive.
      destruct (result_status r) eqn:Hst; simpl;
        try destruct (result_pendingAudit r); simpl;
        try (split; [by intros ?|by intros [? _]]).
      all: destruct (gathered_err g), (result_err r); simpl; split;
        first [done | by intros [? ?] | intros [? H]; by specialize (H eq_refl)]. }
    split.
    + intros [[Hg Hr] Hall]. split; [done|]. intros r' Hr' Hst.
      apply elem_of_cons in Hr' as [->|Hr']; [by apply Hr|by apply Hall].
    + intros [Hg Hall]. split; [split; [done|]|].
      * apply Hall. by left.
      * intros r' Hr'. apply Hall. by right.
Qed.

(** ** The whole of [Reverify] *)

(** [Reverify] either returns the empty report at once, and then calls
    no delete on the containment store, or runs the three stages. *)
Lemma Reverify_inv env path report err calls :
  Reverify env path = Some (report, err, calls) →
  (report = Report_zero ∧ ∀ id, ContainmentDelete id ∉ calls)
  ∨ ∃ pointerBytes pointer outcomes,
      rve_GetWithBytes env path = inl (pointerBytes, pointer)
      ∧ ¬ (pb.ExpirationDate pointer ≠ 0 ∧ pb.ExpirationDate pointer < rve_Now env)
      ∧ Reverify_pieces env 0 (pb.GetRemotePieces (pb.Remote pointer)) = Some outcomes
      ∧ report = (Reverify_deferred (Reverify_written env outcomes)
                    (gathered_report (Reverify_gather env outcomes))).1
      ∧ err = gathered_err (Reverify_gather env outcomes)
      ∧ calls = concat (task_calls <$> outcomes)
                ++ gathered_calls (Reverify_gather env outcomes)
                ++ (Reverify_deferred (Reverify_written env outcomes)
                      (gathered_report (Reverify_gather env outcomes))).2.
Proof.
  unfold Reverify. intros Hrun.
  destruct (rve_GetWithBytes env path) as [[pointerBytes pointer]|e].
  2:{ left. destruct (errs.Has errs.ErrObjectNotFound e);
        injection Hrun as <- <- <-; (split; [done|]);
        intros id Hin; by apply elem_of_nil in Hin. }
  destruct (bool_decide (pb.ExpirationDate pointer ≠ 0)
            && (pb.ExpirationDate pointer <? rve_Now env)) eqn:Hexpired.
  { left. destruct (rve_metainfo_Delete env path pointerBytes);
      injection Hrun as <- <- <-; (split; [done|]);
      intros id Hin; by apply list_elem_of_singleton in Hin. }
  destruct (Reverify_pieces env 0 (pb.GetRemotePieces (pb.Remote pointer)))
    as [outcomes|] eqn:Hpieces; [|done].
  destruct (Reverify_deferred (Reverify_written env outcomes)
              (gathered_report (Reverify_gather env outcomes)))
    as [report' deferred_calls] eqn:Hdeferred.
  injection Hrun as <- <- <-. right. exists pointerBytes, pointer, outcomes.
  split; [done|]. split; [|by rewrite Hdeferred].
  intros [Hne Hlt]. apply andb_false_iff in Hexpired as [Hexpired|Hexpired].
  - by apply bool_decide_eq_false in Hexpired.
  - apply Z.ltb_ge in Hexpired. lia.
Qed.

(** The same, read from a pointer that is there and has not expired. *)
Lemma Reverify_run env path pointerBytes pointer report err calls :
  rve_GetWithBytes env path = inl (pointerBytes, pointer) →
  ¬ (pb.ExpirationDate pointer ≠ 0 ∧ pb.ExpirationDate pointer < rve_Now env) →
  Reverify env path = Some (report, err, calls) →
  ∃ outcomes,
    Reverify_pieces env 0 (pb.GetRemotePieces (pb.Remote pointer)) = Some outcomes
    ∧ report = (Reverify_deferred (Reverify_written env outcomes)
                  (gathered_report (Reverify_gather env outcomes))).1
    ∧ err = gathered_err (Reverify_gather env outcomes)
    ∧ calls = concat (task_calls <$> outcomes)
              ++ gathered_calls (Reverify_gather env outcomes)
              ++ (Reverify_deferred (Reverify_written env outcomes)
                    (gathered_report (Reverify_gather env outcomes))).2.
Proof.
  intros Hget Hlive Hrun. unfold Reverify in Hrun. rewrite Hget in Hrun.
  destruct (bool_decide (pb.ExpirationDate pointer ≠ 0)
            && (pb.ExpirationDate pointer <? rve_Now env)) eqn:Hexpired.
  { exfalso. apply Hlive. apply andb_true_iff in Hexpired as [Hne Hlt].
    apply bool_decide_eq_true in Hne. apply Z.ltb_lt in Hlt. done. }
  destruct (Reverify_pieces env 0 (pb.GetRemotePieces (pb.Remote pointer)))
    as [outcomes|] eqn:Hpieces; [|done].
  destruct (Reverify_deferred (Reverify_written env outcomes)
              (gathered_report (Reverify_gather env outcomes)))
    as [report' deferred_calls] eqn:Hdeferred.
  injection Hrun as <- <- <-. exists outcomes. by rewrite Hdeferred.
Qed.

Lemma Reverify_outcome_piece env pieces outcomes outcome :
  Reverify_pieces env 0 pieces = Some outcomes →
  outcome ∈ outcomes →
  ∃ i piece, pieces !! i = Some piece ∧ Reverify_piece env i piece = Some outcome.
Proof.
  intros Hall Hin. apply list_elem_of_lookup_1 in Hin as [i Hi].
  destruct (Reverify_pieces_lookup _ _ _ _ Hall) as [_ Hlookup].
  destruct (Hlookup i outcome Hi) as (piece & ? & ?). by exists i, piece.
Qed.

(** The results the second loop receives are those of the pieces. *)
Lemma Reverify_gather_results env outcomes r :
  r ∈ shuffle (rve_arrival env) _ (task_result <$> outcomes)
  ↔ ∃ outcome, outcome ∈ outcomes ∧ task_result outcome = r.
Proof.
  rewrite (shuffle_perm (rve_arrival env)), list_elem_of_fmap.
  split; intros (outcome & ? & ?); by exists outcome.
Qed.

Lemma Reverify_gather_nodes env outcomes :
  let g := Reverify_gather env outcomes in
  let results := shuffle (rve_arrival env) _ (task_result <$> outcomes) in
  let nodes st :=
    result_nodeID <$> filter (λ r, result_status r = st) results in
  Successes (gathered_report g) = nodes status.success
  ∧ Fails (gathered_report g) = nodes status.failed
  ∧ Offlines (gathered_report g) = nodes status.offline
  ∧ Unknown (gathered_report g) = nodes status.unknown
  ∧ PendingAudits (gathered_report g)
    = omap (λ r, if decide (result_status r = status.contained)
                 then result_pendingAudit r else None) results
  ∧ gathered_calls g = ContainmentDelete <$> nodes status.skipped.
Proof.
  exact (Reverify_receive_fold
           (shuffle (rve_arrival env) _ (task_result <$> outcomes))
           (mkGathered Report_zero None [])).
Qed.

Lemma elem_of_gathered env outcomes st n :
  n ∈ result_nodeID <$>
        filter (λ r, result_status r = st)
          (shuffle (rve_arrival env) _ (task_result <$> outcomes))
  ↔ ∃ outcome, outcome ∈ outcomes
               ∧ result_status (task_result outcome) = st
               ∧ result_nodeID (task_result outcome) = n.
Proof.
  rewrite list_elem_of_fmap. split.
  - intros (r & -> & Hr). apply list_elem_of_filter in Hr as [Hst Hr].
    apply Reverify_gather_results in Hr as (outcome & ? & <-). by exists outcome.
  - intros (outcome & Hin & Hst & <-). exists (task_result outcome).
    split; [done|]. apply list_elem_of_filter. split; [done|].
    apply Reverify_gather_results. by exists outcome.
Qed.

Lemma elem_of_gathered_pending env outcomes pending :
  pending ∈ omap (λ r, if decide (result_status r = status.contained)
                       then result_pendingAudit r else None)
              (shuffle (rve_arrival env) _ (task_result <$> outcomes))
  ↔ ∃ outcome, outcome ∈ outcomes
               ∧ result_status (task_result outcome) = status.contained
               ∧ result_pendingAudit (task_result outcome) = Some pending.
Proof.
  rewrite list_elem_of_omap. split.
  - intros (r & Hr & Hsome). case_decide; [|done].
    apply Reverify_gather_results in Hr as (outcome & ? & <-). by exists outcome.
  - intros (outcome & Hin & Hst & Hpending). exists (task_result outcome).
    split; [apply Reverify_gather_results; by exists outcome|].
    by rewrite decide_True.
Qed.

(** An entry of the pieceHashesVerified map was written by a task. *)
Lemma written_lookup (l : list (NodeID * bool)) (m : gmap NodeID bool) id v :
  foldl (λ m '(id, verified), <[id := verified]> m) m l !! id = Some v →
  (id, v) ∈ l ∨ m !! id = Some v.
Proof.
  revert m. induction l as [|[id' v'] l IH]; intros m; simpl; [by right|].
  intros Hlookup. destruct (IH _ Hlookup) as [Hin|Hm].
  - left. by right.
  - destruct (decide (id' = id)) as [->|Hne].
    + rewrite lookup_insert_eq in Hm. injection Hm as ->. left. by left.
    + rewrite lookup_insert_ne in Hm by done. by right.
Qed.

Lemma Reverify_written_true env outcomes id :
  hashes_verified (Reverify_written env outcomes) id = true →
  ∃ outcome, outcome ∈ outcomes ∧ task_write outcome = Some (id, true).
Proof.
  unfold hashes_verified, Reverify_written. intros Htrue.
  destruct (foldl _ ∅ _ !! id) as [v|] eqn:Hlookup; [|done].
  simpl in Htrue. subst v.
  apply written_lookup in Hlookup as [Hin|Hempty].
  - rewrite (shuffle_perm (rve_writes env)) in Hin.
    apply list_elem_of_omap in Hin as (outcome & ? & ?). by exists outcome.
  - by rewrite lookup_empty in Hempty.
Qed.

(** A node whose task wrote to the map has a pending audit for a segment
    whose pointer the task fetched. *)
Lemma Reverify_piece_write env i piece outcome id v :
  Reverify_piece env i piece = Some outcome →
  task_write outcome = Some (id, v) →
  ∃ pending pendingPointerBytes pendingPointer,
    rv_containment_Get (rve_task env i) (pb.NodeId piece) = inl pending
    ∧ PA_NodeID pending = id
    ∧ rv_GetWithBytes (rve_task env i) (PA_Path pending)
      = inl (pendingPointerBytes, pendingPointer)
    ∧ pb.PieceHashesVerified pendingPointer = v.
Proof.
  intros Hpiece Hwrite.
  destruct (Reverify_piece_inv _ _ _ _ Hpiece) as [(e & _ & ->)|(pending & Hget & Htask)];
    [done|].
  destruct (Reverify_task_inv _ _ _ _ Htask) as (_ & _ & _ & Hw & _).
  destruct (Hw _ Hwrite) as (bs & pp & Hpp & [= -> ->]).
  by exists pending, bs, pp.
Qed.

(** The evidence behind the status success or failed of a piece. *)
Lemma Reverify_piece_audited env i piece outcome :
  Reverify_piece env i piece = Some outcome →
  result_status (task_result outcome) = status.success
  ∨ result_status (task_result outcome) = status.failed →
  ∃ pending,
    rv_containment_Get (rve_task env i) (pb.NodeId piece) = inl pending
    ∧ Reverify_task (rve_SHA256Hash env) (rve_task env i) pending = Some outcome.
Proof.
  intros Hpiece Hst.
  destruct (Reverify_piece_inv _ _ _ _ Hpiece) as [(e & _ & ->)|(pending & Hget & Htask)].
  - destruct (errs.Has ErrContainedNotFound e); simpl in Hst; by destruct Hst.
  - by exists pending.
Qed.

(** X10.  A node is among the Successes of [Reverify] only on evidence:
    the containment store returned, for the node of a piece of the
    segment, a pending audit that names this node, an order limit was
    created for it, [GetShare] returned a share without an error, and the
    hash of the share's data is the hash the pending audit expects. *)
Theorem Reverify_success_evidence env path report err calls n :
  Reverify env path = Some (report, err, calls) →
  n ∈ Successes report →
  ∃ pointerBytes pointer i piece pending bucket pieceNum limit key share,
    rve_GetWithBytes env path = inl (pointerBytes, pointer)
    ∧ pb.GetRemotePieces (pb.Remote pointer) !! i = Some piece
    ∧ rv_containment_Get (rve_task env i) (pb.NodeId piece) = inl pending
    ∧ PA_NodeID pending = n
    ∧ rv_CreateAuditOrderLimit (rve_task env i) bucket n pieceNum
        (PA_PieceID pending) (PA_ShareSize pending) = inl (limit, key)
    ∧ GetShare (rv_net (rve_task env i)) limit key (PA_StripeIndex pending)
        (PA_ShareSize pending) pieceNum = Some (share, None)
    ∧ rve_SHA256Hash env (Share_Data share) = PA_ExpectedShareHash pending.
Proof.
  intros Hrun Hn.
  destruct (Reverify_inv _ _ _ _ _ Hrun)
    as [[-> _]|(pointerBytes & pointer & outcomes & Hget & _ & Hpieces & -> & _)].
  { by apply elem_of_nil in Hn. }
  simpl in Hn.
  destruct (Reverify_gather_nodes env outcomes) as (Hs & _). simpl in Hs.
  rewrite Hs in Hn. apply elem_of_gathered in Hn as (outcome & Hin & Hst & Hid).
  destruct (Reverify_outcome_piece _ _ _ _ Hpieces Hin) as (i & piece & Hi & Hpiece).
  destruct (Reverify_piece_audited _ _ _ _ Hpiece (or_introl Hst))
    as (pending & Hpending & Htask).
  destruct (Reverify_task_inv _ _ _ _ Htask) as (Hnode & _ & _ & _ & Hevidence).
  destruct (Hevidence (or_introl Hst))
    as (bs & pp & bucket & limit & key & pieceNum & share & shareErr
        & _ & Hlimit & Hshare & Hsuccess & _).
  destruct (Hsuccess Hst) as [-> Hhash].
  assert (PA_NodeID pending = n) as Hpn by congruence.
  exists pointerBytes, pointer, i, piece, pending, bucket, pieceNum, limit, key, share.
  rewrite <- Hpn. done.
Qed.

Lemma Reverify_success_evidence_witness :
  ∃ pointerBytes pointer i piece pending bucket pieceNum limit key share,
    rve_GetWithBytes (demo_renv true id_shuffle) demo_path = inl (pointerBytes, pointer)
    ∧ pb.GetRemotePieces (pb.Remote pointer) !! i = Some piece
    ∧ rv_containment_Get (rve_task (demo_renv true id_shuffle) i) (pb.NodeId piece)
      = inl pending
    ∧ PA_NodeID pending = 10%N
    ∧ rv_CreateAuditOrderLimit (rve_task (demo_renv true id_shuffle) i) bucket 10%N
        pieceNum (PA_PieceID pending) (PA_ShareSize pending) = inl (limit, key)
    ∧ GetShare (rv_net (rve_task (demo_renv true id_shuffle) i)) limit key
        (PA_StripeIndex pending) (PA_ShareSize pending) pieceNum = Some (share, None)
    ∧ rve_SHA256Hash (demo_renv true id_shuffle) (Share_Data share)
      = PA_ExpectedShareHash pending.
Proof.
  apply (Reverify_success_evidence (demo_renv true id_shuffle) demo_path
           (mkReport [10%N] [11%N] [] [demo_pending 13%N] []) None
           [ContainmentDelete 12%N] 10%N).
  - vm_compute; reflexivity.
  - simpl. by left.
Defined.

(** X11.  A node is among the Fails of [Reverify] only on evidence: the
    containment store returned, for the node of a piece of the segment, a
    pending audit that names this node, the pointer of that audit was
    found unaltered by [checkIfSegmentAltered], and either the download
    failed with a NotFound error that is not a transport error, or the
    share came without an error and its hash differs from the expected
    one. *)
Theorem Reverify_fail_evidence env path report err calls n :
  Reverify env path = Some (report, err, calls) →
  n ∈ Fails report →
  ∃ pointerBytes pointer i piece pending pendingPointerBytes pendingPointer
    bucket pieceNum limit key share shareErr,
    rve_GetWithBytes env path = inl (pointerBytes, pointer)
    ∧ pb.GetRemotePieces (pb.Remote pointer) !! i = Some piece
    ∧ rv_containment_Get (rve_task env i) (pb.NodeId piece) = inl pending
    ∧ PA_NodeID pending = n
    ∧ rv_GetWithBytes (rve_task env i) (PA_Path pending)
      = inl (pendingPointerBytes, pendingPointer)
    ∧ rv_CreateAuditOrderLimit (rve_task env i) bucket n pieceNum
        (PA_PieceID pending) (PA_ShareSize pending) = inl (limit, key)
    ∧ GetShare (rv_net (rve_task env i)) limit key (PA_StripeIndex pending)
        (PA_ShareSize pending) pieceNum = Some (share, shareErr)
    ∧ checkIfSegmentAltered (rv_refetch (rve_task env i) (PA_Path pending))
        (PA_Path pending) (Some pendingPointer) pendingPointerBytes = None
    ∧ match shareErr with
      | Some e =>
          errs.Has errs.RPCError e = false ∧ errs.IsRPC e rpcstatus.NotFound = true
      | None => rve_SHA256Hash env (Share_Data share) ≠ PA_ExpectedShareHash pending
      end.
Proof.
  intros Hrun Hn.
  destruct (Reverify_inv _ _ _ _ _ Hrun)
    as [[-> _]|(pointerBytes & pointer & outcomes & Hget & _ & Hpieces & -> & _)].
  { by apply elem_of_nil in Hn. }
  simpl in Hn. apply list_elem_of_filter in Hn as [_ Hn].
  destruct (Reverify_gather_nodes env outcomes) as (_ & Hf & _). simpl in Hf.
  rewrite Hf in Hn. apply elem_of_gathered in Hn as (outcome & Hin & Hst & Hid).
  destruct (Reverify_outcome_piece _ _ _ _ Hpieces Hin) as (i & piece & Hi & Hpiece).
  destruct (Reverify_piece_audited _ _ _ _ Hpiece (or_intror Hst))
    as (pending & Hpending & Htask).
  destruct (Reverify_task_inv _ _ _ _ Htask) as (Hnode & _ & _ & _ & Hevidence).
  destruct (Hevidence (or_intror Hst))
    as (bs & pp & bucket & limit & key & pieceNum & share & shareErr
        & Hpp & Hlimit & Hshare & _ & Hfailed).
  destruct (Hfailed Hst) as [Hunaltered Hwhy].
  assert (PA_NodeID pending = n) as Hpn by congruence.
  exists pointerBytes, pointer, i, piece, pending, bs, pp, bucket, pieceNum, limit,
    key, share, shareErr.
  rewrite <- Hpn. done.
Qed.

Lemma Reverify_fail_evidence_witness :
  ∃ pointerBytes pointer i piece pending pendingPointerBytes pendingPointer
    bucket pieceNum limit key share shareErr,
    rve_GetWithBytes (demo_renv true id_shuffle) demo_path = inl (pointerBytes, pointer)
    ∧ pb.GetRemotePieces (pb.Remote pointer) !! i = Some piece
    ∧ rv_containment_Get (rve_task (demo_renv true id_shuffle) i) (pb.NodeId piece)
      = inl pending
    ∧ PA_NodeID pending = 11%N
    ∧ rv_GetWithBytes (rve_task (demo_renv true id_shuffle) i) (PA_Path pending)
      = inl (pendingPointerBytes, pendingPointer)
    ∧ rv_CreateAuditOrderLimit (rve_task (demo_renv true id_shuffle) i) bucket 11%N
        pieceNum (PA_PieceID pending) (PA_ShareSize pending) = inl (limit, key)
    ∧ GetShare (rv_net (rve_task (demo_renv true id_shuffle) i)) limit key
        (PA_StripeIndex pending) (PA_ShareSize pending) pieceNum
      = Some (share, shareErr)
    ∧ checkIfSegmentAltered
        (rv_refetch (rve_task (demo_renv true id_shuffle) i) (PA_Path pending))
        (PA_Path pending) (Some pendingPointer) pendingPointerBytes = None
    ∧ match shareErr with
      | Some e =>
          errs.Has errs.RPCError e = false ∧ errs.IsRPC e rpcstatus.NotFound = true
      | None =>
          rve_SHA256Hash (demo_renv true id_shuffle) (Share_Data share)
          ≠ PA_ExpectedShareHash pending
      end.
Proof.
  apply (Reverify_fail_evidence (demo_renv true id_shuffle) demo_path
           (mkReport [10%N] [11%N] [] [demo_pending 13%N] []) None
           [ContainmentDelete 12%N] 11%N).
  - vm_compute; reflexivity.
  - simpl. by left.
Defined.

(** X12.  [Reverify] reports a node as failed or keeps it contained only
    when a task has seen, for a pending audit of that node, a pointer
    whose piece hashes are verified. *)
Theorem Reverify_penalty_needs_verified_hashes env path report err calls n :
  Reverify env path = Some (report, err, calls) →
  n ∈ Fails report ∨ n ∈ PA_NodeID <$> PendingAudits report →
  ∃ pointerBytes pointer i piece pending pendingPointerBytes pendingPointer,
    rve_GetWithBytes env path = inl (pointerBytes, pointer)
    ∧ pb.GetRemotePieces (pb.Remote pointer) !! i = Some piece
    ∧ rv_containment_Get (rve_task env i) (pb.NodeId piece) = inl pending
    ∧ PA_NodeID pending = n
    ∧ rv_GetWithBytes (rve_task env i) (PA_Path pending)
      = inl (pendingPointerBytes, pendingPointer)
    ∧ pb.PieceHashesVerified pendingPointer = true.
Proof.
  intros Hrun Hn.
  destruct (Reverify_inv _ _ _ _ _ Hrun)
    as [[-> _]|(pointerBytes & pointer & outcomes & Hget & _ & Hpieces & -> & _)].
  { simpl in Hn. destruct Hn as [Hn|Hn]; by apply elem_of_nil in Hn. }
  simpl in Hn.
  assert (hashes_verified (Reverify_written env outcomes) n = true) as Hverified.
  { destruct Hn as [Hn|Hn].
    - by apply list_elem_of_filter in Hn as [? _].
    - apply list_elem_of_fmap in Hn as (pending & -> & Hn).
      by apply list_elem_of_filter in Hn as [? _]. }
  apply Reverify_written_true in Hverified as (outcome & Hin & Hwrite).
  destruct (Reverify_outcome_piece _ _ _ _ Hpieces Hin) as (i & piece & Hi & Hpiece).
  destruct (Reverify_piece_write _ _ _ _ _ _ Hpiece Hwrite)
    as (pending & bs & pp & ? & ? & ? & ?).
  by exists pointerBytes, pointer, i, piece, pending, bs, pp.
Qed.

Lemma Reverify_penalty_needs_verified_hashes_witness :
  ∃ pointerBytes pointer i piece pending pendingPointerBytes pendingPointer,
    rve_GetWithBytes (demo_renv true id_shuffle) demo_path = inl (pointerBytes, pointer)
    ∧ pb.GetRemotePieces (pb.Remote pointer) !! i = Some piece
    ∧ rv_containment_Get (rve_task (demo_renv true id_shuffle) i) (pb.NodeId piece)
      = inl pending
    ∧ PA_NodeID pending = 13%N
    ∧ rv_GetWithBytes (rve_task (demo_renv true id_shuffle) i) (PA_Path pending)
      = inl (pendingPointerBytes, pendingPointer)
    ∧ pb.PieceHashesVerified pendingPointer = true.
Proof.
  apply (Reverify_penalty_needs_verified_hashes (demo_renv true id_shuffle) demo_path
           (mkReport [10%N] [11%N] [] [demo_pending 13%N] []) None
           [ContainmentDelete 12%N] 13%N).
  - vm_compute; reflexivity.
  - right. simpl. by left.
Defined.

(** The calls a task makes itself: the delete of an expired segment, and
    the release of a node the overlay has disqualified or that has
    finished graceful exit. *)
Lemma Reverify_task_calls_inv sha256 t pending outcome call :
  Reverify_task sha256 t pending = Some outcome →
  call ∈ task_calls outcome →
  (∃ pendingPointerBytes pendingPointer,
     rv_GetWithBytes t (PA_Path pending) = inl (pendingPointerBytes, pendingPointer)
     ∧ pb.ExpirationDate pendingPointer ≠ 0
     ∧ pb.ExpirationDate pendingPointer < rv_Now t
     ∧ call = MetainfoDelete (PA_Path pending) pendingPointerBytes)
  ∨ (∃ e,
       call = ContainmentDelete (PA_NodeID pending)
       ∧ task_result outcome = mkResult (PA_NodeID pending) status.erred None (Some e)
       ∧ (errs.Has ErrNodeDisqualified e = true ∨ errs.Has ErrNodeFinishedGE e = true)).
Proof.
  unfold Reverify_task. intros Htask Hcall.
  assert (∀ r w, Some (mkTaskOutcome r w []) = Some outcome → False) as Hquiet.
  { intros r w [= <-]. by apply elem_of_nil in Hcall. }
  destruct (rv_GetWithBytes t (PA_Path pending))
    as [[pendingPointerBytes pendingPointer]|err0] eqn:Hget.
  2:{ destruct (errs.Has errs.ErrObjectNotFound err0); by apply Hquiet in Htask. }
  destruct (bool_decide (pb.ExpirationDate pendingPointer ≠ 0)
            && (pb.ExpirationDate pendingPointer <? rv_Now t)) eqn:Hexpired.
  { injection Htask as <-. simpl in Hcall.
    apply list_elem_of_singleton in Hcall as ->.
    apply andb_true_iff in Hexpired as [Hne Hlt].
    apply bool_decide_eq_true in Hne. apply Z.ltb_lt in Hlt.
    left. by exists pendingPointerBytes, pendingPointer. }
  destruct (pb.Remote pendingPointer) as [remote|]; [|done].
  case_bool_decide; [by apply Hquiet in Htask|].
  destruct (find_pieceNum (pb.RemotePieces remote) (PA_NodeID pending))
    as [pieceNum found].
  destruct found; simpl in Htask; [|by apply Hquiet in Htask].
  destruct (rv_ParseSegmentKey t (PA_Path pending)) as [bucket|err0];
    [|by apply Hquiet in Htask].
  destruct (rv_CreateAuditOrderLimit t bucket _ pieceNum _ _)
    as [[limit key]|err0] eqn:Hlimit.
  2:{ destruct (errs.Has ErrNodeDisqualified err0) eqn:Hdisqualified.
      { injection Htask as <-. simpl in Hcall.
        apply list_elem_of_singleton in Hcall as ->.
        right. exists err0. split; [done|]. split; [done|]. by left. }
      destruct (errs.Has ErrNodeFinishedGE err0) eqn:Hexited.
      { injection Htask as <-. simpl in Hcall.
        apply list_elem_of_singleton in Hcall as ->.
        right. exists err0. split; [done|]. split; [done|]. by right. }
      destruct (errs.Has ErrNodeOffline err0); by apply Hquiet in Htask. }
  destruct (GetShare (rv_net t) limit key _ _ pieceNum) as [[share err]|]; [|done].
  destruct (rv_containment_Get_again t (PA_NodeID pending)) as [again|getErr].
  2:{ destruct (errs.Has ErrContainedNotFound getErr); by apply Hquiet in Htask. }
  destruct err as [err|]; [by apply Hquiet in Htask|].
  destruct (bytes_Equal _ _); [by apply Hquiet in Htask|].
  destruct (checkIfSegmentAltered _ _ _ _); by apply Hquiet in Htask.
Qed.

Lemma Reverify_piece_calls_inv env i piece outcome call :
  Reverify_piece env i piece = Some outcome →
  call ∈ task_calls outcome →
  ∃ pending,
    rv_containment_Get (rve_task env i) (pb.NodeId piece) = inl pending
    ∧ Reverify_task (rve_SHA256Hash env) (rve_task env i) pending = Some outcome.
Proof.
  intros Hpiece Hcall.
  destruct (Reverify_piece_inv _ _ _ _ Hpiece) as [(e & _ & ->)|(pending & ? & ?)].
  - by apply elem_of_nil in Hcall.
  - by exists pending.
Qed.

Lemma elem_of_task_calls (outcomes : list TaskOutcome) call :
  call ∈ concat (task_calls <$> outcomes)
  ↔ ∃ outcome, outcome ∈ outcomes ∧ call ∈ task_calls outcome.
Proof.
  induction outcomes as [|outcome outcomes IH]; simpl.
  - split; [intros Hin; by apply elem_of_nil in Hin|].
    intros (outcome & Hin & _). by apply elem_of_nil in Hin.
  - rewrite elem_of_app, IH. split.
    + intros [Hin|(outcome' & Hin & Hcall)].
      * exists outcome. split; [by left|done].
      * exists outcome'. split; [by right|done].
    + intros (outcome' & Hin & Hcall).
      apply elem_of_cons in Hin as [->|Hin]; [by left|].
      right. by exists outcome'.
Qed.

(** The lists of a report take each result at most once. *)
Lemma Reverify_statuses_count (results : list result) :
  let count st := length (filter (λ r, result_status r = st) results) in
  (count status.success + count status.failed + count status.offline
   + length (omap (λ r, if decide (result_status r = status.contained)
                        then result_pendingAudit r else None) results)
   + count status.unknown
   ≤ length results)%nat.
Proof.
  induction results as [|r results IH]; simpl; [lia|].
  simpl in IH. rewrite !filter_cons.
  destruct (result_status r); simpl;
    repeat (case_decide; try done); simpl;
    try destruct (result_pendingAudit r); simpl; unfold omap in IH; lia.
Qed.

(** X13.  When the pointer is there and has not expired, [Reverify]
    accounts for every piece of the segment according to the status of
    its result: a success, offline or unknown node is in that list of the
    report; a failed or contained node is in Fails or PendingAudits, or
    else removed from containment; a skipped node is removed from
    containment; and a piece that erred makes the error non-nil. *)
Theorem Reverify_every_piece_accounted env path pointerBytes pointer report err
    calls i piece :
  rve_GetWithBytes env path = inl (pointerBytes, pointer) →
  ¬ (pb.ExpirationDate pointer ≠ 0 ∧ pb.ExpirationDate pointer < rve_Now env) →
  Reverify env path = Some (report, err, calls) →
  pb.GetRemotePieces (pb.Remote pointer) !! i = Some piece →
  ∃ outcome,
    Reverify_piece env i piece = Some outcome
    ∧ let n := result_nodeID (task_result outcome) in
      match result_status (task_result outcome) with
      | status.success => n ∈ Successes report
      | status.offline => n ∈ Offlines report
      | status.unknown => n ∈ Unknown report
      | status.failed => n ∈ Fails report ∨ ContainmentDelete n ∈ calls
      | status.contained =>
          n ∈ PA_NodeID <$> PendingAudits report ∨ ContainmentDelete n ∈ calls
      | status.skipped => ContainmentDelete n ∈ calls
      | status.erred => err ≠ None
      end.
Proof.
  intros Hget Hlive Hrun Hi.
  destruct (Reverify_run _ _ _ _ _ _ _ Hget Hlive Hrun)
    as (outcomes & Hpieces & -> & -> & ->).
  destruct (Reverify_pieces_reached _ _ _ _ _ _ Hpieces Hi) as (outcome & Hj & Hpiece).
  simpl in Hpiece. exists outcome. split; [done|].
  apply list_elem_of_lookup_2 in Hj.
  destruct (Reverify_gather_nodes env outcomes) as (Hs & Hf & Ho & Hu & Hp & Hc).
  simpl in Hs, Hf, Ho, Hu, Hp, Hc.
  assert (∀ st, result_status (task_result outcome) = st →
            result_nodeID (task_result outcome)
            ∈ result_nodeID <$>
                filter (λ r, result_status r = st)
                  (shuffle (rve_arrival env) _ (task_result <$> outcomes)))
    as Hgathered.
  { intros st Hst. apply elem_of_gathered. by exists outcome. }
  simpl. destruct (result_status (task_result outcome)) eqn:Hst.
  - (* skipped *)
    rewrite Hc. apply elem_of_app. right. apply elem_of_app. left.
    apply list_elem_of_fmap_2. by apply Hgathered.
  - rewrite Hs. by apply Hgathered.
  - rewrite Ho. by apply Hgathered.
  - (* failed *)
    destruct (hashes_verified (Reverify_written env outcomes)
                (result_nodeID (task_result outcome))) eqn:Hverified.
    + left. apply list_elem_of_filter. split; [done|]. rewrite Hf. by apply Hgathered.
    + right. apply elem_of_app. right. apply elem_of_app. right.
      apply elem_of_app. left. apply list_elem_of_fmap_2.
      apply list_elem_of_filter. split; [done|]. rewrite Hf. by apply Hgathered.
  - (* contained *)
    destruct (Reverify_piece_result _ _ _ _ Hpiece) as [_ Hcontained].
    destruct (Hcontained Hst) as (pending & Hpending & Hnode).
    assert (pending ∈ PendingAudits (gathered_report (Reverify_gather env outcomes)))
      as Hin.
    { rewrite Hp. apply elem_of_gathered_pending. by exists outcome. }
    rewrite <- Hnode.
    destruct (hashes_verified (Reverify_written env outcomes) (PA_NodeID pending))
      eqn:Hverified.
    + left. apply list_elem_of_fmap_2. apply list_elem_of_filter. done.
    + right. apply elem_of_app. right. apply elem_of_app. right.
      apply elem_of_app. right. apply list_elem_of_fmap_2.
      apply list_elem_of_filter. split; [done|]. by apply list_elem_of_fmap_2.
  - rewrite Hu. by apply Hgathered.
  - (* erred *)
    intros Hnil. apply Reverify_receive_fold_err in Hnil as [_ Hnil].
    destruct (Reverify_piece_result _ _ _ _ Hpiece) as [Herred _].
    apply Herred in Hst. apply Hst, Hnil; [|by apply Herred].
    apply Reverify_gather_results. by exists outcome.
Qed.

Lemma Reverify_every_piece_accounted_witness :
  ∃ outcome,
    Reverify_piece (demo_renv false rev_shuffle) 3
      (pb.mkRemotePiece 3 13%N) = Some outcome
    ∧ let n := result_nodeID (task_result outcome) in
      match result_status (task_result outcome) with
      | status.success => n ∈ [10%N]
      | status.offline => n ∈ []
      | status.unknown => n ∈ []
      | status.failed =>
          n ∈ [] ∨ ContainmentDelete n
                   ∈ [ContainmentDelete 12%N; ContainmentDelete 11%N;
                      ContainmentDelete 13%N]
      | status.contained =>
          n ∈ PA_NodeID <$> []
          ∨ ContainmentDelete n
            ∈ [ContainmentDelete 12%N; ContainmentDelete 11%N; ContainmentDelete 13%N]
      | status.skipped =>
          ContainmentDelete n
          ∈ [ContainmentDelete 12%N; ContainmentDelete 11%N; ContainmentDelete 13%N]
      | status.erred => (None : option error) ≠ None
      end.
Proof.
  apply (Reverify_every_piece_accounted (demo_renv false rev_shuffle) demo_path
           [x01] (demo_pointer true 100 0) (mkReport [10%N] [] [] [] []) None
           [ContainmentDelete 12%N; ContainmentDelete 11%N; ContainmentDelete 13%N]
           3 (pb.mkRemotePiece 3 13%N)).
  - reflexivity.
  - intros [Hne _]. by apply Hne.
  - vm_compute; reflexivity.
  - reflexivity.
Defined.

(** X14.  The five lists of the report of [Reverify] hold together at most
    as many entries as the segment has pieces. *)
Theorem Reverify_report_size env path pointerBytes pointer report err calls :
  rve_GetWithBytes env path = inl (pointerBytes, pointer) →
  Reverify env path = Some (report, err, calls) →
  (length (Successes report) + length (Fails report) + length (Offlines report)
   + length (PendingAudits report) + length (Unknown report)
   ≤ length (pb.GetRemotePieces (pb.Remote pointer)))%nat.
Proof.
  intros Hget Hrun.
  destruct (Reverify_inv _ _ _ _ _ Hrun)
    as [[-> _]|(pointerBytes' & pointer' & outcomes & Hget' & _ & Hpieces & -> & _)].
  { simpl. lia. }
  rewrite Hget in Hget'. injection Hget' as <- <-.
  destruct (Reverify_pieces_lookup _ _ _ _ Hpieces) as [Hlen _].
  destruct (Reverify_gather_nodes env outcomes) as (Hs & Hf & Ho & Hu & Hp & _).
  simpl in Hs, Hf, Ho, Hu, Hp. simpl.
  pose proof (length_filter
                (λ id, hashes_verified (Reverify_written env outcomes) id = true)
                (Fails (gathered_report (Reverify_gather env outcomes)))) as Hfails.
  pose proof (length_filter
                (λ pending, hashes_verified (Reverify_written env outcomes)
                              (PA_NodeID pending) = true)
                (PendingAudits (gathered_report (Reverify_gather env outcomes))))
    as Hpending.
  apply (f_equal length) in Hs, Hf, Ho, Hu, Hp.
  rewrite length_fmap in Hs, Hf, Ho, Hu.
  pose proof (Reverify_statuses_count
                (shuffle (rve_arrival env) _ (task_result <$> outcomes))) as Hcount.
  simpl in Hcount.
  assert (length (shuffle (rve_arrival env) _ (task_result <$> outcomes))
          = length (pb.GetRemotePieces (pb.Remote pointer))) as Hresults.
  { by rewrite (Permutation_length (shuffle_perm (rve_arrival env) _ _)), length_fmap. }
  lia.
Qed.

Lemma Reverify_report_size_witness :
  (length [10%N] + length [11%N] + length (@nil NodeID)
   + length [demo_pending 13%N] + length (@nil NodeID)
   ≤ length (pb.GetRemotePieces (pb.Remote (demo_pointer true 100%Z 0%Z))))%nat.
Proof.
  apply (Reverify_report_size (demo_renv true id_shuffle) demo_path [x01]
           (demo_pointer true 100 0)
           (mkReport [10%N] [11%N] [] [demo_pending 13%N] []) None
           [ContainmentDelete 12%N]).
  - reflexivity.
  - vm_compute; reflexivity.
Defined.

(** X15.  When the pointer is there and has not expired, the error of
    [Reverify] is nil exactly when no piece of the segment ends with the
    status erred. *)
Theorem Reverify_error_iff env path pointerBytes pointer report err calls :
  rve_GetWithBytes env path = inl (pointerBytes, pointer) →
  ¬ (pb.ExpirationDate pointer ≠ 0 ∧ pb.ExpirationDate pointer < rve_Now env) →
  Reverify env path = Some (report, err, calls) →
  err = None
  ↔ ∀ i piece outcome,
      pb.GetRemotePieces (pb.Remote pointer) !! i = Some piece →
      Reverify_piece env i piece = Some outcome →
      result_status (task_result outcome) ≠ status.erred.
Proof.
  intros Hget Hlive Hrun.
  destruct (Reverify_run _ _ _ _ _ _ _ Hget Hlive Hrun)
    as (outcomes & Hpieces & _ & -> & _).
  unfold Reverify_gather. rewrite Reverify_receive_fold_err. split.
  - intros [_ Hnil] i piece outcome Hi Hpiece Hst.
    destruct (Reverify_pieces_reached _ _ _ _ _ _ Hpieces Hi)
      as (outcome' & Hj & Hpiece').
    simpl in Hpiece'. assert (outcome' = outcome) as -> by congruence.
    destruct (Reverify_piece_result _ _ _ _ Hpiece) as [Herred _].
    apply Herred in Hst as Hsome. apply Hsome, Hnil; [|done].
    apply Reverify_gather_results. exists outcome.
    split; [by eapply list_elem_of_lookup_2|done].
  - intros Hnone. split; [done|]. intros r Hr Hst. exfalso.
    apply Reverify_gather_results in Hr as (outcome & Hin & <-).
    destruct (Reverify_outcome_piece _ _ _ _ Hpieces Hin) as (i & piece & Hi & Hpiece).
    by apply (Hnone i piece outcome).
Qed.

Lemma Reverify_error_iff_witness :
  (None : option error) = None
  ↔ ∀ i piece outcome,
      pb.GetRemotePieces (pb.Remote (demo_pointer true 100 0)) !! i = Some piece →
      Reverify_piece (demo_renv true id_shuffle) i piece = Some outcome →
      result_status (task_result outcome) ≠ status.erred.
Proof.
  apply (Reverify_error_iff (demo_renv true id_shuffle) demo_path [x01]
           (demo_pointer true 100 0)
           (mkReport [10%N] [11%N] [] [demo_pending 13%N] []) None
           [ContainmentDelete 12%N]).
  - reflexivity.
  - intros [Hne _]. by apply Hne.
  - vm_compute; reflexivity.
Defined.

(** X16.  Once the pending audit is known to be still there, [Reverify]
    reads the error of a download as [Verify] does: the node is offline,
    unknown or contained for [Reverify] exactly when the classification
    of [Verify] puts it in that list or map, and it is failed or skipped
    exactly when [Verify] puts it among the failed nodes, skipped being
    the case where the segment was altered. *)
Theorem Reverify_analyze_agrees_with_Verify pending altered err pieceNum data :
  let id := PA_NodeID pending in
  let b :=
    classifyShare (mkBuckets [] [] [] ∅ ∅) pieceNum
      (mkShare (Some err) pieceNum id data) in
  let st := result_status (Reverify_analyze pending altered err) in
  (st = status.offline ↔ offlineNodes b = [id])
  ∧ (st = status.unknown ↔ unknownNodes b = [id])
  ∧ (st = status.contained ↔ containedNodes b !! pieceNum = Some id)
  ∧ (st = status.failed ↔ failedNodes b = [id] ∧ altered = None)
  ∧ (st = status.skipped ↔ failedNodes b = [id] ∧ altered ≠ None).
Proof.
  unfold Reverify_analyze, classifyShare. simpl.
  destruct (errs.Has errs.RPCError err), (errs.IsDeadlineExceeded err),
    (errs.IsRPC err rpcstatus.Unknown), (errs.IsRPC err rpcstatus.NotFound),
    (errs.IsRPC err rpcstatus.DeadlineExceeded), altered; simpl;
    rewrite ?lookup_empty, ?lookup_insert_eq;
    repeat split; try done; try (by intros [? ?]).
Qed.

(** X17.  [Reverify] removes a node from containment only on account of a
    piece of the segment: a piece whose result is skipped; a piece whose
    order limit could not be created because the node is disqualified or
    has finished graceful exit; or a failed or contained piece of a node
    that the report then lists neither in Fails nor in PendingAudits.
    It never does so for a result that is success, offline or unknown. *)
Theorem Reverify_release_justified env path report err calls id :
  Reverify env path = Some (report, err, calls) →
  ContainmentDelete id ∈ calls →
  ∃ pointerBytes pointer i piece outcome,
    rve_GetWithBytes env path = inl (pointerBytes, pointer)
    ∧ pb.GetRemotePieces (pb.Remote pointer) !! i = Some piece
    ∧ Reverify_piece env i piece = Some outcome
    ∧ result_nodeID (task_result outcome) = id
    ∧ match result_status (task_result outcome) with
      | status.skipped => True
      | status.failed | status.contained =>
          (id ∉ Fails report) ∧ (id ∉ PA_NodeID <$> PendingAudits report)
      | status.erred =>
          ∃ e, result_err (task_result outcome) = Some e
               ∧ (errs.Has ErrNodeDisqualified e = true
                  ∨ errs.Has ErrNodeFinishedGE e = true)
      | status.success | status.offline | status.unknown => False
      end.
Proof.
  intros Hrun Hcall.
  destruct (Reverify_inv _ _ _ _ _ Hrun)
    as [[_ Hnone]|(pointerBytes & pointer & outcomes & Hget & _ & Hpieces
                   & -> & _ & ->)].
  { by apply Hnone in Hcall. }
  destruct (Reverify_gather_nodes env outcomes) as (_ & Hf & _ & _ & Hp & Hc).
  simpl in Hf, Hp, Hc.
  assert (hashes_verified (Reverify_written env outcomes) id = false →
          (id ∉ Fails (Reverify_deferred (Reverify_written env outcomes)
                         (gathered_report (Reverify_gather env outcomes))).1)
          ∧ (id ∉ PA_NodeID <$>
                    PendingAudits
                      (Reverify_deferred (Reverify_written env outcomes)
                         (gathered_report (Reverify_gather env outcomes))).1))
    as Hdropped.
  { intros Hfalse. simpl. split.
    - intros Hin. apply list_elem_of_filter in Hin as [Htrue _]. congruence.
    - intros Hin. apply list_elem_of_fmap in Hin as (pending & -> & Hin).
      apply list_elem_of_filter in Hin as [Htrue _]. congruence. }
  apply elem_of_app in Hcall as [Hcall|Hcall].
  { (* a call of a task *)
    apply elem_of_task_calls in Hcall as (outcome & Hin & Hcall).
    destruct (Reverify_outcome_piece _ _ _ _ Hpieces Hin) as (i & piece & Hi & Hpiece).
    destruct (Reverify_piece_calls_inv _ _ _ _ _ Hpiece Hcall)
      as (pending & _ & Htask).
    destruct (Reverify_task_calls_inv _ _ _ _ _ Htask Hcall)
      as [(bs & pp & _ & _ & _ & Hdelete)|(e & [= ->] & Hresult & Hwhy)]; [done|].
    exists pointerBytes, pointer, i, piece, outcome.
    rewrite Hresult. simpl. repeat split; try done. by exists e. }
  apply elem_of_app in Hcall as [Hcall|Hcall].
  { (* a call of the second loop *)
    rewrite Hc in Hcall. apply list_elem_of_fmap in Hcall as (n & [= ->] & Hcall).
    apply elem_of_gathered in Hcall as (outcome & Hin & Hst & Hid).
    destruct (Reverify_outcome_piece _ _ _ _ Hpieces Hin) as (i & piece & Hi & Hpiece).
    exists pointerBytes, pointer, i, piece, outcome. by rewrite Hst. }
  (* a call of the deferred function *)
  simpl in Hcall. apply elem_of_app in Hcall as [Hcall|Hcall].
  - apply list_elem_of_fmap in Hcall as (n & [= ->] & Hcall).
    apply list_elem_of_filter in Hcall as [Hfalse Hcall].
    rewrite Hf in Hcall. apply elem_of_gathered in Hcall as (outcome & Hin & Hst & Hid).
    destruct (Reverify_outcome_piece _ _ _ _ Hpieces Hin) as (i & piece & Hi & Hpiece).
    exists pointerBytes, pointer, i, piece, outcome. rewrite Hst.
    repeat split; try done; by apply Hdropped.
  - apply list_elem_of_fmap in Hcall as (n & [= ->] & Hcall).
    apply list_elem_of_filter in Hcall as [Hfalse Hcall].
    apply list_elem_of_fmap in Hcall as (pending & -> & Hcall).
    rewrite Hp in Hcall.
    apply elem_of_gathered_pending in Hcall as (outcome & Hin & Hst & Hpending).
    destruct (Reverify_outcome_piece _ _ _ _ Hpieces Hin) as (i & piece & Hi & Hpiece).
    destruct (Reverify_piece_result _ _ _ _ Hpiece) as [_ Hcontained].
    destruct (Hcontained Hst) as (pending' & Hpending' & Hnode).
    assert (pending' = pending) as -> by congruence.
    exists pointerBytes, pointer, i, piece, outcome. rewrite Hst.
    repeat split; try done; by apply Hdropped.
Qed.

Lemma Reverify_release_justified_witness :
  ∃ pointerBytes pointer i piece outcome,
    rve_GetWithBytes (demo_renv false rev_shuffle) demo_path
    = inl (pointerBytes, pointer)
    ∧ pb.GetRemotePieces (pb.Remote pointer) !! i = Some piece
    ∧ Reverify_piece (demo_renv false rev_shuffle) i piece = Some outcome
    ∧ result_nodeID (task_result outcome) = 11%N
    ∧ match result_status (task_result outcome) with
      | status.skipped => True
      | status.failed | status.contained =>
          (11%N ∉ Fails (mkReport [10%N] [] [] [] []))
          ∧ (11%N ∉ PA_NodeID <$> PendingAudits (mkReport [10%N] [] [] [] []))
      | status.erred =>
          ∃ e, result_err (task_result outcome) = Some e
               ∧ (errs.Has ErrNodeDisqualified e = true
                  ∨ errs.Has ErrNodeFinishedGE e = true)
      | status.success | status.offline | status.unknown => False
      end.
Proof.
  apply (Reverify_release_justified (demo_renv false rev_shuffle) demo_path
           (mkReport [10%N] [] [] [] []) None
           [ContainmentDelete 12%N; ContainmentDelete 11%N; ContainmentDelete 13%N]
           11%N).
  - vm_compute; reflexivity.
  - right. by left.
Defined.

(** X18.  [Reverify] deletes a segment from the metainfo store only when
    the pointer it has just fetched for that very key has an expiration
    date in the past, and it passes the bytes of that pointer: the
    audited segment itself, or the segment of a pending audit of one of
    its pieces. *)
Theorem Reverify_deletes_only_expired env path report err calls key pointerBytes :
  Reverify env path = Some (report, err, calls) →
  MetainfoDelete key pointerBytes ∈ calls →
  (∃ pointer,
     key = path
     ∧ rve_GetWithBytes env path = inl (pointerBytes, pointer)
     ∧ pb.ExpirationDate pointer ≠ 0
     ∧ pb.ExpirationDate pointer < rve_Now env)
  ∨ (∃ bs pointer i piece pending pendingPointer,
       rve_GetWithBytes env path = inl (bs, pointer)
       ∧ pb.GetRemotePieces (pb.Remote pointer) !! i = Some piece
       ∧ rv_containment_Get (rve_task env i) (pb.NodeId piece) = inl pending
       ∧ key = PA_Path pending
       ∧ rv_GetWithBytes (rve_task env i) key = inl (pointerBytes, pendingPointer)
       ∧ pb.ExpirationDate pendingPointer ≠ 0
       ∧ pb.ExpirationDate pendingPointer < rv_Now (rve_task env i)).
Proof.
  intros Hrun Hcall. unfold Reverify in Hrun.
  destruct (rve_GetWithBytes env path) as [[bs pointer]|e] eqn:Hget.
  2:{ destruct (errs.Has errs.ErrObjectNotFound e);
        injection Hrun as <- <- <-; by apply elem_of_nil in Hcall. }
  destruct (bool_decide (pb.ExpirationDate pointer ≠ 0)
            && (pb.ExpirationDate pointer <? rve_Now env)) eqn:Hexpired.
  { left. apply andb_true_iff in Hexpired as [Hne Hlt].
    apply bool_decide_eq_true in Hne. apply Z.ltb_lt in Hlt.
    destruct (rve_metainfo_Delete env path bs);
      injection Hrun as <- <- <-;
      apply list_elem_of_singleton in Hcall as [= -> ->]; by exists pointer. }
  destruct (Reverify_pieces env 0 (pb.GetRemotePieces (pb.Remote pointer)))
    as [outcomes|] eqn:Hpieces; [|done].
  destruct (Reverify_deferred (Reverify_written env outcomes)
              (gathered_report (Reverify_gather env outcomes)))
    as [report' deferred_calls] eqn:Hdeferred.
  injection Hrun as <- <- <-. right.
  apply elem_of_app in Hcall as [Hcall|Hcall].
  - apply elem_of_task_calls in Hcall as (outcome & Hin & Hcall).
    destruct (Reverify_outcome_piece _ _ _ _ Hpieces Hin) as (i & piece & Hi & Hpiece).
    destruct (Reverify_piece_calls_inv _ _ _ _ _ Hpiece Hcall)
      as (pending & Hpending & Htask).
    destruct (Reverify_task_calls_inv _ _ _ _ _ Htask Hcall)
      as [(pbs & pp & Hpp & Hne & Hlt & [= -> ->])|(e & Hdelete & _)]; [|done].
    by exists bs, pointer, i, piece, pending, pp.
  - exfalso. apply elem_of_app in Hcall as [Hcall|Hcall].
    + destruct (Reverify_gather_nodes env outcomes) as (_ & _ & _ & _ & _ & Hc).
      simpl in Hc. rewrite Hc in Hcall.
      by apply list_elem_of_fmap in Hcall as (n & ? & _).
    + unfold Reverify_deferred in Hdeferred. injection Hdeferred as _ <-.
      apply elem_of_app in Hcall as [Hcall|Hcall];
        by apply list_elem_of_fmap in Hcall as (n & ? & _).
Qed.

Lemma Reverify_deletes_only_expired_witness :
  (∃ pointer,
     demo_path = demo_path
     ∧ rve_GetWithBytes expired_renv demo_path = inl ([x01], pointer)
     ∧ pb.ExpirationDate pointer ≠ 0
     ∧ pb.ExpirationDate pointer < rve_Now expired_renv)
  ∨ (∃ bs pointer i piece pending pendingPointer,
       rve_GetWithBytes expired_renv demo_path = inl (bs, pointer)
       ∧ pb.GetRemotePieces (pb.Remote pointer) !! i = Some piece
       ∧ rv_containment_Get (rve_task expired_renv i) (pb.NodeId piece) = inl pending
       ∧ demo_path = PA_Path pending
       ∧ rv_GetWithBytes (rve_task expired_renv i) demo_path
         = inl ([x01], pendingPointer)
       ∧ pb.ExpirationDate pendingPointer ≠ 0
       ∧ pb.ExpirationDate pendingPointer < rv_Now (rve_task expired_renv i)).
Proof.
  apply (Reverify_deletes_only_expired expired_renv demo_path Report_zero None
           [MetainfoDelete demo_path [x01]] demo_path [x01]).
  - vm_compute; reflexivity.
  - by left.
Defined.
